(** * Response unification engine of [argilla.client.feedback.schemas]

    A shallow embedding of the feedback schemas (values, responses, records,
    questions), of the unification strategies
    ([RatingQuestionStrategy], [LabelQuestionStrategy],
    [MultiLabelQuestionStrategy]) and of the unification bindings, followed
    by the properties of the specification that concern them.

    Conventions of the embedding.
    - A Python call either returns or raises: [result A] is [Ok a] or
      [Raise e].
    - The strategies mutate the records of the list they are given.  A
      strategy is a function from the records before the call to the
      records after it, together with what the call returned or raised;
      the records of a list are distinct objects.  What a call returns is a
      reference ([Returned]): the list it was given, one of its records, or
      a list it built itself.
    - [random.choice] draws through [_randbelow]; the generator is a
      parameter of the development ([randbelow], with the range property
      of the library as the only assumption).
    - A pydantic model accepts a value of the declared type of a field and
      stores it as it is.  The members of a union are tried in the order of
      the declaration, and the conversions this leads to are written out:
      [validate_value] and [validate_strategy] for a unification value,
      [validate_labels] for a list of labels that is refused as a list and
      read as a dictionary, [LabelQuestion_validate] for a multi-label
      question that a label binding rebuilds as a label question.
    - A Python string is the list of its characters, and the characters of
      the embedding are those of [ascii], the code points below 256, in their
      order.  [str.capitalize] follows the case tables of Unicode and leads
      out of them: a capitalised name is kept as such ([Title]) and not
      computed. *)

From Stdlib Require Import ZArith Ascii String DecimalString Lia.
From stdpp Require Import base gmap strings list.

Open Scope Z_scope.
Open Scope string_scope.
Open Scope list_scope.

(** ** Exceptions and results *)

Inductive PyExc : Type :=
| KeyError
| TypeError
| ValueError
| IndexError
| ZeroDivisionError
| UnboundLocalError
| NotImplementedError
| ValidationError.

Inductive result (A : Type) : Type :=
| Ok (a : A)
| Raise (e : PyExc).
Arguments Ok {A} a.
Arguments Raise {A} e.

#[global] Instance result_bind : MBind result := λ A B k r,
  match r with
  | Ok a => k a
  | Raise e => Raise e
  end.

Definition raises {A : Type} (r : result A) : Prop :=
  match r with
  | Ok _ => False
  | Raise _ => True
  end.

(** ** Values, responses and records *)

(** [ValueSchema.value : Union[StrictStr, StrictInt, List[str]]]. *)
Inductive Value : Type :=
| VStr (s : string)
| VInt (n : Z)
| VList (l : list string).

#[global] Instance Value_eq_dec : EqDecision Value.
Proof. solve_decision. Defined.

(** The members of the three strategy enumerations and their string tags. *)
Inductive RatingQuestionStrategy : Type := MEAN | MAJORITY | MAX | MIN.

Inductive LabelQuestionStrategy : Type :=
| LABEL_MAJORITY
| LABEL_MAJORITY_WEIGHTED
| LABEL_DISAGREEMENT.

Inductive MultiLabelQuestionStrategy : Type :=
| MULTI_MAJORITY
| MULTI_MAJORITY_WEIGHTED
| MULTI_DISAGREEMENT.

Definition rating_value (s : RatingQuestionStrategy) : string :=
  match s with
  | MEAN => "mean"
  | MAJORITY => "majority"
  | MAX => "max"
  | MIN => "min"
  end.

Definition label_value (s : LabelQuestionStrategy) : string :=
  match s with
  | LABEL_MAJORITY => "majority"
  | LABEL_MAJORITY_WEIGHTED => "majority_weighted"
  | LABEL_DISAGREEMENT => "disagreement"
  end.

Definition multi_label_value (s : MultiLabelQuestionStrategy) : string :=
  match s with
  | MULTI_MAJORITY => "majority"
  | MULTI_MAJORITY_WEIGHTED => "majority_weighted"
  | MULTI_DISAGREEMENT => "disagreement"
  end.

(** Enumeration lookup by value: [RatingQuestionStrategy(v)] and its
    siblings; Python raises [ValueError] where these give [None]. *)
Definition RatingQuestionStrategy_of (v : string) : option RatingQuestionStrategy :=
  if decide (v = "mean") then Some MEAN
  else if decide (v = "majority") then Some MAJORITY
  else if decide (v = "max") then Some MAX
  else if decide (v = "min") then Some MIN
  else None.

Definition LabelQuestionStrategy_of (v : string) : option LabelQuestionStrategy :=
  if decide (v = "majority") then Some LABEL_MAJORITY
  else if decide (v = "majority_weighted") then Some LABEL_MAJORITY_WEIGHTED
  else if decide (v = "disagreement") then Some LABEL_DISAGREEMENT
  else None.

Definition MultiLabelQuestionStrategy_of (v : string) : option MultiLabelQuestionStrategy :=
  if decide (v = "majority") then Some MULTI_MAJORITY
  else if decide (v = "majority_weighted") then Some MULTI_MAJORITY_WEIGHTED
  else if decide (v = "disagreement") then Some MULTI_DISAGREEMENT
  else None.

(** [Union["RatingQuestionStrategy", "LabelQuestionStrategy",
    "MultiLabelQuestionStrategy"]], the type of
    [UnificationValueSchema.strategy]. *)
Inductive Strategy : Type :=
| OfRating (s : RatingQuestionStrategy)
| OfLabel (s : LabelQuestionStrategy)
| OfMultiLabel (s : MultiLabelQuestionStrategy).

Definition strategy_value (s : Strategy) : string :=
  match s with
  | OfRating r => rating_value r
  | OfLabel l => label_value l
  | OfMultiLabel m => multi_label_value m
  end.

Record UnificationValueSchema : Type := {
  value : Value;
  strategy : Strategy
}.

Inductive Status : Type := submitted | discarded.

#[global] Instance Status_eq_dec : EqDecision Status.
Proof. solve_decision. Defined.

Record ResponseSchema : Type := {
  user_id : option string;
  values : gmap string Value;
  status : Status
}.

(** What a strategy leaves under a question name: the declared type of
    [unified_responses] is a list of unification values per name, the
    assignment is not validated, and the strategies store either one
    unification value or a list of them. *)
Inductive Unified : Type :=
| One (u : UnificationValueSchema)
| Many (us : list UnificationValueSchema).

Record FeedbackRecord : Type := {
  fields : gmap string string;
  responses : list ResponseSchema;
  external_id : option string;
  unified_responses : option (gmap string Unified)
}.

(** [rec.unified_responses = d] *)
Definition set_unified_responses (rec : FeedbackRecord) (d : gmap string Unified)
  : FeedbackRecord :=
  {| fields := fields rec;
     responses := responses rec;
     external_id := external_id rec;
     unified_responses := Some d |}.

(** [[resp for resp in rec.responses if resp.status == "submitted"]] *)
Definition submitted_responses (rec : FeedbackRecord) : list ResponseSchema :=
  filter (λ resp, status resp = submitted) (responses rec).

(** [resp.values[field].value] *)
Definition response_value (field : string) (resp : ResponseSchema) : result Value :=
  match values resp !! field with
  | Some v => Ok v
  | None => Raise KeyError
  end.

(** A list comprehension whose element expression may raise. *)
Fixpoint collect {A B : Type} (f : A → result B) (l : list A) : result (list B) :=
  match l with
  | [] => Ok []
  | a :: l' => b ← f a; bs ← collect f l'; Ok (b :: bs)
  end.

(** ** Construction of a unification value *)

(** The objects the strategies hand to [UnificationValueSchema(value=...)]:
    hashable scalars (the keys of a [Counter]), a quotient of two integers
    (a float), a list of counter keys, or a value read from a response. *)
Inductive Key : Type :=
| KStr (s : string)
| KInt (n : Z).

#[global] Instance Key_eq_dec : EqDecision Key.
Proof. solve_decision. Defined.

Inductive PyObj : Type :=
| OStr (s : string)
| OInt (n : Z)
| OFloat (num den : Z)
| OList (l : list Key).

Definition obj_of_key (k : Key) : PyObj :=
  match k with
  | KStr s => OStr s
  | KInt n => OInt n
  end.

Definition obj_of_value (v : Value) : PyObj :=
  match v with
  | VStr s => OStr s
  | VInt n => OInt n
  | VList l => OList (KStr <$> l)
  end.

(** [str(n)] *)
Definition str_of_int (n : Z) : string := NilZero.string_of_int (Z.to_int n).

(** An element of a [List[str]]: a string is kept, an integer is rendered. *)
Definition str_of_key (k : Key) : string :=
  match k with
  | KStr s => s
  | KInt n => str_of_int n
  end.

(** [value: Union[StrictStr, StrictInt, List[str]]]: a string or an integer
    is stored as it is, a list becomes a list of strings, a float belongs to
    no member of the union. *)
Definition validate_value (o : PyObj) : result Value :=
  match o with
  | OStr s => Ok (VStr s)
  | OInt n => Ok (VInt n)
  | OFloat _ _ => Raise ValidationError
  | OList l => Ok (VList (str_of_key <$> l))
  end.

(** [strategy: Union[RatingQuestionStrategy, LabelQuestionStrategy,
    MultiLabelQuestionStrategy]] given a tag: the first enumeration, in the
    order of the union, that has a member with this value. *)
Definition validate_strategy (tag : string) : result Strategy :=
  match RatingQuestionStrategy_of tag with
  | Some s => Ok (OfRating s)
  | None =>
    match LabelQuestionStrategy_of tag with
    | Some s => Ok (OfLabel s)
    | None =>
      match MultiLabelQuestionStrategy_of tag with
      | Some s => Ok (OfMultiLabel s)
      | None => Raise ValidationError
      end
    end
  end.

(** [UnificationValueSchema(value=o, strategy=tag)] *)
Definition mk_UnificationValueSchema (o : PyObj) (tag : string)
  : result UnificationValueSchema :=
  v ← validate_value o;
  s ← validate_strategy tag;
  Ok {| value := v; strategy := s |}.

(** ** Built-ins used by the strategies *)

(** [collections.Counter]: counts by key, in order of first insertion. *)
Abbreviation Counter := (list (Key * nat)).

(** [counter.update([k])] *)
Fixpoint counter_update (k : Key) (c : Counter) : Counter :=
  match c with
  | [] => [(k, 1%nat)]
  | (k', n) :: c' =>
    if decide (k = k') then (k', S n) :: c' else (k', n) :: counter_update k c'
  end.

(** [counter[k]] *)
Fixpoint counter_get (k : Key) (c : Counter) : nat :=
  match c with
  | [] => 0%nat
  | (k', n) :: c' => if decide (k = k') then n else counter_get k c'
  end.

(** A value used as a dictionary key: a list is not hashable. *)
Definition hashable (v : Value) : result Key :=
  match v with
  | VStr s => Ok (KStr s)
  | VInt n => Ok (KInt n)
  | VList _ => Raise TypeError
  end.

(** [max(counter.values())] *)
Definition max_count (c : Counter) : result nat :=
  match c with
  | [] => Raise ValueError
  | (_, n) :: c' => Ok (foldl (λ m kn, if (m <? kn.2)%nat then kn.2 else m) n c')
  end.

(** [[value for value, count in counter.items() if count == max_count]] *)
Definition values_with_count (m : nat) (c : Counter) : list Key :=
  (filter (λ kn, kn.2 = m) c).*1.

(** [counter.most_common(1)[0][0]]: the first key, in insertion order, of
    largest count. *)
Definition most_common_1 (c : Counter) : result Key :=
  match c with
  | [] => Raise IndexError
  | kn :: c' =>
    Ok (foldl (λ best kn', if (best.2 <? kn'.2)%nat then kn' else best) kn c').1
  end.

(** The order of Python on the values of a response; values of different
    types are not ordered. *)
Fixpoint list_ltb (a b : list string) : bool :=
  match a, b with
  | [], [] => false
  | [], _ :: _ => true
  | _ :: _, [] => false
  | x :: a', y :: b' =>
    if decide (x = y) then list_ltb a' b' else String.ltb x y
  end.

Definition py_lt (a b : Value) : result bool :=
  match a, b with
  | VInt x, VInt y => Ok (x <? y)%Z
  | VStr x, VStr y => Ok (String.ltb x y)
  | VList x, VList y => Ok (list_ltb x y)
  | _, _ => Raise TypeError
  end.

(** [max(l)]: the running maximum is replaced when [item > maximum]. *)
Fixpoint max_from (m : Value) (l : list Value) : result Value :=
  match l with
  | [] => Ok m
  | x :: l' => py_lt m x ≫= λ b : bool, max_from (if b then x else m) l'
  end.

Definition py_max (l : list Value) : result Value :=
  match l with
  | [] => Raise ValueError
  | x :: l' => max_from x l'
  end.

(** [min(l)]: the running minimum is replaced when [item < minimum]. *)
Fixpoint min_from (m : Value) (l : list Value) : result Value :=
  match l with
  | [] => Ok m
  | x :: l' => py_lt x m ≫= λ b : bool, min_from (if b then x else m) l'
  end.

Definition py_min (l : list Value) : result Value :=
  match l with
  | [] => Raise ValueError
  | x :: l' => min_from x l'
  end.

(** [sum(l)]: starts from the integer [0]; adding a string or a list to an
    integer is a type error. *)
Fixpoint sum_from (acc : Z) (l : list Value) : result Z :=
  match l with
  | [] => Ok acc
  | VInt n :: l' => sum_from (acc + n) l'
  | _ :: _ => Raise TypeError
  end.

Definition py_sum (l : list Value) : result Z := sum_from 0 l.

(** [a / b] on integers: true division, a float (the quotient is kept as the
    pair of its operands; that Python raises already here when the quotient
    is beyond the range of a float is not distinguished). *)
Definition py_truediv (a : Z) (b : nat) : result PyObj :=
  if decide (b = 0%nat) then Raise ZeroDivisionError else Ok (OFloat a (Z.of_nat b)).

(** ** Fields and questions *)

(** The values of a [settings] dictionary: the type tag, a flag, the number
    of visible options ([None] shows all), the list of option dictionaries. *)
Inductive Setting : Type :=
| SettingStr (s : string)
| SettingBool (b : bool)
| SettingInt (n : Z)
| SettingNone
| SettingOptions (l : list (list (string * Value))).

(** The title of a field or of a question: a string that was given, or
    [name.capitalize()] for a name, which is not computed. *)
Inductive Title : Type :=
| TitleStr (s : string)
| NameCapitalized (name : string).

(** [not v] for a title: a capitalised name is empty exactly when the name
    is. *)
Definition title_is_empty (v : Title) : bool :=
  match v with
  | TitleStr s => bool_decide (s = "")
  | NameCapitalized name => bool_decide (name = "")
  end.

(** [title_must_have_value]: [if not v: return values.get("name").capitalize()] *)
Definition title_must_have_value (v : option Title) (name : string) : Title :=
  match v with
  | None => NameCapitalized name
  | Some t => if title_is_empty t then NameCapitalized name else t
  end.

Record FieldSchema : Type := {
  field_name : string;
  field_title : Title;
  field_required : bool;
  field_settings : gmap string Setting
}.

Record TextField : Type := {
  TextField_base :> FieldSchema;
  field_use_markdown : bool
}.

(** [TextField(name=..., title=..., required=..., use_markdown=...)] *)
Definition mk_TextField (name : string) (title : option string)
    (required use_markdown : bool) : TextField :=
  {| TextField_base :=
       {| field_name := name;
          field_title := title_must_have_value (TitleStr <$> title) name;
          field_required := required;
          field_settings :=
            <["use_markdown" := SettingBool use_markdown]>
              {["type" := SettingStr "text"]} |};
     field_use_markdown := use_markdown |}.

Record QuestionSchema : Type := {
  name : string;
  title : Title;
  description : option string;
  required : bool;
  settings : gmap string Setting
}.

Record TextQuestion : Type := {
  TextQuestion_base :> QuestionSchema;
  use_markdown : bool
}.

Record RatingQuestion : Type := {
  RatingQuestion_base :> QuestionSchema;
  rating_values : list Z
}.

(** [labels: Union[conlist(str, unique_items=True, min_items=2), Dict[str, str]]];
    a dictionary is the list of its items in insertion order, and has no key
    twice. *)
Inductive Labels : Type :=
| LabelList (l : list string)
| LabelDict (d : list (string * string)).

Record _LabelQuestion : Type := {
  _LabelQuestion_base :> QuestionSchema;
  labels : Labels;
  visible_labels : option Z
}.

Record LabelQuestion : Type := { LabelQuestion_base :> _LabelQuestion }.

Record MultiLabelQuestion : Type := { MultiLabelQuestion_base :> _LabelQuestion }.

(** A keyword argument that has a default is given or left out. *)
Inductive Arg (A : Type) : Type :=
| Omitted
| Given (a : A).
Arguments Omitted {A}.
Arguments Given {A} a.

(** [TextQuestion(...)] *)
Definition mk_TextQuestion (name : string) (title description : option string)
    (required use_markdown : bool) : TextQuestion :=
  {| TextQuestion_base :=
       {| name := name;
          title := title_must_have_value (TitleStr <$> title) name;
          description := description;
          required := required;
          settings :=
            <["use_markdown" := SettingBool use_markdown]>
              (<["use_markdown" := SettingBool false]>
                 {["type" := SettingStr "text"]}) |};
     use_markdown := use_markdown |}.

(** [Field(unique_items=True, min_items=2)] and [conlist(str,
    unique_items=True, min_items=2)] *)
Definition unique_min_2 `{EqDecision A} (l : list A) : result (list A) :=
  if decide (2 ≤ length l)%nat then
    if decide (NoDup l) then Ok l else Raise ValidationError
  else Raise ValidationError.

(** [RatingQuestion(...)]: the field [values], then [update_settings]. *)
Definition mk_RatingQuestion (name : string) (title description : option string)
    (required : bool) (values : list Z) : result RatingQuestion :=
  vs ← unique_min_2 values;
  Ok {| RatingQuestion_base :=
          {| name := name;
             title := title_must_have_value (TitleStr <$> title) name;
             description := description;
             required := required;
             settings :=
               <["options" := SettingOptions ((λ v, [("value", VInt v)]) <$> vs)]>
                 {["type" := SettingStr "rating"]} |};
        rating_values := vs |}.

(** [labels_dict_must_be_valid]: the two assertions on a dictionary. *)
Definition labels_dict_must_be_valid (v : Labels) : result Labels :=
  match v with
  | LabelDict d =>
    if decide (1 < length d.*1)%nat then
      if decide (length (remove_dups d.*2) = length d.*2) then Ok v
      else Raise ValidationError
    else Raise ValidationError
  | LabelList _ => Ok v
  end.

(** [d[k] = v]: a key that is there keeps its place and takes the value. *)
Fixpoint dict_setitem (k v : string) (d : list (string * string))
  : list (string * string) :=
  match d with
  | [] => [(k, v)]
  | (k', v') :: d' =>
    if decide (k = k') then (k', v) :: d' else (k', v') :: dict_setitem k v d'
  end.

(** An element of the sequence given to [dict]: it has to be a sequence of
    two items itself, here a string of two characters, the key and the
    value. *)
Definition key_and_value (s : string) : option (string * string) :=
  match s with
  | String k (String v EmptyString) => Some (String k EmptyString, String v EmptyString)
  | _ => None
  end.

(** [dict(l)] for a list of strings; Python raises [ValueError] where this
    gives [None]. *)
Definition dict_of_list (l : list string) : option (list (string * string)) :=
  items ← mapM key_and_value l;
  Some (foldl (λ d kv, dict_setitem kv.1 kv.2 d) [] items).

(** The field [labels]: a dictionary belongs to the second member of the
    union; a list belongs to the first, and a list that the first member
    refuses is tried as the second, which takes [dict(l)]; then the
    validator. *)
Definition validate_labels (v : Labels) : result Labels :=
  match v with
  | LabelList l =>
    match unique_min_2 l with
    | Ok l' => labels_dict_must_be_valid (LabelList l')
    | Raise _ =>
      match dict_of_list l with
      | Some d => labels_dict_must_be_valid (LabelDict d)
      | None => Raise ValidationError
      end
    end
  | LabelDict d => labels_dict_must_be_valid (LabelDict d)
  end.

(** [visible_labels: Optional[conint(ge=3)] = 20] *)
Definition validate_visible_labels (v : Arg (option Z)) : result (option Z) :=
  match v with
  | Omitted => Ok (Some 20)
  | Given None => Ok None
  | Given (Some n) => if decide (3 ≤ n)%Z then Ok (Some n) else Raise ValidationError
  end.

(** [_LabelQuestion.update_settings] *)
Definition update_settings (settings : gmap string Setting) (labels : Labels)
    (visible_labels : option Z) : gmap string Setting :=
  let settings :=
    match labels with
    | LabelDict d =>
      <["options" := SettingOptions
          ((λ kv : string * string, [("value", VStr kv.1); ("text", VStr kv.2)]) <$> d)]>
        settings
    | LabelList l =>
      <["options" := SettingOptions
          ((λ label, [("value", VStr label); ("text", VStr label)]) <$> l)]>
        settings
    end in
  <["visible_options" :=
      match visible_labels with
      | Some n => SettingInt n
      | None => SettingNone
      end]> settings.

(** The constructor of a class of [_LabelQuestion], with the [settings] it
    starts from: the default of the class, or the argument [settings]. *)
Definition mk__LabelQuestion (default_settings : gmap string Setting)
    (name : string) (title : option Title) (description : option string)
    (required : bool) (labels : Labels) (visible_labels : Arg (option Z))
  : result _LabelQuestion :=
  match validate_labels labels, validate_visible_labels visible_labels with
  | Ok ls, Ok vl =>
    Ok {| _LabelQuestion_base :=
            {| name := name;
               title := title_must_have_value title name;
               description := description;
               required := required;
               settings := update_settings default_settings ls vl |};
          labels := ls;
          visible_labels := vl |}
  | _, _ => Raise ValidationError
  end.

(** [LabelQuestion(...)]: [settings] defaults to [{"type": "label_selection"}]. *)
Definition mk_LabelQuestion (name : string) (title description : option string)
    (required : bool) (labels : Labels) (visible_labels : Arg (option Z))
  : result LabelQuestion :=
  q ← mk__LabelQuestion {["type" := SettingStr "label_selection"]}
        name (TitleStr <$> title) description required labels visible_labels;
  Ok {| LabelQuestion_base := q |}.

(** [MultiLabelQuestion(...)]: [settings] defaults to
    [{"type": "multi_label_selection"}]. *)
Definition mk_MultiLabelQuestion (name : string) (title description : option string)
    (required : bool) (labels : Labels) (visible_labels : Arg (option Z))
  : result MultiLabelQuestion :=
  q ← mk__LabelQuestion {["type" := SettingStr "multi_label_selection"]}
        name (TitleStr <$> title) description required labels visible_labels;
  Ok {| MultiLabelQuestion_base := q |}.

(** [LabelQuestion.validate(value)] for a model [value] of another class:
    [LabelQuestion( **dict(value))], the constructor with the fields of the
    model as its arguments, [settings] and [title] among them. *)
Definition LabelQuestion_validate (value : _LabelQuestion) : result LabelQuestion :=
  q ← mk__LabelQuestion (settings value) (name value) (Some (title value))
        (description value) (required value) (labels value)
        (Given (visible_labels value));
  Ok {| LabelQuestion_base := q |}.

(** [AllowedQuestionTypes] *)
Inductive AllowedQuestionTypes : Type :=
| IsTextQuestion (q : TextQuestion)
| IsRatingQuestion (q : RatingQuestion)
| IsLabelQuestion (q : LabelQuestion)
| IsMultiLabelQuestion (q : MultiLabelQuestion).

(** ** The strategies *)

(** What a call hands back: the list it was given, the record at a position
    of that list, a list of its own, or [None]. *)
Inductive Returned : Type :=
| TheRecords
| TheRecord (i : nat)
| NewList (l : list FeedbackRecord)
| ReturnedNone.

(** The [field] argument of [unify_responses]: a string, a question, or
    anything else. *)
Inductive FieldRef : Type :=
| FieldName (s : string)
| FieldQuestion (q : AllowedQuestionTypes)
| FieldOther.

(** A call seen from outside: the records and the generator it leaves, and
    what it returned or raised. *)
Record Outcome (G : Type) : Type := {
  records_after : list FeedbackRecord;
  returned : result Returned;
  generator_after : G
}.
Arguments records_after {G} o.
Arguments returned {G} o.
Arguments generator_after {G} o.

(** [for rec in records: body]: the records before the one on which the body
    raises are written, that one and the later ones are not. *)
Fixpoint for_each_record {G : Type}
    (body : FeedbackRecord → G → result FeedbackRecord * G)
    (records : list FeedbackRecord) (g : G)
  : list FeedbackRecord * option PyExc * G :=
  match records with
  | [] => ([], None, g)
  | rec :: rest =>
    match body rec g with
    | (Raise e, g') => (rec :: rest, Some e, g')
    | (Ok rec', g') =>
      let '(rest', e, g'') := for_each_record body rest g' in
      (rec' :: rest', e, g'')
    end
  end.

(** The statement after the loop is reached when the loop did not raise. *)
Definition then_return {G : Type} (loop : list FeedbackRecord * option PyExc * G)
    (ret : result Returned) : Outcome G :=
  let '(records, e, g) := loop in
  {| records_after := records;
     returned := match e with Some e => Raise e | None => ret end;
     generator_after := g |}.

(** A body that draws no random number. *)
Definition pure_body {G : Type} (body : FeedbackRecord → result FeedbackRecord)
  : FeedbackRecord → G → result FeedbackRecord * G :=
  λ rec g, (body rec, g).

(** The body of the loop of [RatingQuestionStrategy._aggregate]. *)
Definition aggregate_record (self : RatingQuestionStrategy) (field : string)
    (rec : FeedbackRecord) : result FeedbackRecord :=
  let responses := submitted_responses rec in
  ratings ← collect (response_value field) responses;
  unified_value ←
    (if decide (rating_value self = rating_value MEAN) then
       total ← py_sum ratings; py_truediv total (length ratings)
     else if decide (rating_value self = rating_value MAX) then
       m ← py_max ratings; Ok (obj_of_value m)
     else if decide (rating_value self = rating_value MIN) then
       m ← py_min ratings; Ok (obj_of_value m)
     else Raise ValueError);
  u ← mk_UnificationValueSchema unified_value (rating_value self);
  Ok (set_unified_responses rec {[field := One u]}).

(** [for resp in responses: counter.update([resp.values[field].value])] *)
Fixpoint count_values (field : string) (responses : list ResponseSchema)
    (counter : Counter) : result Counter :=
  match responses with
  | [] => Ok counter
  | resp :: rest =>
    v ← response_value field resp;
    k ← hashable v;
    count_values field rest (counter_update k counter)
  end.

(** The loop over the responses of [MultiLabelQuestionStrategy._majority]:
    every element of a list value is counted, another value is counted
    itself. *)
Fixpoint count_labels (field : string) (responses : list ResponseSchema)
    (counter : Counter) : result Counter :=
  match responses with
  | [] => Ok counter
  | resp :: rest =>
    v ← response_value field resp;
    count_labels field rest
      match v with
      | VList l => foldl (λ c x, counter_update (KStr x) c) counter l
      | VStr s => counter_update (KStr s) counter
      | VInt n => counter_update (KInt n) counter
      end
  end.

(** The body of the loop of [MultiLabelQuestionStrategy._majority]. *)
Definition multi_label_majority_record (tag : string) (field : string)
    (rec : FeedbackRecord) : result FeedbackRecord :=
  let responses := submitted_responses rec in
  counter ← count_labels field responses [];
  let majority := (length responses / 2 + 1)%nat in
  let majority_value := (filter (λ kn, majority ≤ kn.2)%nat counter).*1 in
  u ← mk_UnificationValueSchema (OList majority_value) tag;
  Ok (set_unified_responses rec {[field := One u]}).

(** The body of the loop of [LabelQuestionStrategyMixin._disagreement]. *)
Definition disagreement_record (tag : string) (field : string)
    (rec : FeedbackRecord) : result FeedbackRecord :=
  let responses := submitted_responses rec in
  us ← collect
         (λ resp, v ← response_value field resp;
                  mk_UnificationValueSchema (obj_of_value v) tag)
         responses;
  Ok (set_unified_responses rec {[field := Many us]}).

Section Strategies.
Context {G : Type}.

(** [random.Random._randbelow] *)
Variable randbelow : G → nat → nat * G.

(** [random.choice(seq)]: [seq[self._randbelow(len(seq))]] *)
Definition choice {A : Type} (seq : list A) (g : G) : result A * G :=
  let '(i, g') := randbelow g (length seq) in
  (match seq !! i with Some x => Ok x | None => Raise IndexError end, g').

(** The body of the loop of [RatingQuestionStrategy._majority] and of
    [LabelQuestionStrategy._majority], which are the same text. *)
Definition majority_record (tag : string) (field : string)
    (rec : FeedbackRecord) (g : G) : result FeedbackRecord * G :=
  let responses := submitted_responses rec in
  match count_values field responses [] with
  | Raise e => (Raise e, g)
  | Ok counter =>
    match max_count counter with
    | Raise e => (Raise e, g)
    | Ok max_count =>
      let most_common_values := values_with_count max_count counter in
      let '(majority_value, g') :=
        if decide (1 < length most_common_values)%nat
        then choice most_common_values g
        else (most_common_1 counter, g) in
      (k ← majority_value;
       u ← mk_UnificationValueSchema (obj_of_key k) tag;
       Ok (set_unified_responses rec {[field := Many [u]]}),
       g')
    end
  end.

(** [RatingQuestionStrategy._aggregate]: [return records] *)
Definition RatingQuestionStrategy__aggregate (self : RatingQuestionStrategy)
    (records : list FeedbackRecord) (field : string) (g : G) : Outcome G :=
  then_return
    (for_each_record (pure_body (aggregate_record self field)) records g)
    (Ok TheRecords).

(** [RatingQuestionStrategy._majority]: [return records] *)
Definition RatingQuestionStrategy__majority (self : RatingQuestionStrategy)
    (records : list FeedbackRecord) (field : string) (g : G) : Outcome G :=
  then_return
    (for_each_record (majority_record (rating_value self) field) records g)
    (Ok TheRecords).

(** [RatingQuestionStrategy.unify_responses] *)
Definition RatingQuestionStrategy_unify_responses (self : RatingQuestionStrategy)
    (records : list FeedbackRecord) (field : FieldRef) (g : G) : Outcome G :=
  let choose field :=
    if decide (rating_value self = rating_value MAJORITY)
    then RatingQuestionStrategy__majority self records field g
    else RatingQuestionStrategy__aggregate self records field g in
  match field with
  | FieldName s => choose s
  | FieldQuestion (IsRatingQuestion q) => choose (name q)
  | _ => {| records_after := records;
            returned := Raise ValueError;
            generator_after := g |}
  end.

(** [LabelQuestionStrategyMixin]: what the mixin expects of the enumeration
    it is mixed into, the members and their values and the two abstract
    methods. *)
Class LabelQuestionStrategyMixin (E : Type) : Type := {
  self_value : E → string;
  the_MAJORITY : E;
  the_MAJORITY_WEIGHTED : E;
  the_DISAGREEMENT : E;
  _majority : E → list FeedbackRecord → string → G → Outcome G;
  _majority_weighted : E → list FeedbackRecord → string → G → Outcome G
}.

(** [LabelQuestionStrategyMixin._disagreement]: [return unified_records],
    the list created empty before the loop. *)
Definition _disagreement `{LabelQuestionStrategyMixin E} (self : E)
    (records : list FeedbackRecord) (field : string) (g : G) : Outcome G :=
  let unified_records : list FeedbackRecord := [] in
  then_return
    (for_each_record (pure_body (disagreement_record (self_value self) field))
       records g)
    (Ok (NewList unified_records)).

(** [LabelQuestionStrategyMixin.unify_responses] *)
Definition unify_responses `{LabelQuestionStrategyMixin E} (self : E)
    (records : list FeedbackRecord) (field : FieldRef) (g : G) : Outcome G :=
  let choose field :=
    if decide (self_value self = self_value the_MAJORITY)
    then _majority self records field g
    else if decide (self_value self = self_value the_MAJORITY_WEIGHTED)
    then _majority_weighted self records field g
    else if decide (self_value self = self_value the_DISAGREEMENT)
    then _disagreement self records field g
    else {| records_after := records;
            returned := Ok ReturnedNone;
            generator_after := g |} in
  match field with
  | FieldQuestion (IsLabelQuestion q) => choose (name q)
  | FieldQuestion (IsMultiLabelQuestion q) => choose (name q)
  | FieldName s => choose s
  | _ => {| records_after := records;
            returned := Raise ValueError;
            generator_after := g |}
  end.

(** [return rec] after [for rec in records]: the last record of the list,
    and an unbound variable when the list is empty. *)
Definition loop_variable (records : list FeedbackRecord) : result Returned :=
  match records with
  | [] => Raise UnboundLocalError
  | _ :: rest => Ok (TheRecord (length rest))
  end.

(** [LabelQuestionStrategy._majority]: [return rec] *)
Definition LabelQuestionStrategy__majority (self : LabelQuestionStrategy)
    (records : list FeedbackRecord) (field : string) (g : G) : Outcome G :=
  then_return
    (for_each_record (majority_record (label_value self) field) records g)
    (loop_variable records).

(** [_majority_weighted]: [raise NotImplementedError("Not implemented yet")] *)
Definition not_implemented (records : list FeedbackRecord) (g : G) : Outcome G :=
  {| records_after := records;
     returned := Raise NotImplementedError;
     generator_after := g |}.

#[global] Instance LabelQuestionStrategy_mixin
  : LabelQuestionStrategyMixin LabelQuestionStrategy := {
  self_value := label_value;
  the_MAJORITY := LABEL_MAJORITY;
  the_MAJORITY_WEIGHTED := LABEL_MAJORITY_WEIGHTED;
  the_DISAGREEMENT := LABEL_DISAGREEMENT;
  _majority := LabelQuestionStrategy__majority;
  _majority_weighted := λ _ records _ g, not_implemented records g
}.

(** [MultiLabelQuestionStrategy._majority]: [return records] *)
Definition MultiLabelQuestionStrategy__majority (self : MultiLabelQuestionStrategy)
    (records : list FeedbackRecord) (field : string) (g : G) : Outcome G :=
  then_return
    (for_each_record
       (pure_body (multi_label_majority_record (multi_label_value self) field))
       records g)
    (Ok TheRecords).

#[global] Instance MultiLabelQuestionStrategy_mixin
  : LabelQuestionStrategyMixin MultiLabelQuestionStrategy := {
  self_value := multi_label_value;
  the_MAJORITY := MULTI_MAJORITY;
  the_MAJORITY_WEIGHTED := MULTI_MAJORITY_WEIGHTED;
  the_DISAGREEMENT := MULTI_DISAGREEMENT;
  _majority := MultiLabelQuestionStrategy__majority;
  _majority_weighted := λ _ records _ g, not_implemented records g
}.

End Strategies.

(** ** Unification bindings *)

(** The [strategy] argument of a binding: a string or a member of one of the
    enumerations. *)
Inductive StrategyArg : Type :=
| Tag (s : string)
| Member (s : Strategy).

Record RatingQuestionUnification : Type := {
  rating_question : RatingQuestion;
  rating_strategy : RatingQuestionStrategy
}.

(** [RatingQuestionUnification(question=..., strategy=...)]: [question] is a
    [RatingQuestion], [strategy] a string or a [RatingQuestionStrategy]
    (by default ["mean"]), and [strategy_must_be_valid] turns a string into
    the member of that value. *)
Definition mk_RatingQuestionUnification (question : AllowedQuestionTypes)
    (strategy : Arg StrategyArg) : result RatingQuestionUnification :=
  let question :=
    match question with
    | IsRatingQuestion q => Ok q
    | _ => Raise ValidationError
    end in
  let strategy :=
    match strategy with
    | Omitted => Ok (Tag "mean")
    | Given (Tag s) => Ok (Tag s)
    | Given (Member (OfRating s)) => Ok (Member (OfRating s))
    | Given (Member _) => Raise ValidationError
    end in
  let strategy_must_be_valid (v : StrategyArg) :=
    match v with
    | Tag s =>
      match RatingQuestionStrategy_of s with
      | Some m => Ok m
      | None => Raise ValidationError
      end
    | Member (OfRating m) => Ok m
    | Member _ => Raise ValidationError
    end in
  match question, strategy ≫= strategy_must_be_valid with
  | Ok q, Ok s => Ok {| rating_question := q; rating_strategy := s |}
  | _, _ => Raise ValidationError
  end.

(** [Union[LabelQuestion, MultiLabelQuestion]] *)
Inductive LabelOrMultiLabel : Type :=
| Single (q : LabelQuestion)
| Multi (q : MultiLabelQuestion).

Record LabelQuestionUnification : Type := {
  label_question : LabelOrMultiLabel;
  label_strategy : Strategy
}.

(** [strategy_must_be_valid_and_align_with_question], on the validated
    fields. *)
Definition strategy_must_be_valid_and_align_with_question
    (question : LabelOrMultiLabel) (strategy : StrategyArg) : result Strategy :=
  match question with
  | Single _ =>
    match strategy with
    | Tag s =>
      match LabelQuestionStrategy_of s with
      | Some m => Ok (OfLabel m)
      | None => Raise ValidationError
      end
    | Member (OfMultiLabel _) => Raise ValidationError
    | Member m => Ok m
    end
  | Multi _ =>
    match strategy with
    | Tag s =>
      match MultiLabelQuestionStrategy_of s with
      | Some m => Ok (OfMultiLabel m)
      | None => Raise ValidationError
      end
    | Member (OfLabel _) => Raise ValidationError
    | Member m => Ok m
    end
  end.

(** [LabelQuestionUnification(question=..., strategy=...)].  The field
    [question: Union[LabelQuestion, MultiLabelQuestion]] tries [LabelQuestion]
    first: a label question is taken as it is, and a multi-label question,
    which has the fields of a label question, is rebuilt as one
    ([LabelQuestion_validate]); [MultiLabelQuestion] takes it only when that
    fails.  A text or rating question has other fields and belongs to
    neither.  [strategy] is a string (by default ["majority"]) or a member of
    the two label enumerations.  The root validator reads
    [values["question"]], which is missing when the question was refused. *)
Definition mk_LabelQuestionUnification (question : AllowedQuestionTypes)
    (strategy : Arg StrategyArg) : result LabelQuestionUnification :=
  let question :=
    match question with
    | IsLabelQuestion q => Ok (Single q)
    | IsMultiLabelQuestion q =>
      match LabelQuestion_validate q with
      | Ok q' => Ok (Single q')
      | Raise _ => Ok (Multi q)
      end
    | _ => Raise KeyError
    end in
  let strategy :=
    match strategy with
    | Omitted => Ok (Tag "majority")
    | Given (Tag s) => Ok (Tag s)
    | Given (Member (OfRating _)) => Raise ValidationError
    | Given (Member m) => Ok (Member m)
    end in
  q ← question;
  match strategy with
  | Ok s =>
    s' ← strategy_must_be_valid_and_align_with_question q s;
    Ok {| label_question := q; label_strategy := s' |}
  | Raise e => Raise e
  end.

(** [Union[RatingQuestionUnification, LabelQuestionUnification]] *)
Inductive Unification : Type :=
| RatingUnification (u : RatingQuestionUnification)
| LabelUnification (u : LabelQuestionUnification).

Record TrainingDataForTextClassification : Type := {
  text : TextField;
  label : Unification
}.

(** [self.label.strategy] and [self.label.question] *)
Definition Unification_strategy (u : Unification) : Strategy :=
  match u with
  | RatingUnification u => OfRating (rating_strategy u)
  | LabelUnification u => label_strategy u
  end.

Definition Unification_question (u : Unification) : AllowedQuestionTypes :=
  match u with
  | RatingUnification u => IsRatingQuestion (rating_question u)
  | LabelUnification u =>
    match label_question u with
    | Single q => IsLabelQuestion q
    | Multi q => IsMultiLabelQuestion q
    end
  end.

(** A call [f(k1=..., k2=...)] of a method [def f(self, p1, p2)]: the keywords
    have to name the parameters; a keyword that names none, or a parameter
    left without argument, is a [TypeError]. *)
Definition call_with_keywords (parameters keywords : list string) : result () :=
  if decide (keywords ⊆ parameters ∧ parameters ⊆ keywords)
  then Ok ()
  else Raise TypeError.

Section Unify.
Context {G : Type}.
Variable randbelow : G → nat → nat * G.

(** [strategy.unify_responses(records, field)], the method of the class of
    the member. *)
Definition Strategy_unify_responses (strategy : Strategy)
    (records : list FeedbackRecord) (field : FieldRef) (g : G) : Outcome G :=
  match strategy with
  | OfRating s => RatingQuestionStrategy_unify_responses randbelow s records field g
  | OfLabel s =>
    unify_responses (H := LabelQuestionStrategy_mixin randbelow) s records field g
  | OfMultiLabel s =>
    unify_responses (H := MultiLabelQuestionStrategy_mixin) s records field g
  end.

(** [TrainingDataForTextClassification.unify_responses]:
    [self.label.strategy.unify_responses(responses=responses,
    field=self.label.question)], a call by keywords of the method
    [unify_responses(self, records, field)]; nothing is returned. *)
Definition TrainingDataForTextClassification_unify_responses
    (self : TrainingDataForTextClassification)
    (responses : list FeedbackRecord) (g : G) : Outcome G :=
  match call_with_keywords ["records"; "field"] ["responses"; "field"] with
  | Raise e =>
    {| records_after := responses; returned := Raise e; generator_after := g |}
  | Ok _ =>
    let o := Strategy_unify_responses (Unification_strategy (label self))
               responses (FieldQuestion (Unification_question (label self))) g in
    {| records_after := records_after o;
       returned := (_ ← returned o; Ok ReturnedNone);
       generator_after := generator_after o |}
  end.

End Unify.

(** ** Construction of a record *)

(** The [responses] argument of a record: nothing, one response, or a list
    of responses. *)
Inductive ResponsesArg : Type :=
| NoResponses
| OneResponse (r : ResponseSchema)
| ResponseList (l : list ResponseSchema).

(** [FeedbackRecord.responses_must_be_a_list] *)
Definition responses_must_be_a_list (v : ResponsesArg) : list ResponseSchema :=
  match v with
  | NoResponses => []
  | ResponseList [] => []
  | OneResponse r => [r]
  | ResponseList l => l
  end.

(** [FeedbackRecord(fields=..., responses=..., external_id=...)]: the
    unified responses are left at their default. *)
Definition mk_FeedbackRecord (fields : gmap string string) (responses : ResponsesArg)
    (external_id : option string) : FeedbackRecord :=
  {| fields := fields;
     responses := responses_must_be_a_list responses;
     external_id := external_id;
     unified_responses := None |}.

(** ** Metrics of the server ([rubrix.server.tasks.commons.metrics.model.base]) *)

Record BaseMetric : Type := {
  metric_id : string;
  metric_name : string;
  metric_description : option string
}.

(** [BaseTaskMetrics.find_metric], on the list [cls.metrics]: the first
    metric of that id, and [None] when the loop ends without one. *)
Fixpoint find_metric (metrics : list BaseMetric) (id : string) : option BaseMetric :=
  match metrics with
  | [] => None
  | metric :: rest =>
    if decide (metric_id metric = id) then Some metric else find_metric rest id
  end.

(** [NestedPathElasticsearchMetric.compound_nested_field]:
    [f"{self.nested_path}.{inner_field}"] *)
Definition compound_nested_field (nested_path inner_field : string) : string :=
  (nested_path ++ "." ++ inner_field)%string.

Section Aggregations.
(** The aggregations of [rubrix.server.commons.es_helpers], the scripts and the
    floats are taken as they come: [aggregations.terms_aggregation],
    [aggregations.histogram_aggregation], and the truth value of a float
    (false for zero only). *)
Context {Aggregation Script Float : Type}.
Variable terms_aggregation :
  option string → option Script → option Z → option string → Aggregation.
Variable histogram_aggregation : string → option Script → Float → Aggregation.
Variable float_bool : Float → bool.

Record TermsAggregation : Type := {
  TermsAggregation_base :> BaseMetric;
  terms_field : option string;
  terms_script : option Script;
  fixed_size : option Z;
  missing : option string
}.

(** [TermsAggregation.aggregation_request]: [if self.fixed_size:] holds for
    an integer other than zero. *)
Definition TermsAggregation_aggregation_request (self : TermsAggregation)
    (size : option Z) : gmap string Aggregation :=
  let size :=
    match fixed_size self with
    | Some n => if decide (n = 0) then size else Some n
    | None => size
    end in
  {[metric_id self :=
      terms_aggregation (terms_field self) (terms_script self) size (missing self)]}.

Record HistogramAggregation : Type := {
  HistogramAggregation_base :> BaseMetric;
  histogram_field : string;
  histogram_script : option Script;
  fixed_interval : option Float
}.

(** [HistogramAggregation.aggregation_request] *)
Definition HistogramAggregation_aggregation_request (self : HistogramAggregation)
    (interval : Float) : gmap string Aggregation :=
  let interval :=
    match fixed_interval self with
    | Some x => if float_bool x then x else interval
    | None => interval
    end in
  {[metric_id self :=
      histogram_aggregation (histogram_field self) (histogram_script self) interval]}.

End Aggregations.

(** * Notions used in the statements *)

(** ** Tags and counters *)

(** The tags that some strategy carries. *)
Definition is_tag (tag : string) : Prop :=
  ∃ s, validate_strategy tag = Ok s ∧ strategy_value s = tag.

(** The counter after [counter.update([k])] for each [k] of a list in turn. *)
Definition tally (ks : list Key) (c : Counter) : Counter :=
  foldl (λ c k, counter_update k c) c ks.

(** How often a value occurs in a list. *)
Definition occurrences `{EqDecision A} (x : A) (l : list A) : nat :=
  length (filter (x =.) l).

(** A counter built by updates: no key twice, no count of zero. *)
Definition counter_wf (c : Counter) : Prop :=
  NoDup c.*1 ∧ Forall (λ kn, 0 < kn.2)%nat c.

#[global] Instance KStr_inj : Inj (=) (=) KStr.
Proof. by intros ?? [=]. Qed.

Definition value_of_key (k : Key) : Value :=
  match k with
  | KStr s => VStr s
  | KInt n => VInt n
  end.

(** ** Answers of the submitted responses *)

(** The submitted responses of a record: those of its responses that have
    the status [submitted], in their order. *)
Definition submitted_of (rec : FeedbackRecord) : list ResponseSchema :=
  filter (λ resp, status resp = submitted) (responses rec).

(** The labels a response chooses for a question. *)
Definition chosen_labels (field : string) (resp : ResponseSchema) : list string :=
  match values resp !! field with
  | Some (VList l) => l
  | Some (VStr s) => [s]
  | _ => []
  end.

(** The response answers the question with labels. *)
Definition answers_labels (field : string) (resp : ResponseSchema) : Prop :=
  match values resp !! field with
  | Some (VList _) | Some (VStr _) => True
  | _ => False
  end.

#[global] Instance answers_labels_dec field resp : Decision (answers_labels field resp).
Proof. unfold answers_labels. destruct (values resp !! field) as [[]|]; apply _. Defined.

(** How often a label occurs in the values of the submitted responses of a
    record: a label that one response lists twice counts twice. *)
Definition label_frequency (field : string) (rec : FeedbackRecord) (l : string) : nat :=
  occurrences l (submitted_of rec ≫= chosen_labels field).

(** How many submitted responses of a record choose a label. *)
Definition responses_choosing (field : string) (rec : FeedbackRecord) (l : string)
  : nat :=
  length (filter (λ resp, l ∈ chosen_labels field resp) (submitted_of rec)).

(** The vote of a response on a question: its value, when it is a string or
    an integer. *)
Definition vote (field : string) (resp : ResponseSchema) : list Key :=
  match values resp !! field with
  | Some (VStr s) => [KStr s]
  | Some (VInt n) => [KInt n]
  | _ => []
  end.

(** The response answers the question with one string or integer. *)
Definition answers_scalar (field : string) (resp : ResponseSchema) : Prop :=
  match values resp !! field with
  | Some (VStr _) | Some (VInt _) => True
  | _ => False
  end.

#[global] Instance answers_scalar_dec field resp : Decision (answers_scalar field resp).
Proof. unfold answers_scalar. destruct (values resp !! field) as [[]|]; apply _. Defined.

Definition votes (field : string) (rec : FeedbackRecord) : list Key :=
  submitted_of rec ≫= vote field.

(** How many submitted responses of a record give a value. *)
Definition frequency (field : string) (rec : FeedbackRecord) (k : Key) : nat :=
  occurrences k (votes field rec).

(** The value was submitted and no value was submitted more often. *)
Definition attains_max (field : string) (rec : FeedbackRecord) (k : Key) : Prop :=
  (0 < frequency field rec k)%nat ∧
  ∀ k', (frequency field rec k' ≤ frequency field rec k)%nat.

(** The rating of a response for a question, when it is an integer. *)
Definition rating (field : string) (resp : ResponseSchema) : list Z :=
  match values resp !! field with
  | Some (VInt n) => [n]
  | _ => []
  end.

(** The response answers the question with an integer. *)
Definition answers_rating (field : string) (resp : ResponseSchema) : Prop :=
  match values resp !! field with
  | Some (VInt _) => True
  | _ => False
  end.

#[global] Instance answers_rating_dec field resp : Decision (answers_rating field resp).
Proof. unfold answers_rating. destruct (values resp !! field) as [[]|]; apply _. Defined.

(** The ratings of the submitted responses of a record. *)
Definition ratings (field : string) (rec : FeedbackRecord) : list Z :=
  submitted_of rec ≫= rating field.

(** ** Records after a strategy *)

Section MajorityOf.
Context {G : Type} (randbelow : G → nat → nat * G).


End MajorityOf.

(** The call raised, or returned [v]. *)
Definition raised_or_returned (r : result Returned) (v : Returned) : Prop :=
  match r with
  | Ok v' => v' = v
  | Raise _ => True
  end.

(** [rec.unified_responses[name]], when there is such an entry. *)
Definition unified_response (name : string) (rec : FeedbackRecord) : option Unified :=
  unified_responses rec ≫= (.!! name).

(** The record [rec'] is [rec] with the one-entry dictionary [{name: v}] as
    its unified responses. *)
Definition rewritten (name : string) (rec rec' : FeedbackRecord) : Prop :=
  ∃ v, rec' = set_unified_responses rec {[name := v]}.

(** The record [rec'] has the fields, the responses and the external id of
    [rec], and a dictionary with the one entry of [name] as its unified
    responses. *)
Definition written (name : string) (rec rec' : FeedbackRecord) : Prop :=
  fields rec' = fields rec ∧
  responses rec' = responses rec ∧
  external_id rec' = external_id rec ∧
  ∃ v, unified_responses rec' = Some {[name := v]}.

(** The name a [field] argument stands for. *)
Definition field_name_of (field : FieldRef) : option string :=
  match field with
  | FieldName s => Some s
  | FieldQuestion (IsTextQuestion q) => Some (name q)
  | FieldQuestion (IsRatingQuestion q) => Some (name q)
  | FieldQuestion (IsLabelQuestion q) => Some (name q)
  | FieldQuestion (IsMultiLabelQuestion q) => Some (name q)
  | FieldOther => None
  end.

(** ** Configurations of questions *)

(** What distinguishes the questions that have something to validate. *)
Inductive QuestionConfig : Type :=
| RatingConfig (values : list Z)
| LabelConfig (labels : Labels) (visible_labels : Arg (option Z))
| MultiLabelConfig (labels : Labels) (visible_labels : Arg (option Z)).

(** The construction of the question of a configuration. *)
Definition construct (name : string) (title description : option string)
    (required : bool) (cfg : QuestionConfig) : result AllowedQuestionTypes :=
  match cfg with
  | RatingConfig values =>
    q ← mk_RatingQuestion name title description required values;
    Ok (IsRatingQuestion q)
  | LabelConfig labels visible_labels =>
    q ← mk_LabelQuestion name title description required labels visible_labels;
    Ok (IsLabelQuestion q)
  | MultiLabelConfig labels visible_labels =>
    q ← mk_MultiLabelQuestion name title description required labels visible_labels;
    Ok (IsMultiLabelQuestion q)
  end.

(** The questions that the constructors return. *)
Definition constructed (question : AllowedQuestionTypes) : Prop :=
  (∃ name title description required use_markdown,
     question =
     IsTextQuestion (mk_TextQuestion name title description required use_markdown)) ∨
  (∃ name title description required cfg,
     construct name title description required cfg = Ok question).

(** [visible_labels] is an integer below three. *)
Definition visible_labels_too_small (visible_labels : Arg (option Z)) : Prop :=
  match visible_labels with
  | Given (Some n) => (n < 3)%Z
  | _ => False
  end.

(** The invalid configurations in the words of the specification: fewer than
    two rating values or a duplicate among them; fewer than two labels, or,
    for a dictionary, fewer than two distinct display texts; an integer
    [visible_labels] below three. *)
Definition stated_invalid (cfg : QuestionConfig) : Prop :=
  match cfg with
  | RatingConfig values => (length values < 2)%nat ∨ ¬ NoDup values
  | LabelConfig labels visible_labels
  | MultiLabelConfig labels visible_labels =>
    match labels with
    | LabelList l => (length l < 2)%nat
    | LabelDict d => (length d < 2)%nat ∨ (length (remove_dups d.*2) < 2)%nat
    end ∨ visible_labels_too_small visible_labels
  end.

(** The invalid configurations of the code: the labels of a list have to be
    pairwise distinct, and so have the display texts of a dictionary. *)
Definition invalid (cfg : QuestionConfig) : Prop :=
  match cfg with
  | RatingConfig values => (length values < 2)%nat ∨ ¬ NoDup values
  | LabelConfig labels visible_labels
  | MultiLabelConfig labels visible_labels =>
    match labels with
    | LabelList l => (length l < 2)%nat ∨ ¬ NoDup l
    | LabelDict d => (length d < 2)%nat ∨ ¬ NoDup d.*2
    end ∨ visible_labels_too_small visible_labels
  end.

(** A list of labels with a label that comes twice and with two characters
    in every label, which is what [dict] takes as keys and values. *)
Definition repeats_two_character_labels (cfg : QuestionConfig) : Prop :=
  match cfg with
  | LabelConfig (LabelList l) _ | MultiLabelConfig (LabelList l) _ =>
    ¬ NoDup l ∧ Forall (λ label, String.length label = 2%nat) l
  | _ => False
  end.

(** The display texts of the labels of a question. *)
Definition display_texts (labels : Labels) : list string :=
  match labels with
  | LabelList l => l
  | LabelDict d => d.*2
  end.

(** ** Examples *)

(** A response that answers one question, and a record with no more than its
    responses. *)
Definition response (st : Status) (field : string) (v : Value) : ResponseSchema :=
  {| user_id := None; values := {[field := v]}; status := st |}.

Definition record (l : list ResponseSchema) : FeedbackRecord :=
  {| fields := ∅; responses := l; external_id := None; unified_responses := None |}.

(** The multi-label example of the specification: [["x","y"], ["x"], ["y"]]. *)
Definition xy_record : FeedbackRecord :=
  record [response submitted "q" (VList ["x"; "y"]);
          response submitted "q" (VList ["x"]);
          response submitted "q" (VList ["y"])].

(** Single-label responses [["a","b","a"]] and a tie [["a","b"]]. *)
Definition aba_record : FeedbackRecord :=
  record [response submitted "q" (VStr "a");
          response submitted "q" (VStr "b");
          response submitted "q" (VStr "a")].


(** The ratings of the specification: 4, 5 and 5 submitted, 1 discarded. *)
Definition ratings_record : FeedbackRecord :=
  record [response submitted "q" (VInt 4);
          response submitted "q" (VInt 5);
          response discarded "q" (VInt 1);
          response submitted "q" (VInt 5)].

(** The multi-label example with two discarded responses that choose "z"
    and "y": counted, they would raise the threshold to three and leave no
    label accepted. *)
Definition xy_discarded_record : FeedbackRecord :=
  record [response submitted "q" (VList ["x"; "y"]);
          response discarded "q" (VList ["z"; "y"]);
          response submitted "q" (VList ["x"]);
          response discarded "q" (VList ["z"]);
          response submitted "q" (VList ["y"])].

(** A response that lists one label twice. *)
Definition xx_record : FeedbackRecord :=
  record [response submitted "q" (VList ["x"; "x"]);
          response submitted "q" (VList ["y"]);
          response submitted "q" (VList ["z"])].

(** The single-label example with three discarded responses for "b", which
    would win if they were counted, on a record that already holds a
    unified response for another question. *)
Definition aba_discarded_record : FeedbackRecord :=
  {| fields := ∅;
     responses := [response submitted "q" (VStr "a");
                   response discarded "q" (VStr "b");
                   response submitted "q" (VStr "b");
                   response discarded "q" (VStr "b");
                   response submitted "q" (VStr "a");
                   response discarded "q" (VStr "b")];
     external_id := None;
     unified_responses :=
       Some {["other" := One {| value := VInt 3; strategy := OfRating MAX |}]} |}.

(** A record without responses at all. *)
Definition unanswered_record : FeedbackRecord := record [].

(** A record that already holds a unified response for another question. *)
Definition unified_record : FeedbackRecord :=
  set_unified_responses ratings_record
    {["other" := One {| value := VInt 3; strategy := OfRating MAX |}]}.

(** A generator for the examples: a counter, reduced modulo the bound. *)
Definition counting_randbelow (g n : nat) : nat * nat := ((g `mod` n)%nat, S g).

(** ** The strategies in one form *)

(** The name under which a strategy takes a [field] argument: a string is
    taken by every strategy, a rating question by the rating strategies, a
    label or multi-label question by the strategies of both label families;
    anything else is refused. *)
Definition accepted_name (s : Strategy) (field : FieldRef) : option string :=
  match field, s with
  | FieldName n, _ => Some n
  | FieldQuestion (IsRatingQuestion q), OfRating _ => Some (name q)
  | FieldQuestion (IsLabelQuestion q), (OfLabel _ | OfMultiLabel _) => Some (name q)
  | FieldQuestion (IsMultiLabelQuestion q), (OfLabel _ | OfMultiLabel _) =>
    Some (name q)
  | _, _ => None
  end.

(** The strategies that draw no random number. *)
Definition deterministic (s : Strategy) : Prop :=
  s ≠ OfRating MAJORITY ∧ s ≠ OfLabel LABEL_MAJORITY.

Section Plans.
Context {G : Type} (randbelow : G → nat → nat * G).

(** The body of the loop a strategy runs for a name; the weighted majorities
    have none. *)
Definition strategy_body (s : Strategy) (name : string)
  : option (FeedbackRecord → G → result FeedbackRecord * G) :=
  match s with
  | OfRating MAJORITY =>
    Some (majority_record randbelow (rating_value MAJORITY) name)
  | OfRating r => Some (pure_body (aggregate_record r name))
  | OfLabel LABEL_MAJORITY =>
    Some (majority_record randbelow (label_value LABEL_MAJORITY) name)
  | OfLabel LABEL_DISAGREEMENT =>
    Some (pure_body (disagreement_record (label_value LABEL_DISAGREEMENT) name))
  | OfMultiLabel MULTI_MAJORITY =>
    Some (pure_body
            (multi_label_majority_record (multi_label_value MULTI_MAJORITY) name))
  | OfMultiLabel MULTI_DISAGREEMENT =>
    Some (pure_body
            (disagreement_record (multi_label_value MULTI_DISAGREEMENT) name))
  | OfLabel LABEL_MAJORITY_WEIGHTED | OfMultiLabel MULTI_MAJORITY_WEIGHTED => None
  end.

(** What a strategy hands back after its loop. *)
Definition strategy_return (s : Strategy) (records : list FeedbackRecord)
  : result Returned :=
  match s with
  | OfRating _ | OfMultiLabel MULTI_MAJORITY => Ok TheRecords
  | OfLabel LABEL_MAJORITY => loop_variable records
  | OfLabel LABEL_DISAGREEMENT | OfMultiLabel MULTI_DISAGREEMENT => Ok (NewList [])
  | OfLabel LABEL_MAJORITY_WEIGHTED | OfMultiLabel MULTI_MAJORITY_WEIGHTED =>
    Raise NotImplementedError
  end.

End Plans.

(** The record [rec'] is [rec] up to its unified responses. *)
Definition same_but_unified (rec rec' : FeedbackRecord) : Prop :=
  fields rec' = fields rec ∧
  responses rec' = responses rec ∧
  external_id rec' = external_id rec.

(** Two results of a loop body on two records: the same exception, or the
    same dictionary assigned to each of the records; and the same generator
    left. *)
Definition writes_alike {G : Type} (rec1 rec2 : FeedbackRecord)
    (o1 o2 : result FeedbackRecord * G) : Prop :=
  o1.2 = o2.2 ∧
  match o1.1, o2.1 with
  | Ok r1, Ok r2 =>
    ∃ d, r1 = set_unified_responses rec1 d ∧ r2 = set_unified_responses rec2 d
  | Raise e1, Raise e2 => e1 = e2
  | _, _ => False
  end.

(** A loop body that reads the submitted responses of a record and nothing
    else of it. *)
Definition reads_submitted_only {G : Type}
    (body : FeedbackRecord → G → result FeedbackRecord * G) : Prop :=
  ∀ rec1 rec2 g,
    submitted_responses rec1 = submitted_responses rec2 →
    writes_alike rec1 rec2 (body rec1 g) (body rec2 g).

(** The value of a response for a question. *)
Definition answer (field : string) (resp : ResponseSchema) : option Value :=
  values resp !! field.

(** The response has a value for the question. *)
Definition answers (field : string) (resp : ResponseSchema) : Prop :=
  is_Some (values resp !! field).

(** The strategies that have a reduction: all but the weighted majorities. *)
Definition implemented (s : Strategy) : Prop :=
  s ≠ OfLabel LABEL_MAJORITY_WEIGHTED ∧ s ≠ OfMultiLabel MULTI_MAJORITY_WEIGHTED.

(** The unification values that [disagreement] makes of the submitted
    responses of a record: one for each response that has a value for the
    question, in the order of the responses. *)
Definition disagreement_of (field : string) (rec : FeedbackRecord)
  : list UnificationValueSchema :=
  (λ v, {| value := v; strategy := OfLabel LABEL_DISAGREEMENT |})
    <$> omap (answer field) (submitted_of rec).

(** The binding [u] is what one of the two constructors makes of a question
    and a strategy argument. *)
Definition binds (question : AllowedQuestionTypes) (strategy : Arg StrategyArg)
    (u : Unification) : Prop :=
  (∃ b, mk_RatingQuestionUnification question strategy = Ok b ∧
        u = RatingUnification b) ∨
  (∃ b, mk_LabelQuestionUnification question strategy = Ok b ∧
        u = LabelUnification b).

(** The option dictionaries of the labels of a question. *)
Definition label_options (labels : Labels) : list (list (string * Value)) :=
  match labels with
  | LabelList l => (λ label, [("value", VStr label); ("text", VStr label)]) <$> l
  | LabelDict d =>
    (λ kv : string * string, [("value", VStr kv.1); ("text", VStr kv.2)]) <$> d
  end.

(** ** Examples of questions *)

(** [MultiLabelQuestion(name="q", labels=["yes", "no"])], as the constructor
    returns it. *)
Definition yes_no_multi_label_question : MultiLabelQuestion :=
  {| MultiLabelQuestion_base :=
       {| _LabelQuestion_base :=
            {| name := "q";
               title := NameCapitalized "q";
               description := None;
               required := true;
               settings :=
                 <["visible_options" := SettingInt 20]>
                   (<["options" :=
                        SettingOptions
                          [[("value", VStr "yes"); ("text", VStr "yes")];
                           [("value", VStr "no"); ("text", VStr "no")]]]>
                      {["type" := SettingStr "multi_label_selection"]}) |};
          labels := LabelList ["yes"; "no"];
          visible_labels := Some 20 |} |}.

(** * Properties *)

(** ** Results and loops *)

(** The list the strategies build of a record is the list of its submitted
    responses. *)
Lemma submitted_responses_of (rec : FeedbackRecord) :
  submitted_responses rec = submitted_of rec.
Proof. reflexivity. Qed.

(** A record with a dictionary assigned to its unified responses holds that
    dictionary, and is the record it was in everything else. *)
Lemma set_unified_responses_written (name : string) (v : Unified)
    (rec : FeedbackRecord) :
  written name rec (set_unified_responses rec {[name := v]}).
Proof. unfold written. simpl. split_and!; [done..|]. by exists v. Qed.

Lemma bind_Ok {A B : Type} (r : result A) (k : A → result B) (b : B) :
  r ≫= k = Ok b ↔ ∃ a, r = Ok a ∧ k a = Ok b.
Proof.
  destruct r as [a|e]; simpl; split.
  - intros Hk. by exists a.
  - by intros (a' & [= <-] & Hk).
  - done.
  - by intros (a' & [=] & _).
Qed.


(** The same for a body that draws no random number: the generator is left
    as it was. *)
Lemma for_each_record_pure_total {G : Type}
    (body : FeedbackRecord → result FeedbackRecord)
    (P : FeedbackRecord → FeedbackRecord → Prop)
    (records : list FeedbackRecord) (g : G) :
  (∀ rec, rec ∈ records → ∃ rec', body rec = Ok rec' ∧ P rec rec') →
  ∃ records',
    for_each_record (pure_body body) records g = (records', None, g) ∧
    Forall2 P records records'.
Proof.
  unfold pure_body.
  induction records as [|rec rest IH]; intros Hbody; simpl.
  - exists []. split; [done|constructor].
  - destruct (Hbody rec) as (rec' & Hrec & HP); [by left|].
    rewrite Hrec.
    destruct IH as (rest' & Hrest & Hall).
    { intros r Hr. apply Hbody. by right. }
    rewrite Hrest. exists (rec' :: rest'). split; [done|].
    by constructor.
Qed.

(** When the loop returns, every record went through the body. *)
Lemma for_each_record_returns {G : Type}
    (body : FeedbackRecord → G → result FeedbackRecord * G)
    (records records' : list FeedbackRecord) (g g' : G) :
  for_each_record body records g = (records', None, g') →
  Forall2 (λ rec rec', ∃ g0 g1, body rec g0 = (Ok rec', g1)) records records'.
Proof.
  revert records' g. induction records as [|rec rest IH]; intros records' g; simpl.
  - intros [= <- _]. constructor.
  - destruct (body rec g) as [[rec'|e] g1] eqn:Hrec; [|done].
    destruct (for_each_record body rest g1) as [[rest' e] g''] eqn:Hrest.
    intros [= <- -> ->]. constructor; [by exists g, g1|by eapply IH].
Qed.

(** A record on which the body raises, whatever the generator, stops the
    loop: that record and the later ones are left as they were. *)
Lemma for_each_record_stops {G : Type}
    (body : FeedbackRecord → G → result FeedbackRecord * G)
    (pre post : list FeedbackRecord) (rec : FeedbackRecord) (g : G) :
  (∀ g0, ∃ e g1, body rec g0 = (Raise e, g1)) →
  ∃ pre' e g',
    for_each_record body (pre ++ rec :: post) g = (pre' ++ rec :: post, Some e, g') ∧
    length pre' = length pre.
Proof.
  intros Hrec. revert g. induction pre as [|r pre IH]; intros g; simpl.
  - destruct (Hrec g) as (e & g1 & ->). by exists [], e, g1.
  - destruct (body r g) as [[r'|e] g1] eqn:Hr.
    + destruct (IH g1) as (pre' & e & g' & -> & Hlen).
      exists (r' :: pre'), e, g'. simpl. by rewrite Hlen.
    + by exists (r :: pre), e, g1.
Qed.

(** ** Tags *)

Lemma validate_strategy_multi_label (s : MultiLabelQuestionStrategy) :
  ∃ s', validate_strategy (multi_label_value s) = Ok s' ∧
        strategy_value s' = multi_label_value s.
Proof. destruct s; eexists; split; reflexivity. Qed.

(** ** Counters *)

Lemma counter_get_update (k k' : Key) (c : Counter) :
  counter_get k (counter_update k' c) =
  if decide (k = k') then S (counter_get k c) else counter_get k c.
Proof.
  induction c as [|[k'' n] c IH]; simpl.
  - by repeat case_decide.
  - destruct (decide (k' = k'')) as [->|Hne]; simpl.
    + destruct (decide (k = k'')); done.
    + rewrite IH. destruct (decide (k = k'')) as [->|?]; [|done].
      by rewrite decide_False.
Qed.

Lemma counter_keys_update (k : Key) (c : Counter) :
  (counter_update k c).*1 = if decide (k ∈ c.*1) then c.*1 else c.*1 ++ [k].
Proof.
  induction c as [|[k' n] c IH]; csimpl.
  - done.
  - destruct (decide (k = k')) as [->|Hne]; csimpl.
    + rewrite decide_True; [done|left].
    + rewrite IH. destruct (decide (k ∈ c.*1)) as [Hin|Hnin].
      * rewrite decide_True; [done|by right].
      * rewrite decide_False; [done|]. by intros [?|?]%elem_of_cons.
Qed.

Lemma counter_wf_nil : counter_wf [].
Proof. split; constructor. Qed.

Lemma counter_wf_update (k : Key) (c : Counter) :
  counter_wf c → counter_wf (counter_update k c).
Proof.
  intros [Hnd Hpos]. split.
  - rewrite counter_keys_update. case_decide as Hin; [done|].
    apply NoDup_app. split_and!; [done| |apply NoDup_singleton].
    intros x Hx ->%list_elem_of_singleton. done.
  - clear Hnd. induction Hpos as [|[k' n] c Hn Hc IH]; csimpl.
    + repeat constructor.
    + case_decide; constructor; csimpl in *; try done; lia.
Qed.

Lemma counter_wf_tally (ks : list Key) (c : Counter) :
  counter_wf c → counter_wf (tally ks c).
Proof.
  revert c. induction ks as [|k ks IH]; intros c Hc; csimpl; [done|].
  by apply IH, counter_wf_update.
Qed.

Lemma counter_get_tally (k : Key) (ks : list Key) (c : Counter) :
  counter_get k (tally ks c) = (counter_get k c + occurrences k ks)%nat.
Proof.
  unfold occurrences. revert c. induction ks as [|k' ks IH]; intros c; csimpl.
  - lia.
  - rewrite IH, counter_get_update, filter_cons.
    repeat case_decide; csimpl; try done; lia.
Qed.

Lemma counter_get_notin (k : Key) (c : Counter) :
  k ∉ c.*1 → counter_get k c = 0%nat.
Proof.
  induction c as [|[k' n] c IH]; csimpl; [done|].
  intros Hnin. case_decide as Hk.
  - subst. exfalso. apply Hnin. left.
  - apply IH. intros Hin. apply Hnin. by right.
Qed.

Lemma counter_get_elem (k : Key) (n : nat) (c : Counter) :
  NoDup c.*1 → (k, n) ∈ c → counter_get k c = n.
Proof.
  induction c as [|[k' n'] c IH]; csimpl.
  - by intros _ ?%elem_of_nil.
  - intros [Hnin Hnd]%NoDup_cons [[= -> ->]|Hin]%elem_of_cons.
    + by rewrite decide_True.
    + rewrite decide_False; [by apply IH|].
      intros ->. apply Hnin. apply list_elem_of_fmap. by exists (k', n).
Qed.

(** In a counter built by updates, the items are the keys of positive count
    with their counts. *)
Lemma counter_items (k : Key) (n : nat) (c : Counter) :
  counter_wf c → (k, n) ∈ c ↔ (0 < n)%nat ∧ counter_get k c = n.
Proof.
  intros [Hnd Hpos]. split.
  - intros Hin. split; [|by apply counter_get_elem].
    rewrite Forall_forall in Hpos. by apply (Hpos (k, n)).
  - intros [Hn Hget]. destruct (decide (k ∈ c.*1)) as [Hin|Hnin].
    + apply list_elem_of_fmap in Hin as ([k' n'] & -> & Hin). csimpl in *.
      by rewrite <- Hget, (counter_get_elem _ _ _ Hnd Hin).
    + rewrite counter_get_notin in Hget by done. lia.
Qed.

Lemma NoDup_counter_filter (P : Key * nat → Prop) `{∀ kn, Decision (P kn)}
    (c : Counter) :
  NoDup c.*1 → NoDup (filter P c).*1.
Proof.
  induction c as [|[k n] c IH]; [intros; constructor|].
  intros Hc. change (NoDup (k :: c.*1)) in Hc.
  apply NoDup_cons in Hc as [Hnin Hnd]. rewrite filter_cons.
  case_decide; csimpl; [|by apply IH].
  apply NoDup_cons. split; [|by apply IH].
  intros ([k' n'] & Hk & [_ Hin]%list_elem_of_filter)%list_elem_of_fmap.
  csimpl in Hk. subst k'.
  apply Hnin. apply list_elem_of_fmap. by exists (k, n').
Qed.

Lemma occurrences_pos `{EqDecision A} (x : A) (l : list A) :
  (0 < occurrences x l)%nat ↔ x ∈ l.
Proof.
  unfold occurrences. induction l as [|y l IH].
  - split; [simpl; lia|by intros ?%elem_of_nil].
  - rewrite filter_cons, elem_of_cons. case_decide; simpl.
    + split; [by left|lia].
    + rewrite IH. split; [by right|by intros [?|?]].
Qed.

Lemma occurrences_fmap `{EqDecision A, EqDecision B} (f : A → B) `{!Inj (=) (=) f}
    (x : A) (l : list A) :
  occurrences (f x) (f <$> l) = occurrences x l.
Proof.
  unfold occurrences. induction l as [|y l IH]; [done|].
  rewrite fmap_cons, !filter_cons.
  destruct (decide (x = y)) as [->|Hne].
  - rewrite decide_True by done. simpl. by rewrite IH.
  - rewrite decide_False; [done|]. by intros ?%(inj f).
Qed.

Lemma tally_app (ks ks' : list Key) (c : Counter) :
  tally (ks ++ ks') c = tally ks' (tally ks c).
Proof. apply foldl_app. Qed.

(** ** Multi-label majority *)

Lemma count_labels_tally (field : string) (responses : list ResponseSchema)
    (c : Counter) :
  Forall (answers_labels field) responses →
  count_labels field responses c =
  Ok (tally (KStr <$> (responses ≫= chosen_labels field)) c).
Proof.
  intros Hall. revert c.
  induction Hall as [|resp rest Hresp _ IH]; intros c; [done|].
  cbn [count_labels]. unfold response_value, answers_labels, chosen_labels in *.
  rewrite bind_cons, fmap_app, tally_app.
  destruct (values resp !! field) as [[s|n|l]|]; try done; simpl; rewrite IH.
  - done.
  - do 2 f_equal. unfold tally. by rewrite foldl_fmap.
Qed.

Lemma multi_label_majority_record_spec (tag field : string) (rec : FeedbackRecord) :
  is_tag tag →
  Forall (answers_labels field) (submitted_of rec) →
  ∃ accepted u,
    multi_label_majority_record tag field rec =
      Ok (set_unified_responses rec {[field := One u]}) ∧
    value u = VList accepted ∧
    strategy_value (strategy u) = tag ∧
    NoDup accepted ∧
    ∀ l, l ∈ accepted ↔
         (length (submitted_of rec) / 2 + 1 ≤ label_frequency field rec l)%nat.
Proof.
  intros (s & Hs & Htag) Hall.
  unfold multi_label_majority_record, label_frequency.
  rewrite submitted_responses_of.
  rewrite (count_labels_tally _ _ _ Hall). simpl.
  set (labels := submitted_of rec ≫= chosen_labels field).
  set (c := tally (KStr <$> labels) []).
  set (bar := (length (submitted_of rec) / 2 + 1)%nat).
  assert (Hwf : counter_wf c) by apply counter_wf_tally, counter_wf_nil.
  assert (Hget : ∀ k, counter_get k c = occurrences k (KStr <$> labels)).
  { intros k. unfold c. by rewrite counter_get_tally. }
  set (ks := (filter (λ kn, bar ≤ kn.2)%nat c).*1).
  assert (Hks : ∀ k, k ∈ ks ↔ (bar ≤ occurrences k (KStr <$> labels))%nat).
  { intros k. unfold ks. rewrite list_elem_of_fmap. split.
    - intros ([k' n] & -> & [Hn Hin]%list_elem_of_filter). simpl in *.
      apply (counter_items _ _ _ Hwf) in Hin as [_ Hn'].
      by rewrite <- Hget, Hn'.
    - intros Hk. exists (k, counter_get k c). split; [done|].
      apply list_elem_of_filter. simpl. rewrite Hget. split; [done|].
      apply counter_items; [done|]. rewrite Hget. split; [|done].
      unfold bar in Hk. lia. }
  assert (Hstr : ∀ k, k ∈ ks → ∃ l, k = KStr l ∧ l ∈ labels).
  { intros k Hk%Hks.
    assert (Hin : k ∈ KStr <$> labels).
    { apply occurrences_pos. unfold bar in Hk. lia. }
    apply list_elem_of_fmap in Hin as (l & -> & Hl). by exists l. }
  unfold mk_UnificationValueSchema. rewrite Hs. simpl.
  eexists _, _. split; [reflexivity|]. cbn [value strategy].
  fold bar. fold ks. split_and!; [done|done| |].
  - apply NoDup_fmap_2_strong.
    + intros k k' (l & -> & _)%Hstr (l' & -> & _)%Hstr. simpl. by intros ->.
    + apply NoDup_counter_filter, Hwf.
  - intros l. rewrite list_elem_of_fmap. split.
    + intros (k & Hl & Hk). destruct (Hstr k Hk) as (l' & Hk' & _).
      rewrite Hk' in Hl, Hk. simpl in Hl. rewrite Hl.
      apply Hks in Hk. rewrite occurrences_fmap in Hk by apply _. exact Hk.
    + intros Hl. exists (KStr l). split; [done|].
      apply Hks. rewrite occurrences_fmap by apply _. exact Hl.
Qed.

(** When no response repeats a label, the frequency of a label is the number
    of submitted responses that choose it. *)
Lemma label_frequency_sets (field : string) (rec : FeedbackRecord) (l : string) :
  Forall (λ resp, NoDup (chosen_labels field resp)) (submitted_of rec) →
  label_frequency field rec l = responses_choosing field rec l.
Proof.
  unfold label_frequency, responses_choosing, occurrences.
  induction 1 as [|resp rest Hnd _ IH]; [done|].
  rewrite bind_cons, filter_app, length_app, IH, filter_cons.
  assert (Hone : length (filter (l =.) (chosen_labels field resp)) =
                 if decide (l ∈ chosen_labels field resp) then 1%nat else 0%nat).
  { clear IH. induction Hnd as [|x xs Hx Hxs IHx]; [done|].
    rewrite filter_cons. destruct (decide (l = x)) as [->|Hne]; simpl.
    - rewrite IHx, decide_False, decide_True by (done || left). done.
    - rewrite IHx. case_decide as Hin.
      + rewrite decide_True; [done|by right].
      + rewrite decide_False; [done|]. by intros [?|?]%elem_of_cons. }
  rewrite Hone. case_decide; simpl; lia.
Qed.

(** C1 as stated fails: a response is not taken as a set.  Of three
    submitted responses, one lists "x" twice and no other chooses it: "x"
    is chosen by one response of three, below the threshold of two, and is
    accepted, because it is counted twice. *)
Lemma repeated_label_counterexample :
  let o := unify_responses (H := MultiLabelQuestionStrategy_mixin)
             MULTI_MAJORITY [xx_record] (FieldName "q") () in
  (length (submitted_of xx_record) / 2 + 1)%nat = 2%nat ∧
  responses_choosing "q" xx_record "x" = 1%nat ∧
  returned o = Ok TheRecords ∧
  unified_responses <$> records_after o =
    [Some {["q" := One {| value := VList ["x"]; strategy := OfRating MAJORITY |}]}].
Proof. split_and!; by vm_compute. Qed.

(** C1, amended. Multi-label majority: for every record, over its submitted
    responses only, a label enters the unified result if and only if the
    number of times it occurs in the values of the submitted responses is
    at least floor(N/2) + 1, with N the number of submitted responses; a
    label that one response lists twice is counted twice, and when no
    submitted response repeats a label the number is that of the submitted
    responses that choose the label.  Every label is judged on its own, so
    that none, one or several are accepted.  After the call the unified
    responses of the record hold, under the name of the question and under
    no other, one unification value that wraps the list of the accepted
    labels and carries the tag of the strategy; the call returns the list of
    records. *)
Theorem multi_label_majority_threshold {G : Type} (records : list FeedbackRecord)
    (field : string) (g : G) :
  Forall (λ rec, Forall (answers_labels field) (submitted_of rec)) records →
  let o := unify_responses (H := MultiLabelQuestionStrategy_mixin)
             MULTI_MAJORITY records (FieldName field) g in
  returned o = Ok TheRecords ∧
  Forall2
    (λ rec rec', ∃ accepted u,
       unified_responses rec' = Some {[field := One u]} ∧
       value u = VList accepted ∧
       strategy_value (strategy u) = multi_label_value MULTI_MAJORITY ∧
       NoDup accepted ∧
       (∀ l, l ∈ accepted ↔
             (length (submitted_of rec) / 2 + 1 ≤ label_frequency field rec l)%nat) ∧
       (Forall (λ resp, NoDup (chosen_labels field resp)) (submitted_of rec) →
        ∀ l, l ∈ accepted ↔
             (length (submitted_of rec) / 2 + 1 ≤ responses_choosing field rec l)%nat))
    records (records_after o).
Proof.
  intros Hall. cbn zeta.
  unfold unify_responses. cbn [self_value the_MAJORITY _majority
    MultiLabelQuestionStrategy_mixin].
  rewrite decide_True by done. unfold MultiLabelQuestionStrategy__majority.
  match goal with
  | |- _ ∧ Forall2 ?P _ _ =>
    destruct (for_each_record_pure_total (G := G)
                (multi_label_majority_record (multi_label_value MULTI_MAJORITY) field)
                P records g)
      as (records' & -> & Hrecords); [|by split]
  end.
  intros rec Hrec. rewrite Forall_forall in Hall.
  destruct (multi_label_majority_record_spec
              (multi_label_value MULTI_MAJORITY) field rec)
    as (accepted & u & -> & Hu & Hs & Hnd & Hacc);
    [apply validate_strategy_multi_label|by apply Hall|].
  eexists. split; [done|]. exists accepted, u. split_and!; [done..|].
  intros Hsets l. by rewrite <- label_frequency_sets.
Qed.

Lemma multi_label_majority_threshold_witness :
  let o := unify_responses (H := MultiLabelQuestionStrategy_mixin)
             MULTI_MAJORITY [xy_discarded_record; xx_record] (FieldName "q") () in
  returned o = Ok TheRecords ∧
  Forall2
    (λ rec rec', ∃ accepted u,
       unified_responses rec' = Some {["q" := One u]} ∧
       value u = VList accepted ∧
       strategy_value (strategy u) = multi_label_value MULTI_MAJORITY ∧
       NoDup accepted ∧
       (∀ l, l ∈ accepted ↔
             (length (submitted_of rec) / 2 + 1 ≤ label_frequency "q" rec l)%nat) ∧
       (Forall (λ resp, NoDup (chosen_labels "q" resp)) (submitted_of rec) →
        ∀ l, l ∈ accepted ↔
             (length (submitted_of rec) / 2 + 1 ≤ responses_choosing "q" rec l)%nat))
    [xy_discarded_record; xx_record] (records_after o).
Proof.
  apply (multi_label_majority_threshold [xy_discarded_record; xx_record] "q" ()).
  repeat constructor.
Defined.

(** ** Rating and single-label majority *)

Lemma count_values_tally (field : string) (responses : list ResponseSchema)
    (c : Counter) :
  Forall (answers_scalar field) responses →
  count_values field responses c = Ok (tally (responses ≫= vote field) c).
Proof.
  intros Hall. revert c.
  induction Hall as [|resp rest Hresp _ IH]; intros c; [done|].
  cbn [count_values]. unfold response_value, answers_scalar, vote in *.
  rewrite bind_cons, tally_app.
  destruct (values resp !! field) as [[s|n|l]|]; try done; simpl; by rewrite IH.
Qed.

Lemma votes_nonempty (field : string) (rec : FeedbackRecord) :
  Forall (answers_scalar field) (submitted_of rec) →
  submitted_of rec ≠ [] → votes field rec ≠ [].
Proof.
  unfold votes, answers_scalar, vote.
  destruct (submitted_of rec) as [|resp rest]; [done|].
  intros [Hresp _]%Forall_cons _. rewrite bind_cons.
  by destruct (values resp !! field) as [[s|n|l]|].
Qed.

Lemma tally_nonempty (ks : list Key) (c : Counter) :
  ks ≠ [] → tally ks c ≠ [].
Proof.
  destruct ks as [|k ks]; [done|]. intros _ Hnil.
  assert (Hget : counter_get k (tally (k :: ks) c) = 0%nat) by by rewrite Hnil.
  rewrite counter_get_tally in Hget. unfold occurrences in Hget.
  rewrite filter_cons, decide_True in Hget by done. simpl in Hget. lia.
Qed.

(** The running maximum of the counts. *)
Lemma foldl_max_count (n : nat) (c : Counter) :
  let m := foldl (λ m kn, if (m <? kn.2)%nat then kn.2 else m) n c in
  (n ≤ m)%nat ∧ (∀ kn, kn ∈ c → (kn.2 ≤ m)%nat) ∧ (m = n ∨ ∃ kn, kn ∈ c ∧ kn.2 = m).
Proof.
  revert n. induction c as [|[k n'] c IH]; intros n; simpl.
  - split_and!; [done| |by left]. by intros ? ?%elem_of_nil.
  - specialize (IH (if (n <? n')%nat then n' else n)). simpl in IH.
    destruct IH as (Hle & Hall & Hex).
    destruct (Nat.ltb_spec n n') as [Hlt|Hge].
    + split_and!; [lia| |].
      * intros kn [->|Hin]%elem_of_cons; [done|by apply Hall].
      * right. destruct Hex as [->|(kn & Hin & <-)].
        -- exists (k, n'). split; [left|done].
        -- exists kn. split; [by right|done].
    + split_and!; [done| |].
      * intros kn [->|Hin]%elem_of_cons; [simpl; lia|by apply Hall].
      * destruct Hex as [->|(kn & Hin & <-)]; [by left|].
        right. exists kn. split; [by right|done].
Qed.

Lemma max_count_spec (c : Counter) :
  c ≠ [] →
  ∃ m, max_count c = Ok m ∧
       (∀ kn, kn ∈ c → (kn.2 ≤ m)%nat) ∧ (∃ kn, kn ∈ c ∧ kn.2 = m).
Proof.
  destruct c as [|[k n] c]; [done|]. intros _. eexists. split; [reflexivity|].
  destruct (foldl_max_count n c) as (Hle & Hall & Hex). split.
  - intros kn [->|Hin]%elem_of_cons; [done|by apply Hall].
  - destruct Hex as [->|(kn & Hin & <-)].
    + exists (k, n). split; [left|done].
    + exists kn. split; [by right|done].
Qed.

(** The running most common item has the running maximum as its count. *)
Lemma foldl_most_common (best : Key * nat) (c : Counter) :
  let b := foldl (λ best kn', if (best.2 <? kn'.2)%nat then kn' else best) best c in
  b.2 = foldl (λ m kn, if (m <? kn.2)%nat then kn.2 else m) best.2 c ∧
  (b = best ∨ b ∈ c).
Proof.
  revert best. induction c as [|kn c IH]; intros best; simpl.
  - split; [done|by left].
  - specialize (IH (if (best.2 <? kn.2)%nat then kn else best)). simpl in IH.
    destruct IH as [Hcount Hin]. split.
    + rewrite Hcount. by destruct (best.2 <? kn.2)%nat.
    + destruct Hin as [->|Hin]; [|right; by right].
      destruct (best.2 <? kn.2)%nat; [right; left|by left].
Qed.

Lemma most_common_1_spec (c : Counter) (m : nat) :
  max_count c = Ok m → ∃ k, most_common_1 c = Ok k ∧ (k, m) ∈ c.
Proof.
  destruct c as [|kn c]; [done|]. destruct kn as [k0 n0] eqn:Hkn.
  simpl. intros [= <-]. eexists. split; [reflexivity|].
  destruct (foldl_most_common (k0, n0) c) as [Hcount Hin]. simpl in *.
  rewrite <- Hcount.
  match goal with |- (?b.1, ?b.2) ∈ _ => destruct b as [k n] eqn:Hb end.
  simpl. destruct Hin as [[= -> ->]|Hin]; [left|by right].
Qed.

Lemma store_majority (tag field : string) (rec : FeedbackRecord) (k : Key)
    (s : Strategy) :
  validate_strategy tag = Ok s →
  (k ← Ok k;
   u ← mk_UnificationValueSchema (obj_of_key k) tag;
   Ok (set_unified_responses rec {[field := Many [u]]})) =
  Ok (set_unified_responses rec
        {[field := Many [{| value := value_of_key k; strategy := s |}]]}).
Proof.
  intros Hs. unfold mk_UnificationValueSchema.
  assert (Hv : validate_value (obj_of_key k) = Ok (value_of_key k)) by by destruct k.
  simpl. by rewrite Hv, Hs.
Qed.

Section Majority.
Context {G : Type} (randbelow : G → nat → nat * G).

(** [_randbelow(n)] is below [n]. *)
Hypothesis randbelow_lt : ∀ g n, (0 < n)%nat → ((randbelow g n).1 < n)%nat.



End Majority.



(** ** What the strategies return *)

Lemma then_return_returned {G : Type} (loop : list FeedbackRecord * option PyExc * G)
    (v : Returned) :
  raised_or_returned (returned (then_return loop (Ok v))) v.
Proof. destruct loop as [[records [e|]] g]; simpl; done. Qed.

Lemma then_return_Ok {G : Type} (loop : list FeedbackRecord * option PyExc * G)
    (ret : result Returned) (r : Returned) :
  returned (then_return loop ret) = Ok r →
  loop = (records_after (then_return loop ret), None,
          generator_after (then_return loop ret)).
Proof. by destruct loop as [[records [e|]] g]. Qed.

(** The siblings that end in [return records] return the list they were
    given. *)
Lemma rating_strategies_return_records {G : Type} (randbelow : G → nat → nat * G)
    (self : RatingQuestionStrategy) (records : list FeedbackRecord)
    (field : string) (g : G) :
  raised_or_returned
    (returned (RatingQuestionStrategy_unify_responses randbelow self records
                 (FieldName field) g))
    TheRecords.
Proof.
  unfold RatingQuestionStrategy_unify_responses.
  case_decide; apply then_return_returned.
Qed.

Lemma multi_label_majority_returns_records {G : Type}
    (records : list FeedbackRecord) (field : string) (g : G) :
  raised_or_returned
    (returned (unify_responses (H := MultiLabelQuestionStrategy_mixin)
                 MULTI_MAJORITY records (FieldName field) g))
    TheRecords.
Proof. apply then_return_returned. Qed.

(** C3 (the code departs from it). A strategy is to return the list of
    records it was given.  [_disagreement] returns the list
    [unified_records], which it creates empty and never fills, for the
    single-label and for the multi-label family alike, and
    [LabelQuestionStrategy._majority] returns the loop variable [rec], the
    last record, not the list: on the one-record list of the single-label
    example, [disagreement] writes the three unification values into the
    record and returns an empty list of its own, and [majority] returns the
    record. *)
Theorem disagreement_returns_its_own_list {G : Type} (randbelow : G → nat → nat * G)
    (records : list FeedbackRecord) (field : string) (g : G) :
  raised_or_returned
    (returned (unify_responses (H := LabelQuestionStrategy_mixin randbelow)
                 LABEL_DISAGREEMENT records (FieldName field) g))
    (NewList []) ∧
  raised_or_returned
    (returned (unify_responses (H := MultiLabelQuestionStrategy_mixin)
                 MULTI_DISAGREEMENT records (FieldName field) g))
    (NewList []) ∧
  raised_or_returned
    (returned (unify_responses (H := LabelQuestionStrategy_mixin randbelow)
                 LABEL_MAJORITY records (FieldName field) g))
    (TheRecord (length records - 1)) ∧
  (let o := unify_responses (H := LabelQuestionStrategy_mixin randbelow)
              LABEL_DISAGREEMENT [aba_record] (FieldName "q") g in
   returned o = Ok (NewList []) ∧
   records_after o =
     [set_unified_responses aba_record
        {["q" := Many [ {| value := VStr "a"; strategy := OfLabel LABEL_DISAGREEMENT |};
                        {| value := VStr "b"; strategy := OfLabel LABEL_DISAGREEMENT |};
                        {| value := VStr "a"; strategy := OfLabel LABEL_DISAGREEMENT |} ]]}]) ∧
  (let o := unify_responses (H := LabelQuestionStrategy_mixin randbelow)
              LABEL_MAJORITY [aba_record] (FieldName "q") g in
   returned o = Ok (TheRecord 0) ∧
   records_after o =
     [set_unified_responses aba_record
        {["q" := Many [ {| value := VStr "a"; strategy := OfRating MAJORITY |} ]]}]).
Proof.
  split_and!.
  - apply then_return_returned.
  - apply then_return_returned.
  - unfold unify_responses.
    cbn [self_value the_MAJORITY _majority LabelQuestionStrategy_mixin].
    rewrite decide_True by done. unfold LabelQuestionStrategy__majority.
    destruct (for_each_record _ records g) as [[records' [e|]] g']; [done|].
    destruct records as [|rec rest]; [done|]. simpl. f_equal. lia.
  - by vm_compute.
  - by vm_compute.
Qed.

(** ** The entry point of the training data *)

(** C4 (the code departs from it). [unify_responses] of the training data is
    to forward to [unify_responses] of the bound strategy.  It names the
    records [responses=] in the call, a keyword that the method, whose
    parameter is [records], does not have: for every binding and every list
    of records the call raises [TypeError] and no record is written. *)
Theorem training_data_unify_raises {G : Type} (randbelow : G → nat → nat * G)
    (self : TrainingDataForTextClassification) (responses : list FeedbackRecord)
    (g : G) :
  TrainingDataForTextClassification_unify_responses randbelow self responses g =
  {| records_after := responses; returned := Raise TypeError; generator_after := g |}.
Proof. reflexivity. Qed.

(** ** Rating aggregates *)

(** A float is no [StrictStr], [StrictInt] or [List[str]]: the mean is never
    stored. *)
Lemma mean_never_stored (field : string) (rec : FeedbackRecord) :
  raises (aggregate_record MEAN field rec).
Proof.
  unfold aggregate_record.
  destruct (collect _ _) as [ratings|e]; [|done]. simpl.
  destruct (py_sum ratings) as [total|e]; [|done]. simpl.
  unfold py_truediv. by case_decide.
Qed.

Lemma collect_ratings (field : string) (responses : list ResponseSchema) :
  Forall (answers_rating field) responses →
  collect (response_value field) responses = Ok (VInt <$> (responses ≫= rating field)).
Proof.
  induction 1 as [|resp rest Hresp _ IH]; [done|].
  cbn [collect]. unfold response_value, answers_rating, rating in *.
  rewrite bind_cons, fmap_app, IH.
  by destruct (values resp !! field) as [[s|n|l]|].
Qed.

Lemma max_from_ratings (m : Z) (l : list Z) :
  max_from (VInt m) (VInt <$> l) = Ok (VInt (foldl Z.max m l)).
Proof.
  revert m. induction l as [|x l IH]; intros m; [done|].
  cbn [fmap list_fmap max_from py_lt mbind result_bind foldl].
  rewrite <- IH. f_equal. f_equal. unfold Z.max.
  rewrite Z.ltb_compare. by destruct (m ?= x)%Z.
Qed.

Lemma min_from_ratings (m : Z) (l : list Z) :
  min_from (VInt m) (VInt <$> l) = Ok (VInt (foldl Z.min m l)).
Proof.
  revert m. induction l as [|x l IH]; intros m; [done|].
  cbn [fmap list_fmap min_from py_lt mbind result_bind foldl].
  rewrite <- IH. f_equal. f_equal. unfold Z.min.
  rewrite Z.ltb_compare, (Z.compare_antisym m x). by destruct (m ?= x)%Z.
Qed.

Lemma foldl_max_spec (m : Z) (l : list Z) :
  foldl Z.max m l ∈ m :: l ∧ ∀ x, x ∈ m :: l → (x ≤ foldl Z.max m l)%Z.
Proof.
  revert m. induction l as [|y l IH]; intros m; simpl.
  - split; [left|]. intros x ->%list_elem_of_singleton. done.
  - destruct (IH (Z.max m y)) as [Hin Hle]. split.
    + apply elem_of_cons in Hin as [Heq|Hin]; [|right; by right].
      rewrite Heq. destruct (Z.max_spec m y) as [[_ ->]|[_ ->]]; [right|]; left.
    + intros x [->|[->|Hx]%elem_of_cons]%elem_of_cons.
      * etrans; [apply (Z.le_max_l _ y)|]. apply Hle. left.
      * etrans; [apply (Z.le_max_r m)|]. apply Hle. left.
      * apply Hle. by right.
Qed.

Lemma foldl_min_spec (m : Z) (l : list Z) :
  foldl Z.min m l ∈ m :: l ∧ ∀ x, x ∈ m :: l → (foldl Z.min m l ≤ x)%Z.
Proof.
  revert m. induction l as [|y l IH]; intros m; simpl.
  - split; [left|]. intros x ->%list_elem_of_singleton. done.
  - destruct (IH (Z.min m y)) as [Hin Hle]. split.
    + apply elem_of_cons in Hin as [Heq|Hin]; [|right; by right].
      rewrite Heq. destruct (Z.min_spec m y) as [[_ ->]|[_ ->]]; [|right]; left.
    + intros x [->|[->|Hx]%elem_of_cons]%elem_of_cons.
      * etrans; [|apply (Z.le_min_l _ y)]. apply Hle. left.
      * etrans; [|apply (Z.le_min_r m)]. apply Hle. left.
      * apply Hle. by right.
Qed.

(** On a record whose submitted responses rate the question, [max] stores the
    largest and [min] the smallest of the submitted ratings, as one
    unification value; the discarded responses play no part. *)
Lemma max_min_stored (field : string) (rec : FeedbackRecord) :
  submitted_of rec ≠ [] →
  Forall (answers_rating field) (submitted_of rec) →
  ∃ hi lo,
    aggregate_record MAX field rec =
      Ok (set_unified_responses rec
            {[field := One {| value := VInt hi; strategy := OfRating MAX |}]}) ∧
    aggregate_record MIN field rec =
      Ok (set_unified_responses rec
            {[field := One {| value := VInt lo; strategy := OfRating MIN |}]}) ∧
    hi ∈ ratings field rec ∧ lo ∈ ratings field rec ∧
    ∀ x, x ∈ ratings field rec → (lo ≤ x ≤ hi)%Z.
Proof.
  intros Hne Hall. unfold aggregate_record, ratings.
  rewrite submitted_responses_of.
  rewrite (collect_ratings _ _ Hall).
  assert (Hrs : submitted_of rec ≫= rating field ≠ []).
  { destruct (submitted_of rec) as [|resp rest]; [done|].
    apply Forall_cons in Hall as [Hresp _]. rewrite bind_cons.
    unfold answers_rating, rating in *.
    by destruct (values resp !! field) as [[s|n|l]|]. }
  destruct (submitted_of rec ≫= rating field) as [|r rs]; [done|].
  destruct (foldl_max_spec r rs) as [Hhi Hle], (foldl_min_spec r rs) as [Hlo Hge].
  exists (foldl Z.max r rs), (foldl Z.min r rs).
  cbn [mbind result_bind rating_value decide]. simpl.
  rewrite max_from_ratings, min_from_ratings. simpl.
  split_and!; [done..|]. intros x Hx. split; [by apply Hge|by apply Hle].
Qed.

(** C6 (the code departs from it). [mean], [max] and [min] are to store the
    mean, the largest and the smallest submitted rating as one unification
    value.  For the ratings 4, 5, 5 submitted and 1 discarded, [max] stores 5
    and [min] stores 4, each as one unification value with the tag of the
    strategy; [mean] computes the quotient of 14 by 3, a float, which the
    field [value] of a unification value does not admit: the call raises
    and the record is left without unified response. *)
Theorem rating_aggregates_example :
  let aggregate s :=
    RatingQuestionStrategy_unify_responses counting_randbelow s
      [ratings_record] (FieldName "q") 0%nat in
  aggregate MEAN =
    {| records_after := [ratings_record];
       returned := Raise ValidationError;
       generator_after := 0%nat |} ∧
  aggregate MAX =
    {| records_after :=
         [set_unified_responses ratings_record
            {["q" := One {| value := VInt 5; strategy := OfRating MAX |}]}];
       returned := Ok TheRecords;
       generator_after := 0%nat |} ∧
  aggregate MIN =
    {| records_after :=
         [set_unified_responses ratings_record
            {["q" := One {| value := VInt 4; strategy := OfRating MIN |}]}];
       returned := Ok TheRecords;
       generator_after := 0%nat |}.
Proof. split_and!; by vm_compute. Qed.

(** ** Records without submitted response *)

Lemma aggregate_record_empty (self : RatingQuestionStrategy) (field : string)
    (rec : FeedbackRecord) :
  submitted_responses rec = [] → raises (aggregate_record self field rec).
Proof.
  intros Hnil. unfold aggregate_record. rewrite Hnil. by destruct self.
Qed.

Lemma majority_record_empty {G : Type} (randbelow : G → nat → nat * G)
    (tag field : string) (rec : FeedbackRecord) (g : G) :
  submitted_responses rec = [] →
  majority_record randbelow tag field rec g = (Raise ValueError, g).
Proof. intros Hnil. unfold majority_record. by rewrite Hnil. Qed.

Lemma multi_label_majority_record_empty (tag field : string) (rec : FeedbackRecord)
    (s : Strategy) :
  submitted_responses rec = [] →
  validate_strategy tag = Ok s →
  multi_label_majority_record tag field rec =
  Ok (set_unified_responses rec
        {[field := One {| value := VList []; strategy := s |}]}).
Proof.
  intros Hnil Hs. unfold multi_label_majority_record, mk_UnificationValueSchema.
  rewrite Hnil. simpl. by rewrite Hs.
Qed.

(** C5 as stated fails: on a record without submitted response the
    multi-label majority does not raise; it stores the empty list. *)
Lemma multi_label_majority_empty_counterexample :
  let o := unify_responses (H := MultiLabelQuestionStrategy_mixin)
             MULTI_MAJORITY [unanswered_record] (FieldName "q") () in
  submitted_responses unanswered_record = [] ∧
  ¬ raises (returned o) ∧
  records_after o =
    [set_unified_responses unanswered_record
       {["q" := One {| value := VList []; strategy := OfRating MAJORITY |}]}].
Proof. split_and!; [done|by vm_compute|by vm_compute]. Qed.

(** C5, amended. For a record without submitted response, the rating
    strategies [mean], [max] and [min], the rating majority and the
    single-label majority raise when they reach it, and leave it, and the
    records after it, as they were: no value is stored for it.  The
    multi-label majority does not raise on such a record: no label reaches
    the threshold of one, and the unification value it stores wraps the
    empty list. *)
Theorem empty_submitted_set {G : Type} (randbelow : G → nat → nat * G)
    (pre post : list FeedbackRecord) (rec : FeedbackRecord) (field : string)
    (g : G) :
  submitted_responses rec = [] →
  (∀ self,
     let o := RatingQuestionStrategy_unify_responses randbelow self
                (pre ++ rec :: post) (FieldName field) g in
     raises (returned o) ∧
     ∃ pre', records_after o = pre' ++ rec :: post ∧ length pre' = length pre) ∧
  (let o := unify_responses (H := LabelQuestionStrategy_mixin randbelow)
              LABEL_MAJORITY (pre ++ rec :: post) (FieldName field) g in
   raises (returned o) ∧
   ∃ pre', records_after o = pre' ++ rec :: post ∧ length pre' = length pre) ∧
  (let o := unify_responses (H := MultiLabelQuestionStrategy_mixin)
              MULTI_MAJORITY [rec] (FieldName field) g in
   returned o = Ok TheRecords ∧
   ∃ u, records_after o = [set_unified_responses rec {[field := One u]}] ∧
        value u = VList [] ∧
        strategy_value (strategy u) = multi_label_value MULTI_MAJORITY).
Proof.
  intros Hnil.
  assert (Hmajority : ∀ tag ret,
    let o := then_return
               (for_each_record (majority_record randbelow tag field)
                  (pre ++ rec :: post) g) ret in
    raises (returned o) ∧
    ∃ pre', records_after o = pre' ++ rec :: post ∧ length pre' = length pre).
  { intros tag ret.
    destruct (for_each_record_stops (majority_record randbelow tag field)
                pre post rec g) as (pre' & e & g' & Hloop & Hlen).
    { intros g0. exists ValueError, g0. by apply majority_record_empty. }
    cbn zeta. rewrite Hloop. split; [done|]. by exists pre'. }
  split_and!.
  - intros self. unfold RatingQuestionStrategy_unify_responses. case_decide.
    + apply Hmajority.
    + unfold RatingQuestionStrategy__aggregate.
      destruct (for_each_record_stops (pure_body (aggregate_record self field))
                  pre post rec g) as (pre' & e & g' & Hloop & Hlen).
      { intros g0. unfold pure_body.
        pose proof (aggregate_record_empty self field rec Hnil) as Hraise.
        destruct (aggregate_record self field rec) as [|e]; [done|]. by exists e, g0. }
      cbn zeta. rewrite Hloop. split; [done|]. by exists pre'.
  - unfold unify_responses.
    cbn [self_value the_MAJORITY _majority LabelQuestionStrategy_mixin].
    rewrite decide_True by done. apply Hmajority.
  - cbn zeta. unfold unify_responses.
    cbn [self_value the_MAJORITY _majority MultiLabelQuestionStrategy_mixin].
    rewrite decide_True by done.
    unfold MultiLabelQuestionStrategy__majority, for_each_record, pure_body.
    rewrite (multi_label_majority_record_empty _ _ _ (OfRating MAJORITY) Hnil)
      by done.
    split; [done|]. by eexists.
Qed.

Lemma empty_submitted_set_witness :
  let rec := unanswered_record in
  (∀ self,
     let o := RatingQuestionStrategy_unify_responses counting_randbelow self
                ([ratings_record] ++ rec :: [ratings_record]) (FieldName "q") 0%nat in
     raises (returned o) ∧
     ∃ pre', records_after o = pre' ++ rec :: [ratings_record] ∧
             length pre' = length [ratings_record]) ∧
  (let o := unify_responses (H := LabelQuestionStrategy_mixin counting_randbelow)
              LABEL_MAJORITY ([ratings_record] ++ rec :: [ratings_record])
              (FieldName "q") 0%nat in
   raises (returned o) ∧
   ∃ pre', records_after o = pre' ++ rec :: [ratings_record] ∧
           length pre' = length [ratings_record]) ∧
  (let o := unify_responses (H := MultiLabelQuestionStrategy_mixin)
              MULTI_MAJORITY [rec] (FieldName "q") 0%nat in
   returned o = Ok TheRecords ∧
   ∃ u, records_after o = [set_unified_responses rec {["q" := One u]}] ∧
        value u = VList [] ∧
        strategy_value (strategy u) = multi_label_value MULTI_MAJORITY).
Proof.
  apply (empty_submitted_set counting_randbelow [ratings_record] [ratings_record]
           unanswered_record "q" 0%nat).
  reflexivity.
Defined.

(** ** The unified responses of a record after a strategy *)

Lemma rewritten_entries (name other : string) (rec rec' : FeedbackRecord) :
  rewritten name rec rec' →
  is_Some (unified_response name rec') ∧
  (other ≠ name → unified_response other rec' = None).
Proof.
  intros [v ->]. unfold unified_response. simpl. split.
  - exists v. apply lookup_singleton_eq.
  - intros Hne. by apply lookup_singleton_ne.
Qed.

Lemma aggregate_record_rewrites (self : RatingQuestionStrategy) (field : string)
    (rec rec' : FeedbackRecord) :
  aggregate_record self field rec = Ok rec' → rewritten field rec rec'.
Proof.
  unfold aggregate_record.
  intros (ratings & _ & (value & _ & (u & _ & [= <-])%bind_Ok)%bind_Ok)%bind_Ok.
  by exists (One u).
Qed.

Lemma multi_label_majority_record_rewrites (tag field : string)
    (rec rec' : FeedbackRecord) :
  multi_label_majority_record tag field rec = Ok rec' → rewritten field rec rec'.
Proof.
  unfold multi_label_majority_record.
  intros (counter & _ & (u & _ & [= <-])%bind_Ok)%bind_Ok.
  by exists (One u).
Qed.

Lemma disagreement_record_rewrites (tag field : string) (rec rec' : FeedbackRecord) :
  disagreement_record tag field rec = Ok rec' → rewritten field rec rec'.
Proof.
  unfold disagreement_record. intros (us & _ & [= <-])%bind_Ok.
  by exists (Many us).
Qed.

Lemma majority_record_rewrites {G : Type} (randbelow : G → nat → nat * G)
    (tag field : string) (rec rec' : FeedbackRecord) (g g' : G) :
  majority_record randbelow tag field rec g = (Ok rec', g') → rewritten field rec rec'.
Proof.
  unfold majority_record.
  destruct (count_values _ _ _) as [counter|e]; [|done].
  destruct (max_count counter) as [m|e]; [|done].
  destruct (if decide _ then _ else _) as [majority_value g''].
  intros [= (k & _ & (u & _ & [= <-])%bind_Ok)%bind_Ok _].
  by exists (Many [u]).
Qed.

Lemma loop_rewrites {G : Type} (body : FeedbackRecord → G → result FeedbackRecord * G)
    (field : string) (records : list FeedbackRecord) (g : G)
    (ret : result Returned) (r : Returned) :
  (∀ rec rec' g0 g1, body rec g0 = (Ok rec', g1) → rewritten field rec rec') →
  returned (then_return (for_each_record body records g) ret) = Ok r →
  Forall2 (rewritten field) records
    (records_after (then_return (for_each_record body records g) ret)).
Proof.
  intros Hbody Hret. apply then_return_Ok in Hret.
  apply for_each_record_returns in Hret.
  eapply Forall2_impl; [exact Hret|].
  intros rec rec' (g0 & g1 & Hrec). by eapply Hbody.
Qed.

(** C7 as stated fails: the entry of another question does not survive. *)
Lemma other_entry_lost_counterexample :
  let o := RatingQuestionStrategy_unify_responses counting_randbelow MAX
             [unified_record] (FieldName "q") 0%nat in
  unified_response "other" unified_record =
    Some (One {| value := VInt 3; strategy := OfRating MAX |}) ∧
  returned o = Ok TheRecords ∧
  (unified_response "other" <$> records_after o) = [None] ∧
  (unified_response "q" <$> records_after o) =
    [Some (One {| value := VInt 5; strategy := OfRating MAX |})].
Proof. split_and!; by vm_compute. Qed.

(** C7, amended. A strategy that is run for a question and returns has
    assigned to each record a new dictionary of unified responses with one
    entry, the one of the question: afterwards the record has an entry for
    that question and for no other name, whatever entries it had before;
    nothing else of the record changes. *)
Theorem unify_replaces_unified_responses {G : Type} (randbelow : G → nat → nat * G)
    (strategy : Strategy) (records : list FeedbackRecord) (field : FieldRef)
    (g : G) (r : Returned) :
  let o := Strategy_unify_responses randbelow strategy records field g in
  returned o = Ok r →
  ∃ name,
    field_name_of field = Some name ∧
    Forall2 (rewritten name) records (records_after o) ∧
    Forall (λ rec', is_Some (unified_response name rec') ∧
                    ∀ other, other ≠ name → unified_response other rec' = None)
      (records_after o).
Proof.
  cbn zeta. intros Hret.
  assert (∃ name, field_name_of field = Some name ∧
            Forall2 (rewritten name) records
              (records_after (Strategy_unify_responses randbelow strategy
                                records field g))) as (name & Hname & Hall).
  { destruct strategy as [s|s|s]; simpl in *.
    - unfold RatingQuestionStrategy_unify_responses in *.
      destruct field as [name|[q|q|q|q]|]; try done;
        (eexists; split; [reflexivity|]);
        case_decide; (eapply loop_rewrites; [|exact Hret]); intros ????;
        first [apply majority_record_rewrites
              |unfold pure_body; intros [= ? _]; by eapply aggregate_record_rewrites].
    - unfold unify_responses in *.
      cbn [self_value the_MAJORITY the_MAJORITY_WEIGHTED the_DISAGREEMENT
           _majority _majority_weighted LabelQuestionStrategy_mixin] in *.
      destruct field as [name|[q|q|q|q]|]; try done;
        (eexists; split; [reflexivity|]);
        destruct s; try done;
        (eapply loop_rewrites; [|exact Hret]); intros ????;
        first [apply majority_record_rewrites
              |unfold pure_body; intros [= ? _]; by eapply disagreement_record_rewrites].
    - unfold unify_responses in *.
      cbn [self_value the_MAJORITY the_MAJORITY_WEIGHTED the_DISAGREEMENT
           _majority _majority_weighted MultiLabelQuestionStrategy_mixin] in *.
      destruct field as [name|[q|q|q|q]|]; try done;
        (eexists; split; [reflexivity|]);
        destruct s; try done;
        (eapply loop_rewrites; [|exact Hret]); intros ????; unfold pure_body;
        intros [= ? _];
        first [by eapply multi_label_majority_record_rewrites
              |by eapply disagreement_record_rewrites]. }
  exists name. split_and!; [done..|].
  apply Forall2_Forall_r with (P := rewritten name) (l := records); [done|].
  apply Forall_forall. intros rec _ rec' Hrec. split.
  - by apply (rewritten_entries name name rec rec').
  - intros other. by apply (rewritten_entries name other rec rec').
Qed.

Lemma unify_replaces_unified_responses_witness :
  let o := Strategy_unify_responses counting_randbelow (OfRating MAX)
             [unified_record] (FieldName "q") 0%nat in
  ∃ name,
    field_name_of (FieldName "q") = Some name ∧
    Forall2 (rewritten name) [unified_record] (records_after o) ∧
    Forall (λ rec', is_Some (unified_response name rec') ∧
                    ∀ other, other ≠ name → unified_response other rec' = None)
      (records_after o).
Proof.
  apply (unify_replaces_unified_responses counting_randbelow (OfRating MAX)
           [unified_record] (FieldName "q") 0%nat TheRecords).
  reflexivity.
Defined.

(** ** Construction of questions *)

Lemma remove_dups_length `{EqDecision A} (l : list A) :
  (length (remove_dups l) ≤ length l)%nat.
Proof.
  induction l as [|x l IH]; simpl; [done|].
  case_decide; simpl; lia.
Qed.

Lemma remove_dups_length_NoDup `{EqDecision A} (l : list A) :
  length (remove_dups l) = length l ↔ NoDup l.
Proof.
  induction l as [|x l IH]; simpl.
  - split; [constructor|done].
  - rewrite NoDup_cons. pose proof (remove_dups_length l).
    case_decide as Hin; simpl.
    + split; [lia|by intros [? _]].
    + rewrite <- IH. split; [intros [=]; by split|intros [_ ->]; done].
Qed.

Lemma unique_min_2_raises `{EqDecision A} (l : list A) :
  raises (unique_min_2 l) ↔ (length l < 2)%nat ∨ ¬ NoDup l.
Proof.
  unfold unique_min_2.
  destruct (decide (2 ≤ length l)%nat) as [Hlen|Hlen];
    [destruct (decide (NoDup l)) as [Hnd|Hnd]|]; simpl.
  - split; [done|intros [?|?]; [lia|done]].
  - split; [by right|done].
  - split; [intros _; left; lia|done].
Qed.

Lemma labels_dict_must_be_valid_raises (d : list (string * string)) :
  raises (labels_dict_must_be_valid (LabelDict d)) ↔
  (length d < 2)%nat ∨ ¬ NoDup d.*2.
Proof.
  simpl. rewrite length_fmap, <- remove_dups_length_NoDup, length_fmap.
  destruct (decide (1 < length d)%nat) as [Hlen|Hlen];
    [destruct (decide (length (remove_dups d.*2) = length d)) as [Hnd|Hnd]|];
    simpl.
  - split; [done|intros [?|?]; [lia|done]].
  - split; [by right|done].
  - split; [intros _; left; lia|done].
Qed.

(** [dict] takes a list of strings only when each has two characters. *)
Lemma dict_of_list_two_characters (l : list string) (d : list (string * string)) :
  dict_of_list l = Some d → Forall (λ label, String.length label = 2%nat) l.
Proof.
  unfold dict_of_list. destruct (mapM key_and_value l) as [items|] eqn:Hitems; [|done].
  intros _. apply mapM_Some in Hitems.
  induction Hitems as [|label kv l items Hkv _ IH]; constructor; [|done].
  by destruct label as [|a [|b [|c rest]]].
Qed.

Lemma dict_setitem_length (k v : string) (d : list (string * string)) :
  (length d ≤ length (dict_setitem k v d) ≤ S (length d))%nat.
Proof.
  induction d as [|[k' v'] d IH]; simpl; [lia|].
  case_decide; simpl; lia.
Qed.

(** The dictionary of a list has no more items than the list has elements. *)
Lemma dict_of_list_length (l : list string) (d : list (string * string)) :
  dict_of_list l = Some d → (length d ≤ length l)%nat.
Proof.
  unfold dict_of_list. destruct (mapM key_and_value l) as [items|] eqn:Hitems; [|done].
  intros [= <-]. apply length_mapM in Hitems. rewrite Hitems.
  assert (Hacc : ∀ acc, (length (foldl (λ d kv, dict_setitem kv.1 kv.2 d) acc items)
                         ≤ length acc + length items)%nat).
  { clear Hitems. induction items as [|kv items IH]; intros acc; simpl; [lia|].
    specialize (IH (dict_setitem kv.1 kv.2 acc)).
    pose proof (dict_setitem_length kv.1 kv.2 acc). lia. }
  apply (Hacc []).
Qed.

(** A list of labels is refused when it has fewer than two labels, and when
    a label comes twice unless every label has two characters. *)
Lemma validate_labels_raises (labels : Labels) :
  match labels with
  | LabelList l => ¬ (¬ NoDup l ∧ Forall (λ label, String.length label = 2%nat) l)
  | LabelDict _ => True
  end →
  raises (validate_labels labels) ↔
  match labels with
  | LabelList l => (length l < 2)%nat ∨ ¬ NoDup l
  | LabelDict d => (length d < 2)%nat ∨ ¬ NoDup d.*2
  end.
Proof.
  destruct labels as [l|d]; [|intros _; apply labels_dict_must_be_valid_raises].
  intros Hl. cbn [validate_labels].
  pose proof (unique_min_2_raises l) as Hunique.
  destruct (unique_min_2 l) as [l'|e] eqn:Hl'; simpl in Hunique.
  { simpl. tauto. }
  split; [intros _; by apply Hunique|]. intros _.
  destruct (dict_of_list l) as [d|] eqn:Hd; [|done].
  apply labels_dict_must_be_valid_raises. left.
  destruct (decide (NoDup l)) as [Hnd|Hnd].
  - apply dict_of_list_length in Hd. destruct Hunique as [Hunique _].
    destruct (Hunique I) as [Hlen|Hdup]; [lia|done].
  - exfalso. apply Hl. split; [done|]. by eapply dict_of_list_two_characters.
Qed.

Lemma validate_visible_labels_raises (visible_labels : Arg (option Z)) :
  raises (validate_visible_labels visible_labels) ↔
  visible_labels_too_small visible_labels.
Proof.
  destruct visible_labels as [|[n|]]; simpl; try done.
  case_decide; simpl; split; try done; lia.
Qed.

Lemma mk__LabelQuestion_raises (default_settings : gmap string Setting)
    (name : string) (title : option Title) (description : option string)
    (required : bool) (labels : Labels) (visible_labels : Arg (option Z)) :
  raises (mk__LabelQuestion default_settings name title description required
            labels visible_labels) ↔
  raises (validate_labels labels) ∨ raises (validate_visible_labels visible_labels).
Proof.
  unfold mk__LabelQuestion.
  destruct (validate_labels labels), (validate_visible_labels visible_labels);
    simpl; tauto.
Qed.

(** C9 as stated fails: a dictionary of three labels with the display texts
    X, X and Y has two distinct display texts, and is refused; a list of
    the three labels yes, yes and no has three entries, and is refused. *)
Lemma repeated_display_text_counterexample :
  let cfg := LabelConfig (LabelDict [("a", "X"); ("b", "X"); ("c", "Y")]) Omitted in
  let cfg' := MultiLabelConfig (LabelList ["yes"; "yes"; "no"]) (Given None) in
  (raises (construct "q" None None true cfg) ∧ ¬ stated_invalid cfg) ∧
  (raises (construct "q" None None true cfg') ∧ ¬ stated_invalid cfg').
Proof.
  split; (split; [by vm_compute|]).
  - simpl. intros [[H|H]|[]]; vm_compute in H; lia.
  - simpl. intros [H|[]]. lia.
Qed.

(** C9, amended. The construction of a question fails if and only if: the
    values of a rating question are fewer than two or not pairwise
    distinct; or the labels of a label or multi-label question, given as a
    list, are fewer than two or not pairwise distinct, or, given as a
    dictionary, have fewer than two entries or display texts that are not
    pairwise distinct; or [visible_labels] is an integer below three.
    [visible_labels = None] never makes it fail, nor does leaving it out.
    Nothing is said of a list in which a label comes twice and every label
    has two characters. *)
Theorem construction_fails_iff_invalid (name : string)
    (title description : option string) (required : bool) (cfg : QuestionConfig) :
  ¬ repeats_two_character_labels cfg →
  raises (construct name title description required cfg) ↔ invalid cfg.
Proof.
  destruct cfg as [values|labels visible_labels|labels visible_labels]; simpl;
    intros Hcfg.
  - rewrite <- unique_min_2_raises. unfold mk_RatingQuestion.
    by destruct (unique_min_2 values).
  - rewrite <- validate_labels_raises, <- validate_visible_labels_raises,
      <- (mk__LabelQuestion_raises {["type" := SettingStr "label_selection"]}
            name (TitleStr <$> title) description required);
      [|by destruct labels].
    unfold mk_LabelQuestion. by destruct (mk__LabelQuestion _ _ _ _ _ _ _).
  - rewrite <- validate_labels_raises, <- validate_visible_labels_raises,
      <- (mk__LabelQuestion_raises {["type" := SettingStr "multi_label_selection"]}
            name (TitleStr <$> title) description required);
      [|by destruct labels].
    unfold mk_MultiLabelQuestion. by destruct (mk__LabelQuestion _ _ _ _ _ _ _).
Qed.

Lemma construction_fails_iff_invalid_witness :
  let cfg := MultiLabelConfig (LabelList ["yes"; "yes"; "no"]) (Given None) in
  raises (construct "q" None None true cfg) ↔ invalid cfg.
Proof.
  apply (construction_fails_iff_invalid "q" None None true
           (MultiLabelConfig (LabelList ["yes"; "yes"; "no"]) (Given None))).
  simpl. intros [_ Htwo]. apply Forall_cons in Htwo as [Htwo _]. discriminate Htwo.
Defined.

(** C10. A label or multi-label question constructed without a
    [visible_labels] argument has [visible_labels] 20, and its settings
    carry 20 under ["visible_options"]; a question constructed with
    [visible_labels=None] has [visible_labels] [None] and settings that carry
    [None]: leaving the argument out is not passing [None]. *)
Theorem visible_labels_default (name : string) (title description : option string)
    (required : bool) (labels validated : Labels) :
  validate_labels labels = Ok validated →
  ∃ (single single_all : LabelQuestion) (multi multi_all : MultiLabelQuestion),
    mk_LabelQuestion name title description required labels Omitted = Ok single ∧
    mk_MultiLabelQuestion name title description required labels Omitted = Ok multi ∧
    visible_labels single = Some 20 ∧
    visible_labels multi = Some 20 ∧
    settings single !! "visible_options" = Some (SettingInt 20) ∧
    settings multi !! "visible_options" = Some (SettingInt 20) ∧
    mk_LabelQuestion name title description required labels (Given None) =
      Ok single_all ∧
    mk_MultiLabelQuestion name title description required labels (Given None) =
      Ok multi_all ∧
    visible_labels single_all = None ∧
    visible_labels multi_all = None ∧
    settings single_all !! "visible_options" = Some SettingNone ∧
    settings multi_all !! "visible_options" = Some SettingNone.
Proof.
  intros Hlabels.
  unfold mk_LabelQuestion, mk_MultiLabelQuestion, mk__LabelQuestion.
  rewrite Hlabels. simpl.
  eexists _, _, _, _.
  split_and!; try reflexivity; simpl; unfold update_settings;
    apply lookup_insert_eq.
Qed.

Lemma visible_labels_default_witness :
  ∃ (single single_all : LabelQuestion) (multi multi_all : MultiLabelQuestion),
    mk_LabelQuestion "q" None None true (LabelList ["yes"; "no"]) Omitted = Ok single ∧
    mk_MultiLabelQuestion "q" None None true (LabelList ["yes"; "no"]) Omitted =
      Ok multi ∧
    visible_labels single = Some 20 ∧
    visible_labels multi = Some 20 ∧
    settings single !! "visible_options" = Some (SettingInt 20) ∧
    settings multi !! "visible_options" = Some (SettingInt 20) ∧
    mk_LabelQuestion "q" None None true (LabelList ["yes"; "no"]) (Given None) =
      Ok single_all ∧
    mk_MultiLabelQuestion "q" None None true (LabelList ["yes"; "no"]) (Given None) =
      Ok multi_all ∧
    visible_labels single_all = None ∧
    visible_labels multi_all = None ∧
    settings single_all !! "visible_options" = Some SettingNone ∧
    settings multi_all !! "visible_options" = Some SettingNone.
Proof.
  apply (visible_labels_default "q" None None true
           (LabelList ["yes"; "no"]) (LabelList ["yes"; "no"])).
  reflexivity.
Defined.

(** ** Bindings *)

Lemma RatingQuestionStrategy_of_value (tag : string) (m : RatingQuestionStrategy) :
  RatingQuestionStrategy_of tag = Some m ↔ rating_value m = tag.
Proof.
  split.
  - unfold RatingQuestionStrategy_of.
    repeat case_decide; intros [= <-]; by subst.
  - intros <-. by destruct m.
Qed.

Lemma LabelQuestionStrategy_of_value (tag : string) (m : LabelQuestionStrategy) :
  LabelQuestionStrategy_of tag = Some m ↔ label_value m = tag.
Proof.
  split.
  - unfold LabelQuestionStrategy_of.
    repeat case_decide; intros [= <-]; by subst.
  - intros <-. by destruct m.
Qed.

Lemma MultiLabelQuestionStrategy_of_value (tag : string)
    (m : MultiLabelQuestionStrategy) :
  MultiLabelQuestionStrategy_of tag = Some m ↔ multi_label_value m = tag.
Proof.
  split.
  - unfold MultiLabelQuestionStrategy_of.
    repeat case_decide; intros [= <-]; by subst.
  - intros <-. by destruct m.
Qed.

(** A question that a constructor returned goes through the constructor
    again unchanged. *)
Lemma title_must_have_value_again (v : option Title) (name : string) :
  title_must_have_value (Some (title_must_have_value v name)) name =
  title_must_have_value v name.
Proof.
  destruct v as [[t|n]|]; simpl; by repeat (case_bool_decide; simpl).
Qed.

Lemma validate_labels_again (labels validated : Labels) :
  validate_labels labels = Ok validated → validate_labels validated = Ok validated.
Proof.
  assert (Hdict : ∀ d, labels_dict_must_be_valid (LabelDict d) = Ok validated →
                       validate_labels validated = Ok validated).
  { intros d Hd. assert (validated = LabelDict d) as ->; [|done].
    simpl in Hd. repeat case_decide; congruence. }
  destruct labels as [l|d]; cbn [validate_labels]; [|apply Hdict].
  destruct (unique_min_2 l) as [l'|e] eqn:Hl.
  - simpl. intros [= <-]. cbn [validate_labels].
    assert (unique_min_2 l' = Ok l') as ->; [|done].
    unfold unique_min_2 in *. repeat case_decide; try done.
    + injection Hl as <-. done.
    + injection Hl as <-. done.
  - destruct (dict_of_list l) as [d|]; [apply Hdict|done].
Qed.

Lemma validate_visible_labels_again (visible : Arg (option Z)) (validated : option Z) :
  validate_visible_labels visible = Ok validated →
  validate_visible_labels (Given validated) = Ok validated.
Proof.
  destruct visible as [|[n|]]; simpl.
  - by intros [= <-].
  - case_decide; [|done]. intros [= <-]. simpl. by rewrite decide_True.
  - by intros [= <-].
Qed.

Lemma update_settings_again (settings : gmap string Setting) (labels : Labels)
    (visible : option Z) :
  update_settings (update_settings settings labels visible) labels visible =
  update_settings settings labels visible.
Proof.
  unfold update_settings. apply map_eq. intros k.
  destruct (decide (k = "visible_options")) as [->|Hvisible].
  { by rewrite !lookup_insert_eq. }
  destruct (decide (k = "options")) as [->|Hoptions].
  - destruct labels; rewrite !(lookup_insert_ne _ "visible_options") by done;
      by rewrite !lookup_insert_eq.
  - destruct labels; by rewrite !lookup_insert_ne by done.
Qed.

Lemma LabelQuestion_validate_again (default_settings : gmap string Setting)
    (name : string) (title : option Title) (description : option string)
    (required : bool) (labels : Labels) (visible : Arg (option Z))
    (q : _LabelQuestion) :
  mk__LabelQuestion default_settings name title description required labels visible
    = Ok q →
  LabelQuestion_validate q = Ok {| LabelQuestion_base := q |}.
Proof.
  unfold mk__LabelQuestion.
  destruct (validate_labels labels) as [ls|] eqn:Hls; [|done].
  destruct (validate_visible_labels visible) as [vl|] eqn:Hvl; [|done].
  pose proof (validate_labels_again _ _ Hls) as Hls'.
  pose proof (validate_visible_labels_again _ _ Hvl) as Hvl'. simpl in Hvl'.
  pose proof (title_must_have_value_again title name) as Htitle. simpl in Htitle.
  intros [= <-]. unfold LabelQuestion_validate, mk__LabelQuestion. simpl.
  rewrite Hls', Hvl'. simpl.
  by rewrite Htitle, update_settings_again.
Qed.

(** The label binding rebuilds a multi-label question that a constructor
    returned as the label question of the same fields. *)
Lemma constructed_multi_label_question (q : MultiLabelQuestion) :
  constructed (IsMultiLabelQuestion q) →
  LabelQuestion_validate q = Ok {| LabelQuestion_base := q |}.
Proof.
  intros [(name & title & description & required & use_markdown & [=])
         |(name & title & description & required & cfg & Hq)].
  destruct cfg as [values|labels visible|labels visible]; simpl in Hq.
  - by destruct (mk_RatingQuestion _ _ _ _ _).
  - by destruct (mk_LabelQuestion _ _ _ _ _ _).
  - unfold mk_MultiLabelQuestion in Hq.
    destruct (mk__LabelQuestion _ _ _ _ _ _ _) as [q0|] eqn:Hq0; [|done].
    simpl in Hq. injection Hq as <-. simpl.
    by eapply LabelQuestion_validate_again.
Qed.

(** C8 (the code departs from it). A binding is to be refused when the
    family of its strategy is not the family of its question.  The rating
    binding does so, and the label binding does so for a single-label
    question: it accepts a single-label strategy and refuses a multi-label
    one.  For a multi-label question that a constructor returned it does the
    opposite: the field [question] has rebuilt the question as a
    [LabelQuestion] before the check runs, so that the binding holds a label
    question, accepts every single-label strategy, refuses every multi-label
    strategy, and looks a string up in [LabelQuestionStrategy]. *)
Theorem binding_checks_family (question : AllowedQuestionTypes)
    (strategy : Strategy) (tag : string) :
  constructed question →
  match question, strategy with
  | IsRatingQuestion q, OfRating s =>
    mk_RatingQuestionUnification question (Given (Member strategy)) =
    Ok {| rating_question := q; rating_strategy := s |}
  | IsLabelQuestion q, OfLabel s =>
    mk_LabelQuestionUnification question (Given (Member strategy)) =
    Ok {| label_question := Single q; label_strategy := strategy |}
  | IsMultiLabelQuestion q, OfLabel s =>
    mk_LabelQuestionUnification question (Given (Member strategy)) =
    Ok {| label_question := Single {| LabelQuestion_base := q |};
          label_strategy := strategy |}
  | IsMultiLabelQuestion q, OfMultiLabel s =>
    raises (mk_RatingQuestionUnification question (Given (Member strategy))) ∧
    mk_LabelQuestionUnification question (Given (Member strategy)) =
    Raise ValidationError
  | _, _ =>
    raises (mk_RatingQuestionUnification question (Given (Member strategy))) ∧
    raises (mk_LabelQuestionUnification question (Given (Member strategy)))
  end ∧
  match question with
  | IsRatingQuestion q =>
    mk_RatingQuestionUnification question (Given (Tag tag)) =
    match RatingQuestionStrategy_of tag with
    | Some s => Ok {| rating_question := q; rating_strategy := s |}
    | None => Raise ValidationError
    end
  | IsLabelQuestion q =>
    mk_LabelQuestionUnification question (Given (Tag tag)) =
    match LabelQuestionStrategy_of tag with
    | Some s => Ok {| label_question := Single q; label_strategy := OfLabel s |}
    | None => Raise ValidationError
    end
  | IsMultiLabelQuestion q =>
    mk_LabelQuestionUnification question (Given (Tag tag)) =
    match LabelQuestionStrategy_of tag with
    | Some s => Ok {| label_question := Single {| LabelQuestion_base := q |};
                      label_strategy := OfLabel s |}
    | None => Raise ValidationError
    end
  | IsTextQuestion _ =>
    raises (mk_RatingQuestionUnification question (Given (Tag tag))) ∧
    raises (mk_LabelQuestionUnification question (Given (Tag tag)))
  end ∧
  (∀ s, RatingQuestionStrategy_of tag = Some s ↔ rating_value s = tag) ∧
  (∀ s, LabelQuestionStrategy_of tag = Some s ↔ label_value s = tag) ∧
  (∀ s, MultiLabelQuestionStrategy_of tag = Some s ↔ multi_label_value s = tag).
Proof.
  intros Hquestion.
  assert (Hmulti : ∀ q, question = IsMultiLabelQuestion q →
            LabelQuestion_validate q = Ok {| LabelQuestion_base := q |}).
  { intros q ->. by apply constructed_multi_label_question. }
  clear Hquestion. split_and!.
  - destruct question as [q|q|q|q], strategy as [s|s|s]; try by simpl.
    + unfold mk_LabelQuestionUnification. by rewrite (Hmulti q eq_refl).
    + unfold mk_LabelQuestionUnification. by rewrite (Hmulti q eq_refl).
    + unfold mk_LabelQuestionUnification. by rewrite (Hmulti q eq_refl).
  - destruct question as [q|q|q|q]; simpl.
    + done.
    + unfold mk_RatingQuestionUnification. simpl.
      by destruct (RatingQuestionStrategy_of tag).
    + unfold mk_LabelQuestionUnification. simpl.
      by destruct (LabelQuestionStrategy_of tag).
    + unfold mk_LabelQuestionUnification. rewrite (Hmulti q eq_refl). simpl.
      by destruct (LabelQuestionStrategy_of tag).
  - intros s. apply RatingQuestionStrategy_of_value.
  - intros s. apply LabelQuestionStrategy_of_value.
  - intros s. apply MultiLabelQuestionStrategy_of_value.
Qed.

Lemma binding_checks_family_witness :
  let question := IsMultiLabelQuestion yes_no_multi_label_question in
  (raises (mk_RatingQuestionUnification question
             (Given (Member (OfMultiLabel MULTI_MAJORITY)))) ∧
   mk_LabelQuestionUnification question
     (Given (Member (OfMultiLabel MULTI_MAJORITY))) = Raise ValidationError) ∧
  mk_LabelQuestionUnification question (Given (Tag "majority")) =
    Ok {| label_question :=
            Single {| LabelQuestion_base := yes_no_multi_label_question |};
          label_strategy := OfLabel LABEL_MAJORITY |} ∧
  (∀ s, RatingQuestionStrategy_of "majority" = Some s ↔ rating_value s = "majority") ∧
  (∀ s, LabelQuestionStrategy_of "majority" = Some s ↔ label_value s = "majority") ∧
  (∀ s, MultiLabelQuestionStrategy_of "majority" = Some s ↔
        multi_label_value s = "majority").
Proof.
  apply (binding_checks_family (IsMultiLabelQuestion yes_no_multi_label_question)
           (OfMultiLabel MULTI_MAJORITY) "majority").
  right. exists "q", None, None, true,
    (MultiLabelConfig (LabelList ["yes"; "no"]) Omitted).
  reflexivity.
Defined.

(** * Further properties of the strategies *)

(** ** One form for all strategies *)

Lemma unify_normal_form {G : Type} (randbelow : G → nat → nat * G)
    (s : Strategy) (records : list FeedbackRecord) (field : FieldRef) (g : G) :
  Strategy_unify_responses randbelow s records field g =
  match accepted_name s field with
  | None =>
    {| records_after := records; returned := Raise ValueError; generator_after := g |}
  | Some name =>
    match strategy_body randbelow s name with
    | None =>
      {| records_after := records;
         returned := Raise NotImplementedError;
         generator_after := g |}
    | Some body =>
      then_return (for_each_record body records g) (strategy_return s records)
    end
  end.
Proof.
  destruct s as [[]|[]|[]], field as [n|[q|q|q|q]|]; reflexivity.
Qed.

Lemma body_rewrites {G : Type} (randbelow : G → nat → nat * G) (s : Strategy)
    (name : string) (body : FeedbackRecord → G → result FeedbackRecord * G)
    (rec rec' : FeedbackRecord) (g0 g1 : G) :
  strategy_body randbelow s name = Some body →
  body rec g0 = (Ok rec', g1) → rewritten name rec rec'.
Proof.
  destruct s as [[]|[]|[]]; intros [= <-]; unfold pure_body;
    first [apply majority_record_rewrites|intros [= H _]; revert H];
    first [apply aggregate_record_rewrites
          |apply disagreement_record_rewrites
          |apply multi_label_majority_record_rewrites].
Qed.

Lemma deterministic_body {G : Type} (randbelow : G → nat → nat * G) (s : Strategy)
    (name : string) (body : FeedbackRecord → G → result FeedbackRecord * G) :
  deterministic s →
  strategy_body randbelow s name = Some body →
  ∃ b, body = pure_body b.
Proof.
  intros [Hr Hl]. destruct s as [[]|[]|[]]; intros [= <-]; try done; by eexists.
Qed.

(** A loop writes a prefix of the list: the records before some position
    went through the body, the others are left as they were. *)
Lemma for_each_record_prefix {G : Type}
    (body : FeedbackRecord → G → result FeedbackRecord * G)
    (records : list FeedbackRecord) (g : G) :
  ∃ k,
    (k ≤ length records)%nat ∧
    Forall2 (λ r r', ∃ g0 g1, body r g0 = (Ok r', g1))
      (take k records) (take k (for_each_record body records g).1.1) ∧
    drop k (for_each_record body records g).1.1 = drop k records ∧
    ((for_each_record body records g).1.2 = None → k = length records).
Proof.
  revert g. induction records as [|rec rest IH]; intros g; simpl.
  - exists 0%nat. split_and!; [done|constructor|done|done].
  - destruct (body rec g) as [[rec'|e] g1] eqn:Hrec; simpl.
    + destruct (IH g1) as (k & Hk & Hall & Hdrop & Hnone).
      destruct (for_each_record body rest g1) as [[rest' e] g'']; simpl in *.
      exists (S k). split_and!; [lia| |done|intros He; by rewrite Hnone].
      simpl. constructor; [by exists g, g1|done].
    + exists 0%nat. split_and!; [lia|constructor|done|done].
Qed.

Lemma for_each_record_length {G : Type}
    (body : FeedbackRecord → G → result FeedbackRecord * G)
    (records : list FeedbackRecord) (g : G) :
  length (for_each_record body records g).1.1 = length records.
Proof.
  revert g. induction records as [|rec rest IH]; intros g; simpl; [done|].
  destruct (body rec g) as [[rec'|e] g1]; simpl; [|done].
  specialize (IH g1).
  destruct (for_each_record body rest g1) as [[rest' e] g'']; simpl in *.
  by rewrite IH.
Qed.

Lemma then_return_records {G : Type} (loop : list FeedbackRecord * option PyExc * G)
    (ret : result Returned) :
  records_after (then_return loop ret) = loop.1.1 ∧
  generator_after (then_return loop ret) = loop.2 ∧
  returned (then_return loop ret) =
    match loop.1.2 with Some e => Raise e | None => ret end.
Proof. by destruct loop as [[records e] g]. Qed.

Lemma rewritten_same_but_unified (name : string) (rec rec' : FeedbackRecord) :
  rewritten name rec rec' → same_but_unified rec rec'.
Proof. by intros [v ->]. Qed.

Lemma unify_frame {G : Type} (randbelow : G → nat → nat * G)
    (s : Strategy) (records : list FeedbackRecord) (field : FieldRef) (g : G) :
  let o := Strategy_unify_responses randbelow s records field g in
  length (records_after o) = length records ∧
  Forall2 same_but_unified records (records_after o).
Proof.
  cbn zeta. rewrite unify_normal_form.
  assert (Hsame : Forall2 same_but_unified records records).
  { apply Forall2_same_length_lookup_2; [done|].
    intros i x y Hx Hy. assert (x = y) as -> by congruence. done. }
  destruct (accepted_name s field) as [name|]; [|by split].
  destruct (strategy_body randbelow s name) as [body|] eqn:Hbody; [|by split].
  destruct (then_return_records (for_each_record body records g)
              (strategy_return s records)) as (-> & _ & _).
  split; [apply for_each_record_length|].
  destruct (for_each_record_prefix body records g) as (k & Hk & Hall & Hdrop & _).
  rewrite <- (take_drop k records) at 1.
  rewrite <- (take_drop k (for_each_record body records g).1.1).
  apply Forall2_app.
  - eapply Forall2_impl; [exact Hall|].
    intros rec rec' (g0 & g1 & Hrec).
    eapply rewritten_same_but_unified, body_rewrites; [exact Hbody|exact Hrec].
  - rewrite Hdrop. apply Forall2_same_length_lookup_2; [done|].
    intros i x y Hx Hy. assert (x = y) as -> by congruence. done.
Qed.

(** X1. Whatever the strategy, the field and the outcome (returned or
    raised), a call of [unify_responses] leaves as many records as it was
    given, and of each record it leaves the fields, the responses and the
    external id as they were: only the unified responses are ever
    assigned. *)
Theorem unify_keeps_the_rest {G : Type} (randbelow : G → nat → nat * G)
    (s : Strategy) (records : list FeedbackRecord) (field : FieldRef) (g : G) :
  let o := Strategy_unify_responses randbelow s records field g in
  length (records_after o) = length records ∧
  Forall2 same_but_unified records (records_after o).
Proof. apply unify_frame. Qed.

Lemma rewritten_written (name : string) (rec rec' : FeedbackRecord) :
  rewritten name rec rec' → written name rec rec'.
Proof. intros [v ->]. apply set_unified_responses_written. Qed.

(** X2. A call that raises in the middle of the list has written the records
    before the one it stopped at: each of them holds afterwards a dictionary
    of unified responses with the one entry of the question, and is
    otherwise as it was.  The record it stopped at and the later ones are
    untouched; a call that returns has written all of them. *)
Theorem unify_writes_a_prefix {G : Type} (randbelow : G → nat → nat * G)
    (s : Strategy) (records : list FeedbackRecord) (field : FieldRef)
    (name : string) (g : G) :
  accepted_name s field = Some name →
  let o := Strategy_unify_responses randbelow s records field g in
  ∃ k,
    (k ≤ length records)%nat ∧
    Forall2 (written name) (take k records) (take k (records_after o)) ∧
    drop k (records_after o) = drop k records ∧
    (∀ r, returned o = Ok r → k = length records).
Proof.
  intros Hname. cbn zeta. rewrite unify_normal_form, Hname.
  destruct (strategy_body randbelow s name) as [body|] eqn:Hbody.
  - destruct (then_return_records (for_each_record body records g)
                (strategy_return s records)) as (-> & _ & ->).
    destruct (for_each_record_prefix body records g) as (k & Hk & Hall & Hdrop & Hnone).
    exists k. split_and!; [done| |done|].
    + eapply Forall2_impl; [exact Hall|].
      intros rec rec' (g0 & g1 & Hrec). by eapply rewritten_written, body_rewrites.
    + intros r Hr. apply Hnone.
      by destruct (for_each_record body records g).1.2.
  - exists 0%nat. simpl. split_and!; [lia|constructor|done|done].
Qed.

Lemma unify_writes_a_prefix_witness :
  let o := Strategy_unify_responses counting_randbelow (OfRating MAX)
             [ratings_record; unanswered_record; ratings_record]
             (FieldName "q") 0%nat in
  ∃ k,
    (k ≤ length [ratings_record; unanswered_record; ratings_record])%nat ∧
    Forall2 (written "q")
      (take k [ratings_record; unanswered_record; ratings_record])
      (take k (records_after o)) ∧
    drop k (records_after o) =
      drop k [ratings_record; unanswered_record; ratings_record] ∧
    (∀ r, returned o = Ok r →
          k = length [ratings_record; unanswered_record; ratings_record]).
Proof.
  apply (unify_writes_a_prefix counting_randbelow (OfRating MAX)
           [ratings_record; unanswered_record; ratings_record]
           (FieldName "q") "q" 0%nat).
  reflexivity.
Defined.

(** ** The strategies read the submitted responses only *)

Lemma writes_alike_bind {G A : Type} (rec1 rec2 : FeedbackRecord) (r : result A)
    (f : A → gmap string Unified) (g : G) :
  writes_alike rec1 rec2
    (a ← r; Ok (set_unified_responses rec1 (f a)), g)
    (a ← r; Ok (set_unified_responses rec2 (f a)), g).
Proof. split; [done|]. destruct r as [a|e]; simpl; [by exists (f a)|done]. Qed.

Lemma aggregate_record_reads_submitted {G : Type} (self : RatingQuestionStrategy)
    (field : string) :
  reads_submitted_only (G := G) (pure_body (aggregate_record self field)).
Proof.
  intros rec1 rec2 g Hsub. unfold pure_body, aggregate_record. rewrite Hsub.
  destruct (collect _ _) as [ratings|e]; [simpl|by split].
  destruct (if decide _ then _ else _) as [v|e]; [simpl|by split].
  apply (writes_alike_bind rec1 rec2 _ (λ u, {[field := One u]})).
Qed.

Lemma multi_label_majority_record_reads_submitted {G : Type} (tag field : string) :
  reads_submitted_only (G := G) (pure_body (multi_label_majority_record tag field)).
Proof.
  intros rec1 rec2 g Hsub. unfold pure_body, multi_label_majority_record.
  rewrite Hsub. destruct (count_labels _ _ _) as [counter|e]; [simpl|by split].
  apply (writes_alike_bind rec1 rec2 _ (λ u, {[field := One u]})).
Qed.

Lemma disagreement_record_reads_submitted {G : Type} (tag field : string) :
  reads_submitted_only (G := G) (pure_body (disagreement_record tag field)).
Proof.
  intros rec1 rec2 g Hsub. unfold pure_body, disagreement_record. rewrite Hsub.
  apply (writes_alike_bind rec1 rec2 _ (λ us, {[field := Many us]})).
Qed.

Lemma majority_record_reads_submitted {G : Type} (randbelow : G → nat → nat * G)
    (tag field : string) :
  reads_submitted_only (majority_record randbelow tag field).
Proof.
  intros rec1 rec2 g Hsub. unfold majority_record. rewrite Hsub.
  destruct (count_values _ _ _) as [counter|e]; [|by split].
  destruct (max_count counter) as [m|e]; [|by split].
  destruct (if decide _ then _ else _) as [majority_value g'].
  destruct majority_value as [k|e]; [simpl|by split].
  apply (writes_alike_bind rec1 rec2 _ (λ u, {[field := Many [u]]})).
Qed.

Lemma body_reads_submitted {G : Type} (randbelow : G → nat → nat * G) (s : Strategy)
    (name : string) (body : FeedbackRecord → G → result FeedbackRecord * G) :
  strategy_body randbelow s name = Some body → reads_submitted_only body.
Proof.
  destruct s as [[]|[]|[]]; intros [= <-];
    first [apply majority_record_reads_submitted
          |apply aggregate_record_reads_submitted
          |apply disagreement_record_reads_submitted
          |apply multi_label_majority_record_reads_submitted].
Qed.

(** Two lists whose records have, position by position, the same submitted
    responses go through a loop alike: the same exception or none, the same
    generator, and, when the loop returns, the same dictionaries assigned. *)
Lemma for_each_record_alike {G : Type}
    (body : FeedbackRecord → G → result FeedbackRecord * G)
    (records1 records2 : list FeedbackRecord) (g : G) :
  reads_submitted_only body →
  Forall2 (λ r1 r2, submitted_responses r1 = submitted_responses r2)
    records1 records2 →
  (for_each_record body records1 g).1.2 = (for_each_record body records2 g).1.2 ∧
  (for_each_record body records1 g).2 = (for_each_record body records2 g).2 ∧
  ((for_each_record body records1 g).1.2 = None →
   ∃ ds, (for_each_record body records1 g).1.1 =
           zip_with set_unified_responses records1 ds ∧
         (for_each_record body records2 g).1.1 =
           zip_with set_unified_responses records2 ds ∧
         length ds = length records1).
Proof.
  intros Hbody Hall. revert g.
  induction Hall as [|r1 r2 rest1 rest2 Hsub _ IH]; intros g; simpl.
  - split_and!; [done..|]. intros _. by exists [].
  - destruct (Hbody r1 r2 g Hsub) as [Hg Hres].
    destruct (body r1 g) as [[r1'|e1] g1], (body r2 g) as [[r2'|e2] g2];
      simpl in *; subst; try done.
    destruct Hres as (d & -> & ->).
    destruct (IH g2) as (He & Hg' & Hds).
    destruct (for_each_record body rest1 g2) as [[rest1' e1] g1'],
             (for_each_record body rest2 g2) as [[rest2' e2] g2'].
    simpl in *. subst. split_and!; [done..|].
    intros He. destruct (Hds He) as (ds & -> & -> & Hlen).
    exists (d :: ds). simpl. by rewrite Hlen.
Qed.

Lemma loop_variable_length (records1 records2 : list FeedbackRecord) :
  length records1 = length records2 →
  loop_variable records1 = loop_variable records2.
Proof.
  destruct records1, records2; simpl; try done. by intros [= ->].
Qed.

Lemma strategy_return_length (s : Strategy) (records1 records2 : list FeedbackRecord) :
  length records1 = length records2 →
  strategy_return s records1 = strategy_return s records2.
Proof.
  intros Hlen. destruct s as [[]|[]|[]]; simpl; try done.
  by apply loop_variable_length.
Qed.

Lemma unified_responses_zip_with (records : list FeedbackRecord)
    (ds : list (gmap string Unified)) :
  length ds = length records →
  unified_responses <$> zip_with set_unified_responses records ds = Some <$> ds.
Proof.
  revert ds. induction records as [|rec rest IH]; intros [|d ds]; simpl; try done.
  intros [= Hlen]. by rewrite IH.
Qed.

Lemma zip_with_same_but_unified (records records' : list FeedbackRecord)
    (ds : list (gmap string Unified)) :
  Forall2 same_but_unified records records' →
  zip_with set_unified_responses records' ds =
  zip_with set_unified_responses records ds.
Proof.
  intros Hall. revert ds.
  induction Hall as [|r r' rest rest' (Hf & Hr & He) _ IH]; intros [|d ds];
    simpl; try done.
  rewrite IH. f_equal. unfold set_unified_responses. by rewrite Hf, Hr, He.
Qed.

Lemma same_but_unified_submitted (rec rec' : FeedbackRecord) :
  same_but_unified rec rec' → submitted_responses rec' = submitted_responses rec.
Proof. intros (_ & Hr & _). unfold submitted_responses. by rewrite Hr. Qed.

(** Two lists whose records have the same submitted responses go through a
    strategy alike. *)
Lemma unify_alike {G : Type} (randbelow : G → nat → nat * G) (s : Strategy)
    (records1 records2 : list FeedbackRecord) (field : FieldRef) (g : G) :
  Forall2 (λ r1 r2, submitted_responses r1 = submitted_responses r2)
    records1 records2 →
  let o1 := Strategy_unify_responses randbelow s records1 field g in
  let o2 := Strategy_unify_responses randbelow s records2 field g in
  returned o1 = returned o2 ∧
  generator_after o1 = generator_after o2 ∧
  (∀ r, returned o1 = Ok r →
     ∃ ds, records_after o1 = zip_with set_unified_responses records1 ds ∧
           records_after o2 = zip_with set_unified_responses records2 ds ∧
           length ds = length records1).
Proof.
  intros Hall. cbn zeta. rewrite !unify_normal_form.
  destruct (accepted_name s field) as [name|]; [|by split_and!].
  destruct (strategy_body randbelow s name) as [body|] eqn:Hbody; [|by split_and!].
  destruct (for_each_record_alike body records1 records2 g) as (He & Hg & Hds);
    [by eapply body_reads_submitted|done|].
  rewrite (strategy_return_length s records1 records2)
    by by eapply Forall2_length.
  destruct (then_return_records (for_each_record body records1 g)
              (strategy_return s records2)) as (-> & -> & ->).
  destruct (then_return_records (for_each_record body records2 g)
              (strategy_return s records2)) as (-> & -> & ->).
  rewrite <- He. split_and!; [done..|].
  intros r Hr. apply Hds.
  by destruct (for_each_record body records1 g).1.2.
Qed.

(** X3. The discarded responses play no part in any strategy: two lists of
    records that have, position by position, the same submitted responses
    give the same return value or exception, leave the same generator and,
    when the call returns, leave the same unified responses.  Neither the
    discarded responses nor the unified responses, the fields or the
    external id that a record had before are read. *)
Theorem unify_ignores_discarded {G : Type} (randbelow : G → nat → nat * G)
    (s : Strategy) (records1 records2 : list FeedbackRecord) (field : FieldRef)
    (g : G) :
  Forall2 (λ r1 r2, submitted_responses r1 = submitted_responses r2)
    records1 records2 →
  let o1 := Strategy_unify_responses randbelow s records1 field g in
  let o2 := Strategy_unify_responses randbelow s records2 field g in
  returned o1 = returned o2 ∧
  generator_after o1 = generator_after o2 ∧
  (∀ r, returned o1 = Ok r →
     unified_responses <$> records_after o1 = unified_responses <$> records_after o2).
Proof.
  intros Hall.
  destruct (unify_alike randbelow s records1 records2 field g Hall)
    as (Hret & Hg & Hds).
  cbn zeta. split_and!; [done..|].
  intros r Hr. destruct (Hds r Hr) as (ds & -> & -> & Hlen).
  rewrite !unified_responses_zip_with; [done| |done].
  by rewrite Hlen, (Forall2_length _ _ _ Hall).
Qed.

(** Without its discarded response, the record of the ratings. *)
Lemma unify_ignores_discarded_witness :
  let records1 := [ratings_record] in
  let records2 := [record [response submitted "q" (VInt 4);
                           response submitted "q" (VInt 5);
                           response submitted "q" (VInt 5)]] in
  let o1 := Strategy_unify_responses counting_randbelow (OfRating MAJORITY)
              records1 (FieldName "q") 0%nat in
  let o2 := Strategy_unify_responses counting_randbelow (OfRating MAJORITY)
              records2 (FieldName "q") 0%nat in
  returned o1 = returned o2 ∧
  generator_after o1 = generator_after o2 ∧
  (∀ r, returned o1 = Ok r →
     unified_responses <$> records_after o1 = unified_responses <$> records_after o2).
Proof.
  apply (unify_ignores_discarded counting_randbelow (OfRating MAJORITY)
           [ratings_record]
           [record [response submitted "q" (VInt 4);
                    response submitted "q" (VInt 5);
                    response submitted "q" (VInt 5)]]
           (FieldName "q") 0%nat).
  repeat constructor.
Defined.

Lemma unify_again {G : Type} (randbelow : G → nat → nat * G)
    (s1 s2 : Strategy) (records : list FeedbackRecord) (field1 field2 : FieldRef)
    (g : G) :
  let o1 := Strategy_unify_responses randbelow s1 records field1 g in
  let o2 := Strategy_unify_responses randbelow s2 (records_after o1) field2
              (generator_after o1) in
  let o2' := Strategy_unify_responses randbelow s2 records field2
               (generator_after o1) in
  returned o2 = returned o2' ∧
  generator_after o2 = generator_after o2' ∧
  (∀ r, returned o2 = Ok r → records_after o2 = records_after o2').
Proof.
  cbn zeta.
  destruct (unify_frame randbelow s1 records field1 g) as [_ Hframe].
  set (o1 := Strategy_unify_responses randbelow s1 records field1 g) in *.
  destruct (unify_alike randbelow s2 (records_after o1) records field2
              (generator_after o1)) as (Hret & Hg & Hds).
  { eapply Forall2_flip, Forall2_impl; [exact Hframe|].
    intros rec rec'. apply same_but_unified_submitted. }
  split_and!; [done..|].
  intros r Hr. destruct (Hds r Hr) as (ds & -> & -> & _).
  by apply zip_with_same_but_unified.
Qed.

(** X4. The last strategy wins: whatever a first call of a strategy did to
    the records (it returned, or it raised part-way), running a second
    strategy, for the same or for another question, on the records it left
    gives what the second strategy gives on the records as they were before
    the first, from the same generator: the same return value or exception
    and, when it returns, the very same records.  Nothing of a former
    unification survives or influences the next one. *)
Theorem unify_last_writer_wins {G : Type} (randbelow : G → nat → nat * G)
    (s1 s2 : Strategy) (records : list FeedbackRecord) (field1 field2 : FieldRef)
    (g : G) :
  let o1 := Strategy_unify_responses randbelow s1 records field1 g in
  let o2 := Strategy_unify_responses randbelow s2 (records_after o1) field2
              (generator_after o1) in
  let o2' := Strategy_unify_responses randbelow s2 records field2
               (generator_after o1) in
  returned o2 = returned o2' ∧
  generator_after o2 = generator_after o2' ∧
  (∀ r, returned o2 = Ok r → records_after o2 = records_after o2').
Proof. apply unify_again. Qed.

Lemma unify_last_writer_wins_witness :
  let o1 := Strategy_unify_responses counting_randbelow (OfRating MAX)
              [unified_record] (FieldName "other") 0%nat in
  let o2 := Strategy_unify_responses counting_randbelow (OfRating MIN)
              (records_after o1) (FieldName "q") (generator_after o1) in
  let o2' := Strategy_unify_responses counting_randbelow (OfRating MIN)
               [unified_record] (FieldName "q") (generator_after o1) in
  returned o2 = returned o2' ∧
  generator_after o2 = generator_after o2' ∧
  (∀ r, returned o2 = Ok r → records_after o2 = records_after o2').
Proof.
  exact (unify_last_writer_wins counting_randbelow (OfRating MAX) (OfRating MIN)
           [unified_record] (FieldName "other") (FieldName "q") 0%nat).
Defined.

Lemma for_each_record_pure_generator {G : Type}
    (body : FeedbackRecord → result FeedbackRecord)
    (records : list FeedbackRecord) (g : G) :
  (for_each_record (pure_body body) records g).2 = g.
Proof.
  unfold pure_body. induction records as [|rec rest IH]; simpl; [done|].
  destruct (body rec) as [rec'|e]; [|done].
  by destruct (for_each_record _ rest g) as [[rest' e] g''].
Qed.

Lemma deterministic_generator {G : Type} (randbelow : G → nat → nat * G)
    (s : Strategy) (records : list FeedbackRecord) (field : FieldRef) (g : G) :
  deterministic s →
  generator_after (Strategy_unify_responses randbelow s records field g) = g.
Proof.
  intros Hdet. rewrite unify_normal_form.
  destruct (accepted_name s field) as [name|]; [|done].
  destruct (strategy_body randbelow s name) as [body|] eqn:Hbody; [|done].
  destruct (deterministic_body randbelow s name body Hdet Hbody) as [b ->].
  destruct (then_return_records (for_each_record (pure_body b) records g)
              (strategy_return s records)) as (_ & -> & _).
  apply for_each_record_pure_generator.
Qed.

(** X5. The strategies that draw no random number (all but the rating and the
    single-label majority) are idempotent: when a call has returned, the same
    call on the records it left returns the same and leaves the same
    records. *)
Theorem unify_idempotent {G : Type} (randbelow : G → nat → nat * G)
    (s : Strategy) (records : list FeedbackRecord) (field : FieldRef) (g : G)
    (r : Returned) :
  deterministic s →
  let o := Strategy_unify_responses randbelow s records field g in
  returned o = Ok r →
  Strategy_unify_responses randbelow s (records_after o) field (generator_after o) = o.
Proof.
  intros Hdet. cbn zeta. intros Hr.
  destruct (unify_again randbelow s s records field field g) as (Hret & Hg & Hrecs).
  rewrite (deterministic_generator randbelow s records field g Hdet) in *.
  set (o := Strategy_unify_responses randbelow s records field g) in *.
  rewrite Hr in Hret. specialize (Hrecs r Hret).
  destruct (Strategy_unify_responses randbelow s (records_after o) field g)
    as [recs ret g'].
  destruct o as [recs0 ret0 g0]. simpl in *. by subst.
Qed.

Lemma unify_idempotent_witness :
  let o := Strategy_unify_responses counting_randbelow (OfMultiLabel MULTI_MAJORITY)
             [xy_record] (FieldName "q") 0%nat in
  Strategy_unify_responses counting_randbelow (OfMultiLabel MULTI_MAJORITY)
    (records_after o) (FieldName "q") (generator_after o) = o.
Proof.
  apply (unify_idempotent counting_randbelow (OfMultiLabel MULTI_MAJORITY)
           [xy_record] (FieldName "q") 0%nat TheRecords).
  - by split.
  - reflexivity.
Defined.

(** ** The field argument and the strategies without reduction *)

(** X6. The [field] argument of [unify_responses]: a question stands for its
    name.  A rating strategy takes a string or a rating question; the
    strategies of both label families take a string, a label question or a
    multi-label question alike (the family of the question is not looked
    at); every other argument is refused with [ValueError] before any record
    is read or written. *)
Theorem unify_field_argument {G : Type} (randbelow : G → nat → nat * G)
    (s : Strategy) (records : list FeedbackRecord) (field : FieldRef) (g : G) :
  Strategy_unify_responses randbelow s records field g =
  match accepted_name s field with
  | Some name => Strategy_unify_responses randbelow s records (FieldName name) g
  | None =>
    {| records_after := records; returned := Raise ValueError; generator_after := g |}
  end.
Proof. destruct s as [[]|[]|[]], field as [n|[q|q|q|q]|]; reflexivity. Qed.

(** X7. [majority_weighted] has no reduction in either label family: with a
    field argument that is taken, the call raises [NotImplementedError] and
    no record is written, whatever the records. *)
Theorem majority_weighted_not_implemented {G : Type} (randbelow : G → nat → nat * G)
    (records : list FeedbackRecord) (field : FieldRef) (name : string) (g : G) :
  accepted_name (OfLabel LABEL_MAJORITY_WEIGHTED) field = Some name →
  Strategy_unify_responses randbelow (OfLabel LABEL_MAJORITY_WEIGHTED)
    records field g =
    {| records_after := records;
       returned := Raise NotImplementedError;
       generator_after := g |} ∧
  Strategy_unify_responses randbelow (OfMultiLabel MULTI_MAJORITY_WEIGHTED)
    records field g =
    {| records_after := records;
       returned := Raise NotImplementedError;
       generator_after := g |}.
Proof. destruct field as [n|[q|q|q|q]|]; by intros [= <-]. Qed.

Lemma majority_weighted_not_implemented_witness :
  Strategy_unify_responses counting_randbelow (OfLabel LABEL_MAJORITY_WEIGHTED)
    [aba_record] (FieldName "q") 0%nat =
    {| records_after := [aba_record];
       returned := Raise NotImplementedError;
       generator_after := 0%nat |} ∧
  Strategy_unify_responses counting_randbelow (OfMultiLabel MULTI_MAJORITY_WEIGHTED)
    [aba_record] (FieldName "q") 0%nat =
    {| records_after := [aba_record];
       returned := Raise NotImplementedError;
       generator_after := 0%nat |}.
Proof.
  apply (majority_weighted_not_implemented counting_randbelow [aba_record]
           (FieldName "q") "q" 0%nat).
  reflexivity.
Defined.

(** ** Responses without a value, or with a value of the wrong kind *)

Lemma response_value_Some (field : string) (resp : ResponseSchema) (v : Value) :
  values resp !! field = Some v → response_value field resp = Ok v.
Proof. unfold response_value. by intros ->. Qed.

Lemma response_value_None (field : string) (resp : ResponseSchema) :
  values resp !! field = None → response_value field resp = Raise KeyError.
Proof. unfold response_value. by intros ->. Qed.

Lemma collect_response_value_missing (field : string)
    (responses : list ResponseSchema) :
  (∃ resp, resp ∈ responses ∧ values resp !! field = None) →
  collect (response_value field) responses = Raise KeyError.
Proof.
  intros (resp & Hin & Hnone).
  induction responses as [|r rest IH]; [by apply elem_of_nil in Hin|].
  cbn [collect].
  destruct (values r !! field) as [v|] eqn:Hr;
    [rewrite (response_value_Some _ _ _ Hr)|by rewrite (response_value_None _ _ Hr)].
  simpl. apply elem_of_cons in Hin as [->|Hin]; [congruence|]. by rewrite IH.
Qed.

Lemma count_labels_missing (field : string) (responses : list ResponseSchema)
    (c : Counter) :
  (∃ resp, resp ∈ responses ∧ values resp !! field = None) →
  count_labels field responses c = Raise KeyError.
Proof.
  intros (resp & Hin & Hnone). revert c.
  induction responses as [|r rest IH]; intros c; [by apply elem_of_nil in Hin|].
  cbn [count_labels].
  destruct (values r !! field) as [v|] eqn:Hr;
    [rewrite (response_value_Some _ _ _ Hr)|by rewrite (response_value_None _ _ Hr)].
  simpl. apply elem_of_cons in Hin as [->|Hin]; [congruence|]. by apply IH.
Qed.

Lemma validate_value_obj_of_value (v : Value) :
  validate_value (obj_of_value v) = Ok v.
Proof.
  destruct v as [s|n|l]; simpl; [done..|]. do 2 f_equal.
  rewrite <- list_fmap_compose. by apply list_fmap_id.
Qed.

Lemma mk_UnificationValueSchema_value (v : Value) (tag : string) (s : Strategy) :
  validate_strategy tag = Ok s →
  mk_UnificationValueSchema (obj_of_value v) tag = Ok {| value := v; strategy := s |}.
Proof.
  intros Hs. unfold mk_UnificationValueSchema.
  by rewrite validate_value_obj_of_value, Hs.
Qed.

Lemma collect_disagreement_missing (tag field : string)
    (responses : list ResponseSchema) :
  is_tag tag →
  (∃ resp, resp ∈ responses ∧ values resp !! field = None) →
  collect (λ resp, v ← response_value field resp;
                   mk_UnificationValueSchema (obj_of_value v) tag)
    responses = Raise KeyError.
Proof.
  intros (s & Hs & _) (resp & Hin & Hnone).
  induction responses as [|r rest IH]; [by apply elem_of_nil in Hin|].
  cbn [collect].
  destruct (values r !! field) as [v|] eqn:Hr;
    [rewrite (response_value_Some _ _ _ Hr)|by rewrite (response_value_None _ _ Hr)].
  cbn [mbind result_bind].
  rewrite (mk_UnificationValueSchema_value _ _ _ Hs). cbn [mbind result_bind].
  apply elem_of_cons in Hin as [->|Hin]; [congruence|]. by rewrite IH.
Qed.

Lemma count_values_missing (field : string) (responses : list ResponseSchema)
    (c : Counter) :
  (∃ resp, resp ∈ responses ∧ values resp !! field = None) →
  count_values field responses c = Raise KeyError ∨
  count_values field responses c = Raise TypeError.
Proof.
  intros (resp & Hin & Hnone). revert c.
  induction responses as [|r rest IH]; intros c; [by apply elem_of_nil in Hin|].
  cbn [count_values].
  destruct (values r !! field) as [v|] eqn:Hr;
    [rewrite (response_value_Some _ _ _ Hr)
    |rewrite (response_value_None _ _ Hr); by left].
  destruct v as [s|n|l]; simpl; [| |by right];
    (apply elem_of_cons in Hin as [->|Hin]; [congruence|by apply IH]).
Qed.

Lemma count_values_list (field : string) (responses : list ResponseSchema)
    (c : Counter) :
  Forall (answers field) responses →
  (∃ resp l, resp ∈ responses ∧ values resp !! field = Some (VList l)) →
  count_values field responses c = Raise TypeError.
Proof.
  intros Hall (resp & l & Hin & Hlist). revert c.
  induction Hall as [|r rest [v Hr] _ IH]; intros c; [by apply elem_of_nil in Hin|].
  cbn [count_values]. rewrite (response_value_Some _ _ _ Hr).
  destruct v as [s|n|l']; simpl; [| |done];
    (apply elem_of_cons in Hin as [->|Hin]; [congruence|by apply IH]).
Qed.

(** The body of a strategy on a record one of whose submitted responses has
    no value for the question. *)
Lemma body_missing {G : Type} (randbelow : G → nat → nat * G) (s : Strategy)
    (name : string) (body : FeedbackRecord → G → result FeedbackRecord * G)
    (rec : FeedbackRecord) (g : G) :
  strategy_body randbelow s name = Some body →
  (∃ resp, resp ∈ submitted_responses rec ∧ values resp !! name = None) →
  body rec g = (Raise KeyError, g) ∨
  (¬ deterministic s ∧ body rec g = (Raise TypeError, g)).
Proof.
  intros Hbody Hmiss.
  assert (Hmajority : ∀ tag,
    majority_record randbelow tag name rec g = (Raise KeyError, g) ∨
    majority_record randbelow tag name rec g = (Raise TypeError, g)).
  { intros tag. unfold majority_record.
    destruct (count_values_missing name _ [] Hmiss) as [-> | ->]; [by left|by right]. }
  destruct s as [[]|[]|[]]; simpl in Hbody; try done;
    injection Hbody as <-; unfold pure_body.
  - left. unfold aggregate_record.
    by rewrite (collect_response_value_missing _ _ Hmiss).
  - destruct (Hmajority (rating_value MAJORITY)) as [H|H]; [by left|right].
    split; [|done]. intros [H1 _]. done.
  - left. unfold aggregate_record.
    by rewrite (collect_response_value_missing _ _ Hmiss).
  - left. unfold aggregate_record.
    by rewrite (collect_response_value_missing _ _ Hmiss).
  - destruct (Hmajority (label_value LABEL_MAJORITY)) as [H|H]; [by left|right].
    split; [|done]. intros [_ H2]. done.
  - left. unfold disagreement_record.
    rewrite collect_disagreement_missing; [done|by eexists|done].
  - left. unfold multi_label_majority_record.
    by rewrite (count_labels_missing _ _ _ Hmiss).
  - left. unfold disagreement_record.
    rewrite collect_disagreement_missing; [done|by eexists|done].
Qed.

(** X8. A submitted response without a value for the question makes every
    strategy that has a reduction raise when it reaches the record: called
    on a list that starts with such a record, it raises [KeyError] (the two
    drawing majorities raise [TypeError] instead when they meet a list value
    first), writes no record and draws no random number.  A discarded
    response without a value does no harm (X3). *)
Theorem unify_missing_value {G : Type} (randbelow : G → nat → nat * G)
    (s : Strategy) (rec : FeedbackRecord) (rest : list FeedbackRecord)
    (field : FieldRef) (name : string) (g : G) :
  implemented s →
  accepted_name s field = Some name →
  (∃ resp, resp ∈ submitted_responses rec ∧ values resp !! name = None) →
  let o := Strategy_unify_responses randbelow s (rec :: rest) field g in
  records_after o = rec :: rest ∧
  generator_after o = g ∧
  (returned o = Raise KeyError ∨
   (¬ deterministic s ∧ returned o = Raise TypeError)).
Proof.
  intros [Hl Hm] Hname Hmiss. cbn zeta. rewrite unify_normal_form, Hname.
  destruct (strategy_body randbelow s name) as [body|] eqn:Hbody;
    [|by destruct s as [[]|[]|[]]].
  cbn [for_each_record].
  destruct (body_missing randbelow s name body rec g Hbody Hmiss)
    as [-> | [Hdet ->]]; simpl; split_and!; try done; [by left|by right].
Qed.

(** A record whose second submitted response has no value for "q". *)
Lemma unify_missing_value_witness :
  let rec := record [response submitted "q" (VInt 4);
                     response submitted "other" (VInt 5)] in
  let o := Strategy_unify_responses counting_randbelow (OfRating MAX)
             (rec :: [ratings_record]) (FieldName "q") 0%nat in
  records_after o = rec :: [ratings_record] ∧
  generator_after o = 0%nat ∧
  (returned o = Raise KeyError ∨
   (¬ deterministic (OfRating MAX) ∧ returned o = Raise TypeError)).
Proof.
  apply (unify_missing_value counting_randbelow (OfRating MAX)
           (record [response submitted "q" (VInt 4);
                    response submitted "other" (VInt 5)])
           [ratings_record] (FieldName "q") "q" 0%nat).
  - by split.
  - reflexivity.
  - exists (response submitted "other" (VInt 5)). split; [|reflexivity].
    right. left.
Defined.

(** X9. The rating majority and the single-label majority count values as
    keys of a counter: on a record whose submitted responses all have a
    value for the question, one of them a list of labels, they raise
    [TypeError]; called on a list that starts with such a record, they write
    no record and draw no random number. *)
Theorem majority_list_value {G : Type} (randbelow : G → nat → nat * G)
    (rec : FeedbackRecord) (rest : list FeedbackRecord) (name : string) (g : G) :
  Forall (answers name) (submitted_responses rec) →
  (∃ resp l, resp ∈ submitted_responses rec ∧
             values resp !! name = Some (VList l)) →
  Strategy_unify_responses randbelow (OfRating MAJORITY) (rec :: rest)
    (FieldName name) g =
    {| records_after := rec :: rest;
       returned := Raise TypeError;
       generator_after := g |} ∧
  Strategy_unify_responses randbelow (OfLabel LABEL_MAJORITY) (rec :: rest)
    (FieldName name) g =
    {| records_after := rec :: rest;
       returned := Raise TypeError;
       generator_after := g |}.
Proof.
  intros Hall Hlist. rewrite !unify_normal_form.
  cbn [accepted_name strategy_body for_each_record]. unfold majority_record.
  by rewrite (count_values_list name _ [] Hall Hlist).
Qed.

Lemma majority_list_value_witness :
  Strategy_unify_responses counting_randbelow (OfRating MAJORITY)
    (xy_record :: [aba_record]) (FieldName "q") 0%nat =
    {| records_after := xy_record :: [aba_record];
       returned := Raise TypeError;
       generator_after := 0%nat |} ∧
  Strategy_unify_responses counting_randbelow (OfLabel LABEL_MAJORITY)
    (xy_record :: [aba_record]) (FieldName "q") 0%nat =
    {| records_after := xy_record :: [aba_record];
       returned := Raise TypeError;
       generator_after := 0%nat |}.
Proof.
  apply (majority_list_value counting_randbelow xy_record [aba_record] "q" 0%nat).
  - repeat constructor; by eexists.
  - exists (response submitted "q" (VList ["x"; "y"])), ["x"; "y"].
    split; [left|reflexivity].
Defined.

(** ** Disagreement *)

Lemma for_each_record_pure_map {G : Type}
    (body : FeedbackRecord → result FeedbackRecord)
    (f : FeedbackRecord → FeedbackRecord)
    (records : list FeedbackRecord) (g : G) :
  (∀ rec, rec ∈ records → body rec = Ok (f rec)) →
  for_each_record (pure_body body) records g = (f <$> records, None, g).
Proof.
  unfold pure_body. induction records as [|rec rest IH]; intros Hbody; [done|].
  cbn [for_each_record]. rewrite Hbody by left. rewrite IH; [done|].
  intros r Hr. apply Hbody. by right.
Qed.

Lemma collect_disagreement_answers (tag field : string)
    (responses : list ResponseSchema) (s : Strategy) :
  validate_strategy tag = Ok s →
  Forall (answers field) responses →
  collect (λ resp, v ← response_value field resp;
                   mk_UnificationValueSchema (obj_of_value v) tag)
    responses =
  Ok ((λ v, {| value := v; strategy := s |}) <$> omap (answer field) responses).
Proof.
  intros Hs. induction 1 as [|r rest [v Hr] _ IH]; [done|].
  cbn [collect omap list_omap]. unfold answer at 1.
  rewrite (response_value_Some _ _ _ Hr), Hr. cbn [mbind result_bind].
  rewrite (mk_UnificationValueSchema_value _ _ _ Hs). cbn [mbind result_bind].
  by rewrite IH.
Qed.

Lemma omap_answers_length (field : string) (responses : list ResponseSchema) :
  Forall (answers field) responses →
  length (omap (answer field) responses) = length responses.
Proof.
  induction 1 as [|r rest [v Hr] _ IH]; [done|].
  cbn [omap list_omap]. unfold answer at 1. rewrite Hr. simpl. by rewrite IH.
Qed.

Lemma disagreement_outcome {G : Type} (randbelow : G → nat → nat * G)
    (records : list FeedbackRecord) (name : string) (g : G) :
  Forall (λ rec, Forall (answers name) (submitted_of rec)) records →
  let kept :=
    {| records_after :=
         (λ rec, set_unified_responses rec {[name := Many (disagreement_of name rec)]})
           <$> records;
       returned := Ok (NewList []);
       generator_after := g |} in
  Strategy_unify_responses randbelow (OfLabel LABEL_DISAGREEMENT) records
    (FieldName name) g = kept ∧
  Strategy_unify_responses randbelow (OfMultiLabel MULTI_DISAGREEMENT) records
    (FieldName name) g = kept.
Proof.
  intros Hall. cbn zeta. rewrite Forall_forall in Hall.
  assert (Hloop : ∀ tag, validate_strategy tag = Ok (OfLabel LABEL_DISAGREEMENT) →
    for_each_record (pure_body (disagreement_record tag name)) records g =
    ((λ rec, set_unified_responses rec {[name := Many (disagreement_of name rec)]})
       <$> records, None, g)).
  { intros tag Htag. apply for_each_record_pure_map. intros rec Hrec.
    unfold disagreement_record. rewrite submitted_responses_of.
    by rewrite (collect_disagreement_answers _ _ _ _ Htag (Hall rec Hrec)). }
  rewrite !unify_normal_form. cbn [accepted_name strategy_body strategy_return].
  by rewrite !Hloop.
Qed.

(** X10. [disagreement] reduces nothing: when every submitted response has a
    value for the question, the call returns, and afterwards the unified
    responses of each record hold, under the name of the question and under
    no other, a list with one unification value for each submitted response,
    in the order of the responses and with the value of the response
    unchanged; the discarded responses contribute nothing.  Both label
    families leave the same records (the tag resolves to the same member),
    and both return the empty list of their own. *)
Theorem disagreement_keeps_every_answer {G : Type} (randbelow : G → nat → nat * G)
    (records : list FeedbackRecord) (name : string) (g : G) :
  Forall (λ rec, Forall (answers name) (submitted_of rec)) records →
  let single := Strategy_unify_responses randbelow (OfLabel LABEL_DISAGREEMENT)
                  records (FieldName name) g in
  let multi := Strategy_unify_responses randbelow (OfMultiLabel MULTI_DISAGREEMENT)
                 records (FieldName name) g in
  returned single = Ok (NewList []) ∧
  generator_after single = g ∧
  multi = single ∧
  unified_responses <$> records_after single =
    (λ rec, Some {[name := Many (disagreement_of name rec)]}) <$> records ∧
  Forall (λ rec, length (disagreement_of name rec) = length (submitted_of rec))
    records.
Proof.
  intros Hall. cbn zeta.
  destruct (disagreement_outcome randbelow records name g Hall) as [-> ->].
  split_and!; [done..| |].
  - simpl. by rewrite <- list_fmap_compose.
  - eapply Forall_impl; [exact Hall|]. intros rec Hrec. unfold disagreement_of.
    rewrite length_fmap. by apply omap_answers_length.
Qed.

Lemma disagreement_keeps_every_answer_witness :
  let records := [xy_discarded_record; aba_discarded_record] in
  let single := Strategy_unify_responses counting_randbelow (OfLabel LABEL_DISAGREEMENT)
                  records (FieldName "q") 0%nat in
  let multi := Strategy_unify_responses counting_randbelow
                 (OfMultiLabel MULTI_DISAGREEMENT) records (FieldName "q") 0%nat in
  returned single = Ok (NewList []) ∧
  generator_after single = 0%nat ∧
  multi = single ∧
  unified_responses <$> records_after single =
    (λ rec, Some {["q" := Many (disagreement_of "q" rec)]}) <$> records ∧
  Forall (λ rec, length (disagreement_of "q" rec) = length (submitted_of rec))
    records.
Proof.
  apply (disagreement_keeps_every_answer counting_randbelow
           [xy_discarded_record; aba_discarded_record] "q" 0%nat).
  repeat constructor; by eexists.
Defined.

(** ** Majority without a tie *)

Lemma occurrences_le `{EqDecision A} (x : A) (l : list A) :
  (occurrences x l ≤ length l)%nat.
Proof. unfold occurrences. apply length_filter. Qed.

Lemma occurrences_two `{EqDecision A} (x y : A) (l : list A) :
  x ≠ y → (occurrences x l + occurrences y l ≤ length l)%nat.
Proof.
  intros Hne. unfold occurrences. induction l as [|z l IH]; [done|].
  rewrite !filter_cons. repeat case_decide; simpl; subst; try done; lia.
Qed.

Lemma votes_length (field : string) (rec : FeedbackRecord) :
  (length (votes field rec) ≤ length (submitted_of rec))%nat.
Proof.
  unfold votes. induction (submitted_of rec) as [|resp rest IH]; [done|].
  rewrite bind_cons, length_app. unfold vote at 1.
  destruct (values resp !! field) as [[s|n|l]|]; simpl; lia.
Qed.

(** The values of largest count in the counter of the votes of a record. *)
Lemma tied_values_spec (field : string) (rec : FeedbackRecord) :
  Forall (answers_scalar field) (submitted_of rec) →
  submitted_of rec ≠ [] →
  ∃ m, max_count (tally (votes field rec) []) = Ok m ∧
       NoDup (values_with_count m (tally (votes field rec) [])) ∧
       (∀ k, k ∈ values_with_count m (tally (votes field rec) []) ↔
             attains_max field rec k) ∧
       (∀ k, (k, m) ∈ tally (votes field rec) [] →
             k ∈ values_with_count m (tally (votes field rec) [])).
Proof.
  intros Hall Hne. set (c := tally (votes field rec) []).
  assert (Hwf : counter_wf c) by apply counter_wf_tally, counter_wf_nil.
  assert (Hget : ∀ k, counter_get k c = frequency field rec k).
  { intros k. unfold c. by rewrite counter_get_tally. }
  destruct (max_count_spec c) as (m & Hm & Hmax & (kn & Hkn & Hknm)).
  { by apply tally_nonempty, votes_nonempty. }
  exists m. split; [done|]. set (tied := values_with_count m c).
  assert (Hpos : (0 < m)%nat).
  { destruct kn as [k n]. apply (counter_items _ _ _ Hwf) in Hkn. simpl in *. lia. }
  assert (Htied : ∀ k, k ∈ tied ↔ (k, m) ∈ c).
  { intros k. unfold tied, values_with_count. rewrite list_elem_of_fmap. split.
    - by intros ([k' n] & -> & [<- Hin]%list_elem_of_filter).
    - intros Hin. exists (k, m). split; [done|]. by apply list_elem_of_filter. }
  split_and!.
  - apply NoDup_counter_filter, Hwf.
  - intros k. rewrite Htied, (counter_items _ _ _ Hwf), Hget. unfold attains_max.
    split.
    + intros [_ Hk]. split; [lia|]. intros k'. rewrite Hk.
      destruct (decide (0 < frequency field rec k')%nat) as [Hk'|]; [|lia].
      apply (Hmax (k', frequency field rec k')).
      apply counter_items; [done|]. by rewrite Hget.
    + intros [Hk Hall']. split; [done|]. apply Nat.le_antisymm.
      * apply (Hmax (k, frequency field rec k)).
        apply counter_items; [done|]. by rewrite Hget.
      * destruct kn as [k' n]. simpl in *. subst n.
        apply (counter_items _ _ _ Hwf) in Hkn as [_ <-]. rewrite Hget. apply Hall'.
  - intros k. apply Htied.
Qed.

Lemma NoDup_all_equal `{EqDecision A} (x : A) (l : list A) :
  NoDup l → (∀ y, y ∈ l → y = x) → (length l ≤ 1)%nat.
Proof.
  destruct l as [|a [|b l]]; simpl; [lia..|].
  intros [Hnin _]%NoDup_cons Hall. exfalso. apply Hnin.
  rewrite (Hall a), (Hall b); [left|right; left|left].
Qed.

(** A record with one most frequent value: it is stored, and no random
    number is drawn. *)
Lemma majority_record_unique {G : Type} (randbelow : G → nat → nat * G)
    (tag field : string) (rec : FeedbackRecord) (k : Key) (s : Strategy) (g : G) :
  validate_strategy tag = Ok s →
  Forall (answers_scalar field) (submitted_of rec) →
  attains_max field rec k →
  (∀ k', attains_max field rec k' → k' = k) →
  majority_record randbelow tag field rec g =
  (Ok (set_unified_responses rec
         {[field := Many [{| value := value_of_key k; strategy := s |}]]}), g).
Proof.
  intros Hs Hall Hk Huniq. unfold majority_record.
  rewrite submitted_responses_of.
  rewrite (count_values_tally _ _ _ Hall). fold (votes field rec).
  destruct (tied_values_spec field rec Hall) as (m & Hm & Hnd & Htied & Hitems).
  { intros Hnil. destruct Hk as [Hk _]. unfold frequency, votes, occurrences in Hk.
    rewrite Hnil in Hk. simpl in Hk. lia. }
  rewrite Hm.
  rewrite decide_False.
  - destruct (most_common_1_spec _ m Hm) as (k0 & -> & Hk0).
    rewrite (Huniq k0) by by apply Htied, Hitems.
    by rewrite (store_majority _ _ _ _ _ Hs).
  - pose proof (NoDup_all_equal k _ Hnd) as Hlen.
    intros Hlt. apply Nat.lt_nge in Hlt. apply Hlt, Hlen.
    intros k' Hk'. by apply Huniq, Htied.
Qed.

Lemma strict_majority_unique (field : string) (rec : FeedbackRecord) (k : Key) :
  (length (submitted_of rec) < 2 * frequency field rec k)%nat →
  attains_max field rec k ∧ ∀ k', attains_max field rec k' → k' = k.
Proof.
  intros Hk. pose proof (votes_length field rec) as Hlen.
  assert (Hother : ∀ k', k' ≠ k →
            (frequency field rec k' < frequency field rec k)%nat).
  { intros k' Hne. pose proof (occurrences_two k' k (votes field rec) Hne).
    unfold frequency in *. lia. }
  split.
  - split; [lia|]. intros k'. destruct (decide (k' = k)) as [->|Hne]; [done|].
    specialize (Hother k' Hne). lia.
  - intros k' [_ Hmax]. destruct (decide (k' = k)) as [->|Hne]; [done|].
    specialize (Hother k' Hne). specialize (Hmax k). lia.
Qed.

Lemma for_each_record_total_same_generator {G : Type}
    (body : FeedbackRecord → G → result FeedbackRecord * G)
    (P : FeedbackRecord → FeedbackRecord → Prop)
    (records : list FeedbackRecord) (g : G) :
  (∀ rec, rec ∈ records → ∃ rec', body rec g = (Ok rec', g) ∧ P rec rec') →
  ∃ records',
    for_each_record body records g = (records', None, g) ∧
    Forall2 P records records'.
Proof.
  induction records as [|rec rest IH]; intros Hbody; simpl.
  - exists []. split; [done|constructor].
  - destruct (Hbody rec) as (rec' & Hrec & HP); [by left|].
    rewrite Hrec.
    destruct IH as (rest' & Hrest & Hall).
    { intros r Hr. apply Hbody. by right. }
    rewrite Hrest. exists (rec' :: rest'). split; [done|]. by constructor.
Qed.

(** X11. When in every record one value alone attains the largest frequency
    among the submitted responses, the rating majority and the single-label
    majority store that value and draw no random number: afterwards the
    unified responses of each record hold the value, as a list of one
    unification value under the name of the question, the generator is left
    as it was and the result does not depend on it. *)
Theorem majority_without_tie_draws_nothing {G : Type}
    (randbelow : G → nat → nat * G) (records : list FeedbackRecord)
    (name : string) (g : G) :
  Forall (λ rec, Forall (answers_scalar name) (submitted_of rec) ∧
                 ∃ k, attains_max name rec k ∧
                      ∀ k', attains_max name rec k' → k' = k) records →
  let stored rec rec' :=
    ∃ k, attains_max name rec k ∧
         unified_responses rec' =
           Some {[name := Many [{| value := value_of_key k;
                                   strategy := OfRating MAJORITY |}]]} in
  let rating := Strategy_unify_responses randbelow (OfRating MAJORITY) records
                  (FieldName name) g in
  let single := Strategy_unify_responses randbelow (OfLabel LABEL_MAJORITY) records
                  (FieldName name) g in
  generator_after rating = g ∧ generator_after single = g ∧
  returned rating = Ok TheRecords ∧
  Forall2 stored records (records_after rating) ∧
  records_after single = records_after rating.
Proof.
  intros Hall. cbn zeta. rewrite Forall_forall in Hall.
  rewrite !unify_normal_form. cbn [accepted_name strategy_body strategy_return].
  change (label_value LABEL_MAJORITY) with (rating_value MAJORITY).
  match goal with
  | |- _ ∧ _ ∧ _ ∧ Forall2 ?P _ _ ∧ _ =>
    destruct (for_each_record_total_same_generator
                (majority_record randbelow (rating_value MAJORITY) name) P records g)
      as (records' & -> & Hrecords); [|by split_and!]
  end.
  intros rec Hrec. destruct (Hall rec Hrec) as (Hscalar & k & Hk & Huniq).
  eexists. split; [by apply majority_record_unique|]. by exists k.
Qed.

Lemma majority_without_tie_draws_nothing_witness :
  let stored rec rec' :=
    ∃ k, attains_max "q" rec k ∧
         unified_responses rec' =
           Some {["q" := Many [{| value := value_of_key k;
                                  strategy := OfRating MAJORITY |}]]} in
  let rating := Strategy_unify_responses counting_randbelow (OfRating MAJORITY)
                  [aba_discarded_record] (FieldName "q") 0%nat in
  let single := Strategy_unify_responses counting_randbelow (OfLabel LABEL_MAJORITY)
                  [aba_discarded_record] (FieldName "q") 0%nat in
  generator_after rating = 0%nat ∧ generator_after single = 0%nat ∧
  returned rating = Ok TheRecords ∧
  Forall2 stored [aba_discarded_record] (records_after rating) ∧
  records_after single = records_after rating.
Proof.
  apply (majority_without_tie_draws_nothing counting_randbelow
           [aba_discarded_record] "q" 0%nat).
  repeat constructor.
  exists (KStr "a").
  apply (strict_majority_unique "q" aba_discarded_record (KStr "a")).
  vm_compute. lia.
Defined.

(** X12. A value given by more than half of the submitted responses of a
    record always wins the rating majority and the single-label majority:
    it is the value that the unified responses of the record hold
    afterwards, whatever the generator, which is not drawn from. *)
Theorem strict_majority_wins {G : Type} (randbelow : G → nat → nat * G)
    (records : list FeedbackRecord) (name : string) (g : G) :
  Forall (λ rec, Forall (answers_scalar name) (submitted_of rec) ∧
                 ∃ k, (length (submitted_of rec) <
                       2 * frequency name rec k)%nat) records →
  let stored rec rec' :=
    ∃ k, (length (submitted_of rec) < 2 * frequency name rec k)%nat ∧
         unified_responses rec' =
           Some {[name := Many [{| value := value_of_key k;
                                   strategy := OfRating MAJORITY |}]]} in
  let rating := Strategy_unify_responses randbelow (OfRating MAJORITY) records
                  (FieldName name) g in
  let single := Strategy_unify_responses randbelow (OfLabel LABEL_MAJORITY) records
                  (FieldName name) g in
  generator_after rating = g ∧ generator_after single = g ∧
  Forall2 stored records (records_after rating) ∧
  Forall2 stored records (records_after single).
Proof.
  intros Hall. cbn zeta. rewrite Forall_forall in Hall.
  rewrite !unify_normal_form. cbn [accepted_name strategy_body strategy_return].
  change (label_value LABEL_MAJORITY) with (rating_value MAJORITY).
  match goal with
  | |- _ ∧ _ ∧ Forall2 ?P _ _ ∧ _ =>
    destruct (for_each_record_total_same_generator
                (majority_record randbelow (rating_value MAJORITY) name) P records g)
      as (records' & -> & Hrecords); [|by split_and!]
  end.
  intros rec Hrec. destruct (Hall rec Hrec) as (Hscalar & k & Hk).
  destruct (strict_majority_unique name rec k Hk) as [Hmax Huniq].
  eexists. split; [by apply majority_record_unique|]. by exists k.
Qed.

Lemma strict_majority_wins_witness :
  let stored rec rec' :=
    ∃ k, (length (submitted_of rec) < 2 * frequency "q" rec k)%nat ∧
         unified_responses rec' =
           Some {["q" := Many [{| value := value_of_key k;
                                  strategy := OfRating MAJORITY |}]]} in
  let rating := Strategy_unify_responses counting_randbelow (OfRating MAJORITY)
                  [aba_discarded_record; ratings_record] (FieldName "q") 0%nat in
  let single := Strategy_unify_responses counting_randbelow (OfLabel LABEL_MAJORITY)
                  [aba_discarded_record; ratings_record] (FieldName "q") 0%nat in
  generator_after rating = 0%nat ∧ generator_after single = 0%nat ∧
  Forall2 stored [aba_discarded_record; ratings_record] (records_after rating) ∧
  Forall2 stored [aba_discarded_record; ratings_record] (records_after single).
Proof.
  apply (strict_majority_wins counting_randbelow [aba_discarded_record; ratings_record]
           "q" 0%nat).
  repeat constructor.
  - exists (KStr "a"). vm_compute. lia.
  - exists (KInt 5). vm_compute. lia.
Defined.

(** ** Rating aggregates on every list *)

(** X13. On records whose submitted responses rate the question (at least
    one submitted response in each), [max] stores in every record the
    largest and [min] the smallest of the submitted ratings: afterwards the
    unified responses of the record hold it under the name of the question,
    as one unification value that is not wrapped in a list; both return the
    list of records.  The ratings of discarded responses are not among those
    compared. *)
Theorem max_and_min_of_the_ratings {G : Type} (randbelow : G → nat → nat * G)
    (records : list FeedbackRecord) (name : string) (g : G) :
  Forall (λ rec, submitted_of rec ≠ [] ∧
                 Forall (answers_rating name) (submitted_of rec)) records →
  let largest := Strategy_unify_responses randbelow (OfRating MAX) records
                   (FieldName name) g in
  let smallest := Strategy_unify_responses randbelow (OfRating MIN) records
                    (FieldName name) g in
  returned largest = Ok TheRecords ∧ returned smallest = Ok TheRecords ∧
  Forall2
    (λ rec rec', ∃ hi,
       unified_responses rec' =
         Some {[name := One {| value := VInt hi; strategy := OfRating MAX |}]} ∧
       hi ∈ ratings name rec ∧ ∀ x, x ∈ ratings name rec → (x ≤ hi)%Z)
    records (records_after largest) ∧
  Forall2
    (λ rec rec', ∃ lo,
       unified_responses rec' =
         Some {[name := One {| value := VInt lo; strategy := OfRating MIN |}]} ∧
       lo ∈ ratings name rec ∧ ∀ x, x ∈ ratings name rec → (lo ≤ x)%Z)
    records (records_after smallest).
Proof.
  intros Hall. cbn zeta. rewrite Forall_forall in Hall.
  rewrite !unify_normal_form. cbn [accepted_name strategy_body strategy_return].
  match goal with
  | |- _ ∧ _ ∧ Forall2 ?P _ _ ∧ Forall2 ?Q _ _ =>
    destruct (for_each_record_pure_total (G := G) (aggregate_record MAX name)
                P records g) as (records1 & -> & Hrecords1);
    [|destruct (for_each_record_pure_total (G := G) (aggregate_record MIN name)
                  Q records g) as (records2 & -> & Hrecords2); [|by split_and!]]
  end.
  - intros rec Hrec. destruct (Hall rec Hrec) as [Hne Hrate].
    destruct (max_min_stored name rec Hne Hrate)
      as (hi & lo & -> & _ & Hhi & _ & Hbounds).
    eexists. split; [done|]. exists hi. split_and!; [done..|].
    intros x Hx. by apply Hbounds.
  - intros rec Hrec. destruct (Hall rec Hrec) as [Hne Hrate].
    destruct (max_min_stored name rec Hne Hrate)
      as (hi & lo & _ & -> & _ & Hlo & Hbounds).
    eexists. split; [done|]. exists lo. split_and!; [done..|].
    intros x Hx. by apply Hbounds.
Qed.

Lemma max_and_min_of_the_ratings_witness :
  let largest := Strategy_unify_responses counting_randbelow (OfRating MAX)
                   [ratings_record] (FieldName "q") 0%nat in
  let smallest := Strategy_unify_responses counting_randbelow (OfRating MIN)
                    [ratings_record] (FieldName "q") 0%nat in
  returned largest = Ok TheRecords ∧ returned smallest = Ok TheRecords ∧
  Forall2
    (λ rec rec', ∃ hi,
       unified_responses rec' =
         Some {["q" := One {| value := VInt hi; strategy := OfRating MAX |}]} ∧
       hi ∈ ratings "q" rec ∧ ∀ x, x ∈ ratings "q" rec → (x ≤ hi)%Z)
    [ratings_record] (records_after largest) ∧
  Forall2
    (λ rec rec', ∃ lo,
       unified_responses rec' =
         Some {["q" := One {| value := VInt lo; strategy := OfRating MIN |}]} ∧
       lo ∈ ratings "q" rec ∧ ∀ x, x ∈ ratings "q" rec → (lo ≤ x)%Z)
    [ratings_record] (records_after smallest).
Proof.
  apply (max_and_min_of_the_ratings counting_randbelow [ratings_record] "q" 0%nat).
  repeat constructor; done.
Defined.

Lemma for_each_record_first_raises {G : Type}
    (body : FeedbackRecord → G → result FeedbackRecord * G)
    (rec : FeedbackRecord) (rest : list FeedbackRecord) (g : G) (e : PyExc) (g' : G) :
  body rec g = (Raise e, g') →
  for_each_record body (rec :: rest) g = (rec :: rest, Some e, g').
Proof. intros Hrec. simpl. by rewrite Hrec. Qed.

(** X14. A rating binding constructed without a strategy holds [mean], and
    [mean] never writes: run for the bound question on any list of records
    that is not empty, it raises and leaves every record as it was (no
    submitted rating, a rating that is no integer, a response without the
    value, or else the float that the unification value refuses). *)
Theorem default_rating_binding_never_writes {G : Type}
    (randbelow : G → nat → nat * G) (question : RatingQuestion)
    (rec : FeedbackRecord) (rest : list FeedbackRecord) (g : G) :
  mk_RatingQuestionUnification (IsRatingQuestion question) Omitted =
    Ok {| rating_question := question; rating_strategy := MEAN |} ∧
  let o := Strategy_unify_responses randbelow (OfRating MEAN) (rec :: rest)
             (FieldQuestion (IsRatingQuestion question)) g in
  raises (returned o) ∧ records_after o = rec :: rest ∧ generator_after o = g.
Proof.
  split; [done|]. cbn zeta. rewrite unify_normal_form.
  cbn [accepted_name strategy_body].
  pose proof (mean_never_stored (name question) rec) as Hmean.
  destruct (aggregate_record MEAN (name question) rec) as [rec'|e] eqn:Hrec; [done|].
  by rewrite (for_each_record_first_raises _ rec rest g e g)
    by (unfold pure_body; by rewrite Hrec).
Qed.

(** ** Records with one response *)

#[global] Instance Ok_inj {A : Type} : Inj (=) (=) (@Ok A).
Proof. by intros ?? [=]. Qed.

Lemma for_each_record_one {G : Type}
    (body : FeedbackRecord → G → result FeedbackRecord * G)
    (rec rec' : FeedbackRecord) (g g' : G) :
  body rec g = (Ok rec', g') →
  for_each_record body [rec] g = ([rec'], None, g').
Proof. intros Hrec. simpl. by rewrite Hrec. Qed.

Lemma one_response_outcomes {G : Type} (randbelow : G → nat → nat * G)
    (fields : gmap string string) (resp : ResponseSchema)
    (external_id : option string) (name : string) (v : Value) (g : G) :
  status resp = submitted →
  values resp !! name = Some v →
  let rec := mk_FeedbackRecord fields (OneResponse resp) external_id in
  let unify s := Strategy_unify_responses randbelow s [rec] (FieldName name) g in
  let stores u ret :=
    {| records_after := [set_unified_responses rec {[name := u]}];
       returned := Ok ret;
       generator_after := g |} in
  responses rec = [resp] ∧
  unify (OfRating MAX) =
    stores (One {| value := v; strategy := OfRating MAX |}) TheRecords ∧
  unify (OfRating MIN) =
    stores (One {| value := v; strategy := OfRating MIN |}) TheRecords ∧
  unify (OfLabel LABEL_DISAGREEMENT) =
    stores (Many [{| value := v; strategy := OfLabel LABEL_DISAGREEMENT |}])
      (NewList []) ∧
  match v with
  | VList l =>
    ∃ accepted,
      unify (OfMultiLabel MULTI_MAJORITY) =
        stores (One {| value := VList accepted; strategy := OfRating MAJORITY |})
          TheRecords ∧
      NoDup accepted ∧ ∀ x, x ∈ accepted ↔ x ∈ l
  | _ =>
    unify (OfRating MAJORITY) =
      stores (Many [{| value := v; strategy := OfRating MAJORITY |}]) TheRecords ∧
    unify (OfLabel LABEL_MAJORITY) =
      stores (Many [{| value := v; strategy := OfRating MAJORITY |}]) (TheRecord 0)
  end.
Proof.
  intros Hstatus Hv. cbn zeta.
  set (rec := mk_FeedbackRecord fields (OneResponse resp) external_id).
  assert (Hsub : submitted_responses rec = [resp]).
  { unfold submitted_responses. simpl. rewrite filter_cons, decide_True by done.
    done. }
  assert (Hsub' : submitted_of rec = [resp]) by exact Hsub.
  assert (Hval : response_value name resp = Ok v) by by apply response_value_Some.
  assert (Hpure : ∀ s body u ret,
    accepted_name s (FieldName name) = Some name →
    strategy_body randbelow s name = Some (pure_body body) →
    strategy_return s [rec] = Ok ret →
    body rec = Ok (set_unified_responses rec {[name := u]}) →
    Strategy_unify_responses randbelow s [rec] (FieldName name) g =
    {| records_after := [set_unified_responses rec {[name := u]}];
       returned := Ok ret;
       generator_after := g |}).
  { intros s body u ret Hname Hbody Hret Hrec.
    rewrite unify_normal_form, Hname, Hbody, Hret.
    by rewrite (for_each_record_one _ rec (set_unified_responses rec {[name := u]}) g g)
      by (unfold pure_body; by rewrite Hrec). }
  split; [done|]. split_and!.
  - apply (Hpure _ (aggregate_record MAX name)); try done.
    unfold aggregate_record. rewrite Hsub. cbn [collect]. rewrite Hval. simpl.
    unfold mk_UnificationValueSchema. by rewrite validate_value_obj_of_value.
  - apply (Hpure _ (aggregate_record MIN name)); try done.
    unfold aggregate_record. rewrite Hsub. cbn [collect]. rewrite Hval. simpl.
    unfold mk_UnificationValueSchema. by rewrite validate_value_obj_of_value.
  - apply (Hpure _ (disagreement_record (label_value LABEL_DISAGREEMENT) name));
      try done.
    unfold disagreement_record. rewrite Hsub. cbn [collect]. rewrite Hval.
    cbn [mbind result_bind].
    by rewrite (mk_UnificationValueSchema_value v _ (OfLabel LABEL_DISAGREEMENT)).
  - assert (Hmajority : ∀ k, v = value_of_key k →
      majority_record randbelow (rating_value MAJORITY) name rec g =
      (Ok (set_unified_responses rec
             {[name := Many [{| value := v; strategy := OfRating MAJORITY |}]]}), g)).
    { intros k ->. unfold majority_record. rewrite Hsub. cbn [count_values].
      rewrite Hval. by destruct k. }
    destruct v as [s|n|l].
    + rewrite !unify_normal_form. cbn [accepted_name strategy_body strategy_return].
      change (label_value LABEL_MAJORITY) with (rating_value MAJORITY).
      by rewrite (for_each_record_one _ _ _ _ _ (Hmajority (KStr s) eq_refl)).
    + rewrite !unify_normal_form. cbn [accepted_name strategy_body strategy_return].
      change (label_value LABEL_MAJORITY) with (rating_value MAJORITY).
      by rewrite (for_each_record_one _ _ _ _ _ (Hmajority (KInt n) eq_refl)).
    + destruct (multi_label_majority_record_spec
                  (multi_label_value MULTI_MAJORITY) name rec)
        as (accepted & u & Hrec & Hu & _ & Hnd & Hacc).
      { apply validate_strategy_multi_label. }
      { rewrite Hsub'. repeat constructor. unfold answers_labels. by rewrite Hv. }
      assert (Hstrategy : strategy u = OfRating MAJORITY).
      { unfold multi_label_majority_record, mk_UnificationValueSchema in Hrec.
        destruct (count_labels _ _ _) as [c|]; [|done]. simpl in Hrec.
        apply (inj Ok), (f_equal unified_responses) in Hrec. simpl in Hrec.
        apply (inj Some), (f_equal (λ m : gmap string Unified, m !! name)) in Hrec.
        rewrite !lookup_singleton_eq in Hrec. by injection Hrec as <-. }
      exists accepted. split_and!; [|done|].
      * destruct u as [uv us]. cbn [value strategy] in Hu, Hstrategy. subst uv us.
        by apply (Hpure _ (multi_label_majority_record
                             (multi_label_value MULTI_MAJORITY) name)).
      * intros x. rewrite Hacc, Hsub'. unfold label_frequency. rewrite Hsub'.
        rewrite bind_cons, app_nil_r. unfold chosen_labels. rewrite Hv.
        rewrite <- occurrences_pos. simpl. lia.
Qed.

(** X15. A record constructed with one response in place of a list has the
    list of that one response, and when the response is submitted its value
    is the consensus.  After [max], [min] and [disagreement] the unified
    responses of the record hold the value as it is; after the rating and
    the single-label majority they hold it when it is a string or an
    integer, and no number is drawn; after the multi-label majority, whose
    threshold is then one, they hold the labels of a list value, each
    once. *)
Theorem one_response_is_the_consensus {G : Type} (randbelow : G → nat → nat * G)
    (fields : gmap string string) (resp : ResponseSchema)
    (external_id : option string) (name : string) (v : Value) (g : G) :
  status resp = submitted →
  values resp !! name = Some v →
  let rec := mk_FeedbackRecord fields (OneResponse resp) external_id in
  let unify s := Strategy_unify_responses randbelow s [rec] (FieldName name) g in
  let holds o u ret :=
    unified_responses <$> records_after o = [Some {[name := u]}] ∧
    returned o = Ok ret ∧
    generator_after o = g in
  responses rec = [resp] ∧
  holds (unify (OfRating MAX))
    (One {| value := v; strategy := OfRating MAX |}) TheRecords ∧
  holds (unify (OfRating MIN))
    (One {| value := v; strategy := OfRating MIN |}) TheRecords ∧
  holds (unify (OfLabel LABEL_DISAGREEMENT))
    (Many [{| value := v; strategy := OfLabel LABEL_DISAGREEMENT |}]) (NewList []) ∧
  match v with
  | VList l =>
    ∃ accepted,
      holds (unify (OfMultiLabel MULTI_MAJORITY))
        (One {| value := VList accepted; strategy := OfRating MAJORITY |})
        TheRecords ∧
      NoDup accepted ∧ ∀ x, x ∈ accepted ↔ x ∈ l
  | _ =>
    holds (unify (OfRating MAJORITY))
      (Many [{| value := v; strategy := OfRating MAJORITY |}]) TheRecords ∧
    holds (unify (OfLabel LABEL_MAJORITY))
      (Many [{| value := v; strategy := OfRating MAJORITY |}]) (TheRecord 0)
  end.
Proof.
  intros Hstatus Hv. cbn zeta.
  destruct (one_response_outcomes randbelow fields resp external_id name v g
              Hstatus Hv) as (Hresp & -> & -> & -> & Hmajority).
  split_and!; [done..|].
  destruct v as [s|n|l].
  - by destruct Hmajority as [-> ->].
  - by destruct Hmajority as [-> ->].
  - destruct Hmajority as (accepted & -> & Hnd & Hacc). by exists accepted.
Qed.

Lemma one_response_is_the_consensus_witness :
  let rec := mk_FeedbackRecord ∅ (OneResponse (response submitted "q" (VInt 4))) None in
  let unify s :=
    Strategy_unify_responses counting_randbelow s [rec] (FieldName "q") 0%nat in
  let holds o u ret :=
    unified_responses <$> records_after o = [Some {["q" := u]}] ∧
    returned o = Ok ret ∧
    generator_after o = 0%nat in
  responses rec = [response submitted "q" (VInt 4)] ∧
  holds (unify (OfRating MAX))
    (One {| value := VInt 4; strategy := OfRating MAX |}) TheRecords ∧
  holds (unify (OfRating MIN))
    (One {| value := VInt 4; strategy := OfRating MIN |}) TheRecords ∧
  holds (unify (OfLabel LABEL_DISAGREEMENT))
    (Many [{| value := VInt 4; strategy := OfLabel LABEL_DISAGREEMENT |}])
    (NewList []) ∧
  holds (unify (OfRating MAJORITY))
    (Many [{| value := VInt 4; strategy := OfRating MAJORITY |}]) TheRecords ∧
  holds (unify (OfLabel LABEL_MAJORITY))
    (Many [{| value := VInt 4; strategy := OfRating MAJORITY |}]) (TheRecord 0).
Proof.
  apply (one_response_is_the_consensus counting_randbelow ∅
           (response submitted "q" (VInt 4)) None "q" (VInt 4) 0%nat);
    reflexivity.
Defined.

(** ** Bindings and the strategies they hold *)

Lemma binds_inv (question : AllowedQuestionTypes) (strategy : Arg StrategyArg)
    (u : Unification) :
  binds question strategy u →
  let single_label b :=
    match strategy with
    | Omitted => label_strategy b = OfLabel LABEL_MAJORITY
    | Given (Tag t) => ∃ m, label_strategy b = OfLabel m ∧ label_value m = t
    | Given (Member m) => label_strategy b = m ∧ ∃ m', m = OfLabel m'
    end in
  match question, u with
  | IsRatingQuestion q, RatingUnification b =>
    rating_question b = q ∧
    match strategy with
    | Omitted => rating_strategy b = MEAN
    | Given (Tag t) => rating_value (rating_strategy b) = t
    | Given (Member m) => OfRating (rating_strategy b) = m
    end
  | IsLabelQuestion q, LabelUnification b =>
    label_question b = Single q ∧ single_label b
  | IsMultiLabelQuestion q, LabelUnification b =>
    match LabelQuestion_validate q with
    | Ok q' => label_question b = Single q' ∧ single_label b
    | Raise _ =>
      label_question b = Multi q ∧
      match strategy with
      | Omitted => label_strategy b = OfMultiLabel MULTI_MAJORITY
      | Given (Tag t) =>
        ∃ m, label_strategy b = OfMultiLabel m ∧ multi_label_value m = t
      | Given (Member m) => label_strategy b = m ∧ ∃ m', m = OfMultiLabel m'
      end
    end
  | _, _ => False
  end.
Proof.
  cbn zeta. intros [(b & Hb & ->)|(b & Hb & ->)].
  - unfold mk_RatingQuestionUnification in Hb.
    destruct question as [q|q|q|q];
      destruct strategy as [|[t|[m|m|m]]]; simpl in Hb; try done;
      try (by destruct (RatingQuestionStrategy_of t)).
    + by injection Hb as <-.
    + destruct (RatingQuestionStrategy_of t) as [m|] eqn:Ht; [|done].
      injection Hb as <-. split; [done|]. by apply RatingQuestionStrategy_of_value.
    + by injection Hb as <-.
  - unfold mk_LabelQuestionUnification in Hb.
    destruct question as [q|q|q|q]; try done.
    + destruct strategy as [|[t|[m|m|m]]]; simpl in Hb; try done.
      * by injection Hb as <-.
      * destruct (LabelQuestionStrategy_of t) as [m|] eqn:Ht; [|done].
        injection Hb as <-. split; [done|]. exists m. split; [done|].
        by apply LabelQuestionStrategy_of_value.
      * injection Hb as <-. split; [done|]. split; [done|]. by exists m.
    + destruct (LabelQuestion_validate q) as [q'|e];
        destruct strategy as [|[t|[m|m|m]]]; simpl in Hb; try done.
      * by injection Hb as <-.
      * destruct (LabelQuestionStrategy_of t) as [m|] eqn:Ht; [|done].
        injection Hb as <-. split; [done|]. exists m. split; [done|].
        by apply LabelQuestionStrategy_of_value.
      * injection Hb as <-. split; [done|]. split; [done|]. by exists m.
      * by injection Hb as <-.
      * destruct (MultiLabelQuestionStrategy_of t) as [m|] eqn:Ht; [|done].
        injection Hb as <-. split; [done|]. exists m. split; [done|].
        by apply MultiLabelQuestionStrategy_of_value.
      * injection Hb as <-. split; [done|]. split; [done|]. by exists m.
Qed.

(** X16. What a binding holds.  A rating binding holds the rating question
    it was given.  A label binding that a constructor returns for a question
    out of a constructor holds a [LabelQuestion] and a member of
    [LabelQuestionStrategy], never a [MultiLabelQuestion] and never a member
    of [MultiLabelQuestionStrategy]: the label question it was given, or the
    label question with the fields of the multi-label question it was given.
    A member given is the member held, a string given is the value of the
    member held, and the defaults are [mean] and [majority]. *)
Theorem bindings_hold_label_questions (question : AllowedQuestionTypes)
    (strategy : Arg StrategyArg) (u : Unification) :
  constructed question →
  binds question strategy u →
  match u with
  | RatingUnification b => question = IsRatingQuestion (rating_question b)
  | LabelUnification b =>
    (∃ m, label_strategy b = OfLabel m) ∧
    match question with
    | IsLabelQuestion q => label_question b = Single q
    | IsMultiLabelQuestion q =>
      label_question b = Single {| LabelQuestion_base := q |}
    | _ => False
    end
  end ∧
  match strategy with
  | Omitted =>
    strategy_value (Unification_strategy u) =
    match u with RatingUnification _ => "mean" | LabelUnification _ => "majority" end
  | Given (Tag t) => strategy_value (Unification_strategy u) = t
  | Given (Member m) => Unification_strategy u = m
  end.
Proof.
  intros Hquestion Hu. apply binds_inv in Hu. cbn zeta in Hu.
  destruct question as [q|q|q|q], u as [b|b]; try done.
  - destruct Hu as [Hq Hs]. split; [by rewrite Hq|].
    destruct strategy as [|[t|m]]; simpl; by rewrite ?Hs.
  - destruct Hu as [Hq Hs]. destruct strategy as [|[t|m]]; simpl.
    + rewrite Hs. split; [|done]. split; [by eexists|done].
    + destruct Hs as (m & -> & <-). split; [|done]. split; [by eexists|done].
    + destruct Hs as (-> & m' & ->). split; [|done]. split; [by eexists|done].
  - rewrite (constructed_multi_label_question q Hquestion) in Hu.
    destruct Hu as [Hq Hs]. destruct strategy as [|[t|m]]; simpl.
    + rewrite Hs. split; [|done]. split; [by eexists|done].
    + destruct Hs as (m & -> & <-). split; [|done]. split; [by eexists|done].
    + destruct Hs as (-> & m' & ->). split; [|done]. split; [by eexists|done].
Qed.

Lemma bindings_hold_label_questions_witness :
  let b := {| label_question :=
                Single {| LabelQuestion_base := yes_no_multi_label_question |};
              label_strategy := OfLabel LABEL_DISAGREEMENT |} in
  ((∃ m, label_strategy b = OfLabel m) ∧
   label_question b = Single {| LabelQuestion_base := yes_no_multi_label_question |}) ∧
  strategy_value (Unification_strategy (LabelUnification b)) = "disagreement".
Proof.
  apply (bindings_hold_label_questions
           (IsMultiLabelQuestion yes_no_multi_label_question)
           (Given (Tag "disagreement"))
           (LabelUnification
              {| label_question :=
                   Single {| LabelQuestion_base := yes_no_multi_label_question |};
                 label_strategy := OfLabel LABEL_DISAGREEMENT |})).
  - right. exists "q", None, None, true,
      (MultiLabelConfig (LabelList ["yes"; "no"]) Omitted).
    reflexivity.
  - right. eexists. split; reflexivity.
Defined.

(** X17. The strategy of a binding takes the question of the binding: for
    every binding that a constructor returns, running the bound strategy
    with the bound question as field is running it with the name of the
    question; the question is never refused as a field. *)
Theorem bound_strategy_takes_bound_question {G : Type}
    (randbelow : G → nat → nat * G) (question : AllowedQuestionTypes)
    (strategy : Arg StrategyArg) (u : Unification)
    (records : list FeedbackRecord) (g : G) :
  binds question strategy u →
  ∃ name,
    field_name_of (FieldQuestion (Unification_question u)) = Some name ∧
    accepted_name (Unification_strategy u) (FieldQuestion (Unification_question u)) =
      Some name ∧
    Strategy_unify_responses randbelow (Unification_strategy u) records
      (FieldQuestion (Unification_question u)) g =
    Strategy_unify_responses randbelow (Unification_strategy u) records
      (FieldName name) g.
Proof.
  intros Hu. apply binds_inv in Hu. cbn zeta in Hu.
  assert (Hsingle : ∀ b q,
    label_question b = Single q →
    match strategy with
    | Omitted => label_strategy b = OfLabel LABEL_MAJORITY
    | Given (Tag t) => ∃ m, label_strategy b = OfLabel m ∧ label_value m = t
    | Given (Member m) => label_strategy b = m ∧ ∃ m', m = OfLabel m'
    end →
    ∃ name,
      field_name_of (FieldQuestion (Unification_question (LabelUnification b))) =
        Some name ∧
      accepted_name (Unification_strategy (LabelUnification b))
        (FieldQuestion (Unification_question (LabelUnification b))) = Some name ∧
      Strategy_unify_responses randbelow (Unification_strategy (LabelUnification b))
        records (FieldQuestion (Unification_question (LabelUnification b))) g =
      Strategy_unify_responses randbelow (Unification_strategy (LabelUnification b))
        records (FieldName name) g).
  { intros b q Hq Hs. simpl. rewrite Hq. exists (name q).
    assert (∃ m, label_strategy b = OfLabel m) as [m ->].
    { destruct strategy as [|[t|m]].
      + by eexists.
      + destruct Hs as (m & -> & _). by eexists.
      + destruct Hs as (-> & m' & ->). by eexists. }
    split; [done|]. split; [done|]. by destruct m. }
  destruct question as [q|q|q|q], u as [b|b]; try done.
  - destruct Hu as [Hq Hs]. simpl. rewrite Hq. exists (name q).
    split; [done|]. split; [done|]. by destruct (rating_strategy b).
  - destruct Hu as [Hq Hs]. by eapply Hsingle.
  - destruct (LabelQuestion_validate q) as [q'|e].
    + destruct Hu as [Hq Hs]. by eapply Hsingle.
    + destruct Hu as [Hq Hs]. simpl. rewrite Hq. exists (name q).
      assert (∃ m, label_strategy b = OfMultiLabel m) as [m ->].
      { destruct strategy as [|[t|m]].
        + by eexists.
        + destruct Hs as (m & -> & _). by eexists.
        + destruct Hs as (-> & m' & ->). by eexists. }
      split; [done|]. split; [done|]. by destruct m.
Qed.

Lemma bound_strategy_takes_bound_question_witness :
  let u := LabelUnification
             {| label_question :=
                  Single {| LabelQuestion_base := yes_no_multi_label_question |};
                label_strategy := OfLabel LABEL_MAJORITY |} in
  ∃ name,
    field_name_of (FieldQuestion (Unification_question u)) = Some name ∧
    accepted_name (Unification_strategy u) (FieldQuestion (Unification_question u)) =
      Some name ∧
    Strategy_unify_responses counting_randbelow (Unification_strategy u) [aba_record]
      (FieldQuestion (Unification_question u)) 0%nat =
    Strategy_unify_responses counting_randbelow (Unification_strategy u) [aba_record]
      (FieldName name) 0%nat.
Proof.
  apply (bound_strategy_takes_bound_question counting_randbelow
           (IsMultiLabelQuestion yes_no_multi_label_question) Omitted
           (LabelUnification
              {| label_question :=
                   Single {| LabelQuestion_base := yes_no_multi_label_question |};
                 label_strategy := OfLabel LABEL_MAJORITY |})
           [aba_record] 0%nat).
  right. eexists. split; reflexivity.
Defined.

(** ** Tags of the unification values *)

(** X18. The tag of a unification value is resolved in the order of the
    union of the three enumerations: the value of every strategy resolves
    to a member of the same value, but never to a member of
    [MultiLabelQuestionStrategy]; the unification values of the label and
    multi-label majority carry [RatingQuestionStrategy.MAJORITY], and those
    of both disagreements [LabelQuestionStrategy.DISAGREEMENT].  A string
    that is the value of no member is refused. *)
Theorem tags_resolve_in_union_order (s : Strategy) (tag : string) :
  (∃ s', validate_strategy (strategy_value s) = Ok s' ∧
         strategy_value s' = strategy_value s ∧
         ∀ m, s' ≠ OfMultiLabel m) ∧
  validate_strategy "majority" = Ok (OfRating MAJORITY) ∧
  validate_strategy "disagreement" = Ok (OfLabel LABEL_DISAGREEMENT) ∧
  match validate_strategy tag with
  | Ok s' => strategy_value s' = tag
  | Raise e => e = ValidationError ∧ ∀ s', strategy_value s' ≠ tag
  end.
Proof.
  split_and!; [|done|done|].
  - destruct s as [[]|[]|[]]; eexists; (split; [reflexivity|]); by split.
  - unfold validate_strategy.
    destruct (RatingQuestionStrategy_of tag) as [m|] eqn:Hr.
    { by apply RatingQuestionStrategy_of_value. }
    destruct (LabelQuestionStrategy_of tag) as [m|] eqn:Hl.
    { by apply LabelQuestionStrategy_of_value. }
    destruct (MultiLabelQuestionStrategy_of tag) as [m|] eqn:Hm.
    { by apply MultiLabelQuestionStrategy_of_value. }
    split; [done|]. intros [m|m|m] Htag; simpl in Htag.
    + apply RatingQuestionStrategy_of_value in Htag. congruence.
    + apply LabelQuestionStrategy_of_value in Htag. congruence.
    + apply MultiLabelQuestionStrategy_of_value in Htag. congruence.
Qed.

(** ** Questions that were constructed *)

(** X19. A rating question that is constructed keeps its arguments: its
    name is the name given, its values are the values given, in their
    order, at least two and pairwise distinct; its settings are the type
    "rating" and one option for each value, in the order of the values, and
    nothing else. *)
Theorem rating_question_constructed (the_name : string)
    (the_title description : option string) (required : bool) (values : list Z)
    (q : RatingQuestion) :
  mk_RatingQuestion the_name the_title description required values = Ok q →
  rating_values q = values ∧
  (2 ≤ length values)%nat ∧ NoDup values ∧
  name q = the_name ∧
  settings q !! "type" = Some (SettingStr "rating") ∧
  settings q !! "options" =
    Some (SettingOptions ((λ v, [("value", VInt v)]) <$> values)) ∧
  dom (settings q) = {["type"; "options"]}.
Proof.
  unfold mk_RatingQuestion, unique_min_2.
  destruct (decide (2 ≤ length values)%nat) as [Hlen|]; [|done].
  destruct (decide (NoDup values)) as [Hnd|]; [|done].
  intros [= <-]. simpl. by split_and!.
Qed.

Lemma rating_question_constructed_witness :
  ∃ q, mk_RatingQuestion "relevant" None None true [1; 2; 3; 4; 5] = Ok q ∧
       rating_values q = [1; 2; 3; 4; 5] ∧
       (2 ≤ length [1; 2; 3; 4; 5])%nat ∧ NoDup [1; 2; 3; 4; 5] ∧
       name q = "relevant" ∧
       settings q !! "type" = Some (SettingStr "rating") ∧
       settings q !! "options" =
         Some (SettingOptions ((λ v, [("value", VInt v)]) <$> [1; 2; 3; 4; 5])) ∧
       dom (settings q) = {["type"; "options"]}.
Proof.
  eexists. split; [reflexivity|].
  apply (rating_question_constructed "relevant" None None true [1; 2; 3; 4; 5]).
  reflexivity.
Defined.

(** The labels that the field [labels] keeps: a dictionary as given, a list
    of distinct labels as given, and the dictionary of a list in which a
    label comes twice; in every case at least two labels with pairwise
    distinct display texts. *)
Lemma validate_labels_Ok (the_labels validated : Labels) :
  validate_labels the_labels = Ok validated →
  match the_labels with
  | LabelDict d => validated = LabelDict d
  | LabelList l =>
    if decide (NoDup l) then validated = LabelList l
    else ∃ d, dict_of_list l = Some d ∧ validated = LabelDict d
  end ∧
  (2 ≤ length (display_texts validated))%nat ∧
  NoDup (display_texts validated).
Proof.
  assert (Hdict : ∀ d, labels_dict_must_be_valid (LabelDict d) = Ok validated →
            validated = LabelDict d ∧
            (2 ≤ length (display_texts validated))%nat ∧
            NoDup (display_texts validated)).
  { intros d Hd. simpl in Hd.
    destruct (decide (1 < length d.*1)%nat) as [Hlen|]; [|done].
    destruct (decide (length (remove_dups d.*2) = length d.*2)) as [Hnd|]; [|done].
    injection Hd as <-. simpl. rewrite length_fmap in Hlen.
    split_and!; [done|rewrite length_fmap; lia|by apply remove_dups_length_NoDup]. }
  destruct the_labels as [l|d]; cbn [validate_labels]; [|apply Hdict].
  pose proof (unique_min_2_raises l) as Hunique.
  destruct (unique_min_2 l) as [l'|e] eqn:Hl.
  - simpl. intros [= <-].
    unfold unique_min_2 in Hl.
    destruct (decide (2 ≤ length l)%nat) as [Hlen|]; [|done].
    destruct (decide (NoDup l)) as [Hnd|]; [|done].
    injection Hl as <-. by split_and!.
  - destruct (dict_of_list l) as [d|] eqn:Hd; [|done].
    intros (-> & Hlen & Hnd)%Hdict. split; [|done].
    destruct (decide (NoDup l)) as [Hl'|Hl']; [|by exists d].
    exfalso. apply dict_of_list_length in Hd. simpl in Hlen, Hunique.
    rewrite length_fmap in Hlen.
    destruct Hunique as [Hunique _]. destruct (Hunique I); [lia|done].
Qed.

Lemma mk__LabelQuestion_inv (default_settings : gmap string Setting)
    (the_name : string) (the_title : option Title) (description : option string)
    (required : bool) (the_labels : Labels) (visible : Arg (option Z))
    (q : _LabelQuestion) :
  mk__LabelQuestion default_settings the_name the_title description required
    the_labels visible = Ok q →
  validate_labels the_labels = Ok (labels q) ∧
  validate_visible_labels visible = Ok (visible_labels q) ∧
  name q = the_name ∧
  settings q = update_settings default_settings (labels q) (visible_labels q).
Proof.
  unfold mk__LabelQuestion.
  destruct (validate_labels the_labels) as [ls|] eqn:Hls; [|done].
  destruct (validate_visible_labels visible) as [vl|] eqn:Hvl; [|done].
  by intros [= <-].
Qed.

Lemma update_settings_lookup (default_settings : gmap string Setting)
    (labels : Labels) (visible : option Z) :
  update_settings default_settings labels visible !! "options" =
    Some (SettingOptions (label_options labels)) ∧
  update_settings default_settings labels visible !! "visible_options" =
    Some (match visible with Some n => SettingInt n | None => SettingNone end) ∧
  update_settings default_settings labels visible !! "type" =
    default_settings !! "type".
Proof.
  unfold update_settings. split_and!.
  - rewrite lookup_insert_ne by done. destruct labels; apply lookup_insert_eq.
  - apply lookup_insert_eq.
  - rewrite lookup_insert_ne by done. destruct labels; by rewrite lookup_insert_ne.
Qed.

(** X20. A label or multi-label question that is constructed has the name
    given and keeps a dictionary of labels, and a list of pairwise distinct
    labels, as given.  A list in which a label comes twice is constructed
    only when [dict] takes it (every label has two characters), and the
    question then holds that dictionary in place of the list.  In every
    case the question has at least two labels, with pairwise distinct
    display texts, and its settings follow from its fields: the type of its
    class, one option for each label it holds, in their order, and under
    "visible_options" the number of visible labels of the question, which is
    [None], the number given (at least 3), or 20 when none is given. *)
Theorem label_question_constructed (the_name : string)
    (the_title description : option string) (required : bool) (the_labels : Labels)
    (visible : Arg (option Z)) (multi : bool) (q : _LabelQuestion) :
  (if multi
   then q' ← mk_MultiLabelQuestion the_name the_title description required
               the_labels visible;
        Ok (MultiLabelQuestion_base q')
   else q' ← mk_LabelQuestion the_name the_title description required
               the_labels visible;
        Ok (LabelQuestion_base q')) = Ok q →
  name q = the_name ∧
  match the_labels with
  | LabelDict d => labels q = LabelDict d
  | LabelList l =>
    if decide (NoDup l) then labels q = LabelList l
    else ∃ d, dict_of_list l = Some d ∧ labels q = LabelDict d
  end ∧
  (2 ≤ length (display_texts (labels q)))%nat ∧
  NoDup (display_texts (labels q)) ∧
  visible_labels q =
    match visible with Omitted => Some 20 | Given x => x end ∧
  (∀ n, visible_labels q = Some n → (3 ≤ n)%Z) ∧
  settings q !! "type" =
    Some (SettingStr (if multi then "multi_label_selection" else "label_selection")) ∧
  settings q !! "options" = Some (SettingOptions (label_options (labels q))) ∧
  settings q !! "visible_options" =
    Some (match visible_labels q with Some n => SettingInt n | None => SettingNone end).
Proof.
  intros Hq.
  assert (∃ d, mk__LabelQuestion d the_name (TitleStr <$> the_title) description
                 required the_labels visible = Ok q ∧
               d !! "type" = Some (SettingStr (if multi then "multi_label_selection"
                                               else "label_selection")))
    as (d & Hmk & Hd).
  { destruct multi; unfold mk_MultiLabelQuestion, mk_LabelQuestion in Hq;
      destruct (mk__LabelQuestion _ _ _ _ _ _ _) as [q0|] eqn:Hmk; try done;
      injection Hq as <-; eexists; (split; [exact Hmk|done]). }
  destruct (mk__LabelQuestion_inv _ _ _ _ _ _ _ _ Hmk) as (Hl & Hv & Hn & Hs).
  destruct (validate_labels_Ok _ _ Hl) as (Hkept & Hlen & Hnd).
  destruct (update_settings_lookup d (labels q) (visible_labels q)) as (Ho & Hvo & Ht).
  rewrite Hs, Ho, Hvo, Ht, Hd. split_and!; try done.
  - destruct visible as [|[n|]]; simpl in Hv; [congruence| |congruence].
    case_decide; congruence.
  - intros n Hn'. rewrite Hn' in Hv.
    destruct visible as [|[n'|]]; simpl in Hv; [injection Hv as <-; lia| |done].
    case_decide; [|done]. injection Hv as <-. done.
Qed.

Lemma label_question_constructed_witness :
  ∃ q : _LabelQuestion,
       (q' ← mk_MultiLabelQuestion "content" None None true
               (LabelList ["ab"; "cd"; "ab"]) (Given (Some 4));
        Ok (MultiLabelQuestion_base q')) = Ok q ∧
       name q = "content" ∧
       (∃ d, dict_of_list ["ab"; "cd"; "ab"] = Some d ∧ labels q = LabelDict d) ∧
       (2 ≤ length (display_texts (labels q)))%nat ∧
       NoDup (display_texts (labels q)) ∧
       visible_labels q = Some 4 ∧
       (∀ n, visible_labels q = Some n → (3 ≤ n)%Z) ∧
       settings q !! "type" = Some (SettingStr "multi_label_selection") ∧
       settings q !! "options" = Some (SettingOptions (label_options (labels q))) ∧
       settings q !! "visible_options" =
         Some (match visible_labels q with
               | Some n => SettingInt n
               | None => SettingNone
               end).
Proof.
  eexists. split; [reflexivity|].
  apply (label_question_constructed "content" None None true
           (LabelList ["ab"; "cd"; "ab"]) (Given (Some 4)) true).
  reflexivity.
Defined.

(** ** Metrics *)

(** X21. [find_metric] returns the first metric of the id it is asked for:
    it answers with a metric exactly when the list splits into metrics of
    other ids, that metric, which has the id, and a rest; and it answers
    [None] exactly when no metric of the list has the id.  A later metric of
    the same id is never returned. *)
Theorem find_metric_first (metrics : list BaseMetric) (id : string) :
  (∀ metric,
     find_metric metrics id = Some metric ↔
     ∃ before after,
       metrics = before ++ metric :: after ∧
       metric_id metric = id ∧
       Forall (λ m, metric_id m ≠ id) before) ∧
  (find_metric metrics id = None ↔ Forall (λ m, metric_id m ≠ id) metrics).
Proof.
  induction metrics as [|m rest [IHsome IHnone]]; simpl.
  - split.
    + intros metric. split; [done|]. by intros ([|??] & ? & ? & _).
    + split; [constructor|done].
  - destruct (decide (metric_id m = id)) as [Hid|Hid].
    + split.
      * intros metric. split.
        -- intros [= <-]. exists [], rest. by split_and!.
        -- intros ([|m' before] & after & Heq & Hm & Hbefore).
           ++ by injection Heq as ->.
           ++ injection Heq as -> _. by apply Forall_cons in Hbefore as [? _].
      * split; [done|]. by intros [? _]%Forall_cons.
    + split.
      * intros metric. rewrite IHsome. split.
        -- intros (before & after & -> & Hm & Hbefore).
           exists (m :: before), after. split_and!; [done..|]. by constructor.
        -- intros ([|m' before] & after & Heq & Hm & Hbefore).
           ++ injection Heq as -> _. done.
           ++ injection Heq as -> ->. apply Forall_cons in Hbefore as [_ ?].
              by exists before, after.
      * rewrite IHnone. split; [by constructor|by intros [_ ?]%Forall_cons].
Qed.

Section AggregationRequests.
Context {Aggregation Script Float : Type}.
Variable terms_aggregation :
  option string → option Script → option Z → option string → Aggregation.
Variable histogram_aggregation : string → option Script → Float → Aggregation.
Variable float_bool : Float → bool.

(** X22. The request of a terms aggregation is a dictionary with the one key
    [self.id].  A fixed size other than zero replaces the size of the
    caller, which then has no influence on the request; a fixed size of
    zero counts as none, like [None], and the size of the caller (be it
    [None]) is the one requested. *)
Theorem terms_aggregation_size (self : TermsAggregation (Script := Script))
    (size : option Z) :
  TermsAggregation_aggregation_request terms_aggregation self size =
  {[metric_id self :=
      terms_aggregation (terms_field self) (terms_script self)
        (match fixed_size self with
         | Some 0 | None => size
         | Some n => Some n
         end)
        (missing self)]} ∧
  dom (TermsAggregation_aggregation_request terms_aggregation self size) =
    {[metric_id self]} ∧
  match fixed_size self with
  | Some 0 | None => True
  | Some _ =>
    ∀ size', TermsAggregation_aggregation_request terms_aggregation self size' =
             TermsAggregation_aggregation_request terms_aggregation self size
  end.
Proof.
  unfold TermsAggregation_aggregation_request. split_and!.
  - destruct (fixed_size self) as [[|p|p]|]; done.
  - apply dom_singleton_L.
  - destruct (fixed_size self) as [[|p|p]|]; done.
Qed.

(** X23. The request of a histogram aggregation is a dictionary with the one
    key [self.id]; a fixed interval that counts as true (any but zero)
    replaces the interval of the caller, which then has no influence on the
    request, and otherwise the interval of the caller is the one
    requested. *)
Theorem histogram_aggregation_interval
    (self : HistogramAggregation (Script := Script) (Float := Float))
    (interval : Float) :
  dom (HistogramAggregation_aggregation_request histogram_aggregation float_bool
         self interval) = {[metric_id self]} ∧
  match fixed_interval self with
  | Some x =>
    if float_bool x
    then ∀ interval',
           HistogramAggregation_aggregation_request histogram_aggregation
             float_bool self interval' =
           {[metric_id self :=
               histogram_aggregation (histogram_field self) (histogram_script self) x]}
    else HistogramAggregation_aggregation_request histogram_aggregation
           float_bool self interval =
         {[metric_id self :=
             histogram_aggregation (histogram_field self) (histogram_script self)
               interval]}
  | None =>
    HistogramAggregation_aggregation_request histogram_aggregation
      float_bool self interval =
    {[metric_id self :=
        histogram_aggregation (histogram_field self) (histogram_script self)
          interval]}
  end.
Proof.
  unfold HistogramAggregation_aggregation_request. split.
  - apply dom_singleton_L.
  - destruct (fixed_interval self) as [x|]; [|done].
    by destruct (float_bool x).
Qed.

End AggregationRequests.

Lemma string_app_inj (p a b : string) : (p ++ a = p ++ b)%string → a = b.
Proof. induction p as [|c p IH]; simpl; [done|]. intros [= H]. by apply IH. Qed.

(** X24. Within one nested path, different inner fields have different
    compound fields: [compound_nested_field] is injective in the inner
    field, and the compound field starts with the nested path and a dot. *)
Theorem compound_nested_field_inj (nested_path inner1 inner2 : string) :
  (compound_nested_field nested_path inner1 =
   compound_nested_field nested_path inner2 ↔ inner1 = inner2) ∧
  String.prefix (nested_path ++ ".")%string
    (compound_nested_field nested_path inner1) = true ∧
  String.length (compound_nested_field nested_path inner1) =
    (String.length nested_path + 1 + String.length inner1)%nat.
Proof.
  unfold compound_nested_field. split_and!.
  - split; [|by intros ->]. intros H%string_app_inj. by injection H.
  - induction nested_path as [|c p IH]; simpl.
    + by destruct inner1.
    + destruct (ascii_dec c c); done.
  - induction nested_path as [|c p IH]; simpl; [done|]. by rewrite IH.
Qed.

(** ** Accepted labels share a response *)

Lemma filter_overlap {A : Type} (P Q : A → Prop)
    `{∀ x, Decision (P x), ∀ x, Decision (Q x)} (l : list A) :
  (length l < length (filter P l) + length (filter Q l))%nat →
  ∃ x, x ∈ l ∧ P x ∧ Q x.
Proof.
  induction l as [|a l IH]; [simpl; lia|].
  rewrite !filter_cons. intros Hlen.
  destruct (decide (P a)) as [HP|HP], (decide (Q a)) as [HQ|HQ];
    try (exists a; split_and!; [left|done|done]); simpl in Hlen;
    (destruct IH as (x & Hx & HPx & HQx); [lia|]; exists x;
     split_and!; [by right|done|done]).
Qed.

(** X25. The threshold of the multi-label majority is a quorum: when no
    submitted response repeats a label, the labels that the unified
    responses of a record hold afterwards are those that more than half of
    its submitted responses choose, so that any two of them were chosen
    together by at least one response of the record that is submitted. *)
Theorem accepted_labels_share_a_response {G : Type} (randbelow : G → nat → nat * G)
    (records : list FeedbackRecord) (name : string) (g : G) :
  Forall (λ rec, Forall (answers_labels name) (submitted_of rec) ∧
                 Forall (λ resp, NoDup (chosen_labels name resp))
                   (submitted_of rec)) records →
  let o := Strategy_unify_responses randbelow (OfMultiLabel MULTI_MAJORITY) records
             (FieldName name) g in
  returned o = Ok TheRecords ∧
  Forall2
    (λ rec rec', ∃ accepted u,
       unified_responses rec' = Some {[name := One u]} ∧
       value u = VList accepted ∧
       (∀ l, l ∈ accepted ↔
             (length (submitted_of rec) < 2 * responses_choosing name rec l)%nat) ∧
       ∀ l1 l2, l1 ∈ accepted → l2 ∈ accepted →
         ∃ resp, resp ∈ responses rec ∧ status resp = submitted ∧
                 l1 ∈ chosen_labels name resp ∧ l2 ∈ chosen_labels name resp)
    records (records_after o).
Proof.
  intros Hall. cbn zeta. rewrite Forall_forall in Hall.
  rewrite unify_normal_form. cbn [accepted_name strategy_body strategy_return].
  match goal with
  | |- _ ∧ Forall2 ?P _ _ =>
    destruct (for_each_record_pure_total (G := G)
                (multi_label_majority_record (multi_label_value MULTI_MAJORITY) name)
                P records g)
      as (records' & -> & Hrecords); [|by split]
  end.
  intros rec Hrec. destruct (Hall rec Hrec) as [Hlabels Hsets].
  destruct (multi_label_majority_record_spec
              (multi_label_value MULTI_MAJORITY) name rec)
    as (accepted & u & -> & Hu & _ & _ & Hacc);
    [apply validate_strategy_multi_label|done|].
  pose proof (Nat.div_mod_eq (length (submitted_of rec)) 2) as Hdiv.
  pose proof (Nat.mod_upper_bound (length (submitted_of rec)) 2) as Hmod.
  assert (Hhalf : ∀ l, l ∈ accepted ↔
            (length (submitted_of rec) < 2 * responses_choosing name rec l)%nat).
  { intros l. rewrite Hacc, (label_frequency_sets _ _ _ Hsets). lia. }
  eexists. split; [done|]. exists accepted, u. split_and!; [done..|].
  intros l1 l2 Hl1%Hhalf Hl2%Hhalf. unfold responses_choosing in Hl1, Hl2.
  destruct (filter_overlap (λ resp, l1 ∈ chosen_labels name resp)
              (λ resp, l2 ∈ chosen_labels name resp) (submitted_of rec))
    as (resp & Hresp & H1 & H2); [lia|].
  apply list_elem_of_filter in Hresp as [Hstatus Hresp]. by exists resp.
Qed.

Lemma accepted_labels_share_a_response_witness :
  let o := Strategy_unify_responses counting_randbelow (OfMultiLabel MULTI_MAJORITY)
             [xy_discarded_record] (FieldName "q") 0%nat in
  returned o = Ok TheRecords ∧
  Forall2
    (λ rec rec', ∃ accepted u,
       unified_responses rec' = Some {["q" := One u]} ∧
       value u = VList accepted ∧
       (∀ l, l ∈ accepted ↔
             (length (submitted_of rec) < 2 * responses_choosing "q" rec l)%nat) ∧
       ∀ l1 l2, l1 ∈ accepted → l2 ∈ accepted →
         ∃ resp, resp ∈ responses rec ∧ status resp = submitted ∧
                 l1 ∈ chosen_labels "q" resp ∧ l2 ∈ chosen_labels "q" resp)
    [xy_discarded_record] (records_after o).
Proof.
  apply (accepted_labels_share_a_response counting_randbelow [xy_discarded_record]
           "q" 0%nat).
  apply (bool_decide_unpack _). by vm_compute.
Defined.
